(** * JewelryProcessingSystem: shallow embedding and verified properties

    The development embeds the four Python modules of the repository
    ([scripts/JewelryDatasetManager.py], [webhook_handler/webhook_handler.py],
    [jewelry_processor.py], [cloudinary_mediaflow.py]) as Rocq functions over an explicit model of the
    outside world (file system, object store, web, random module, log), and
    proves or refutes the properties of the design document against them.

    Conventions.
    - A Python [str] is a [string]; each [ascii] stands for one code point in
      the range U+0000..U+00FF.
    - A Python [int] is a [Z].
    - A [pathlib.Path] is the list of its components.
    - Code with effects lives in the monad [M]: a state transformer over
      [World] whose result is a value or a raised exception. *)

From Stdlib Require Import ZArith String Ascii List Bool Lia.
From Stdlib Require OrderedTypeEx.
From stdpp Require Import base option list gmap strings fin_maps pretty.

Local Open Scope Z_scope.

(* ================================================================== *)
(** * Part I: the embedding                                            *)
(* ================================================================== *)

(** ** Python strings *)

Module PyStr.

Definition chr (n : nat) : ascii := ascii_of_nat n.
Definition ord (c : ascii) : Z := Z.of_nat (nat_of_ascii c).

(** The double-quote character and the backslash, by code. *)
Definition quote : string := String (chr 34) "".
Definition backslash : string := String (chr 92) "".

Fixpoint join (sep : string) (l : list string) : string :=
  match l with
  | [] => ""
  | [s] => s
  | s :: rest => s +:+ sep +:+ join sep rest
  end.

(** [s.rfind(c)] for a one-character [c]: [None] stands for -1. *)
Fixpoint rfind (c : ascii) (s : string) : option nat :=
  match s with
  | EmptyString => None
  | String a s' =>
      match rfind c s' with
      | Some i => Some (S i)
      | None => if decide (a = c) then Some 0%nat else None
      end
  end.

Fixpoint startswith (s prefix : string) : bool :=
  match prefix, s with
  | EmptyString, _ => true
  | String p prefix', String a s' => bool_decide (a = p) && startswith s' prefix'
  | String _ _, EmptyString => false
  end.

Definition endswith (s suffix : string) : bool :=
  startswith (String.rev s) (String.rev suffix).

(** [s.split(sep)] for a one-character separator: never the empty list. *)
Fixpoint split (sep : ascii) (s : string) : list string :=
  match s with
  | EmptyString => [""]
  | String a s' =>
      if decide (a = sep) then "" :: split sep s'
      else match split sep s' with
           | [] => [String a ""]
           | w :: ws => String a w :: ws
           end
  end.

(** [str.isspace] on one code point of the Latin-1 range. *)
Definition isspace (c : ascii) : bool :=
  let n := nat_of_ascii c in
  ((9 <=? n) && (n <=? 13) || (28 <=? n) && (n <=? 32)
   || (n =? 133) || (n =? 160))%nat.

Fixpoint lstrip (s : string) : string :=
  match s with
  | EmptyString => ""
  | String a s' => if isspace a then lstrip s' else s
  end.

Definition strip (s : string) : string :=
  String.rev (lstrip (String.rev (lstrip s))).

Fixpoint isascii (s : string) : bool :=
  match s with
  | EmptyString => true
  | String a s' => (nat_of_ascii a <? 128)%nat && isascii s'
  end.

(** [str(n)] for an [int]. *)
Definition of_int (n : Z) : string := pretty n.

Fixpoint contains (c : ascii) (s : string) : bool :=
  match s with
  | EmptyString => false
  | String a s' => bool_decide (a = c) || contains c s'
  end.

(** Lower-case hexadecimal digits. *)
Definition hex_digit (n : nat) : ascii :=
  if (n <? 10)%nat then chr (48 + n) else chr (87 + n).

Definition hex2 (n : nat) : string :=
  String (hex_digit (n / 16)) (String (hex_digit (n mod 16)) "").

(** [repr(s)] of a string: single quotes unless the string has a single
    quote and no double quote; quote, backslash and unprintable code
    points are escaped. *)
Definition repr_char (q : ascii) (c : ascii) : string :=
  let n := nat_of_ascii c in
  if bool_decide (c = q) || (n =? 92)%nat then backslash +:+ String c ""
  else if (n =? 9)%nat then backslash +:+ "t"
  else if (n =? 10)%nat then backslash +:+ "n"
  else if (n =? 13)%nat then backslash +:+ "r"
  else if ((n <? 32) || (n =? 127))%nat then backslash +:+ "x" +:+ hex2 n
  else if (n <? 127)%nat then String c ""
  else if ((n <=? 160) || (n =? 173))%nat then backslash +:+ "x" +:+ hex2 n
  else String c "".

Fixpoint repr_chars (q : ascii) (s : string) : string :=
  match s with
  | EmptyString => ""
  | String c s' => repr_char q c +:+ repr_chars q s'
  end.

Definition repr (s : string) : string :=
  let q := if contains "'" s && negb (contains (chr 34) s)
           then chr 34 else "'"%char in
  String q (repr_chars q s) +:+ String q "".

End PyStr.

(** ** pathlib *)

Module Path.

(** A path is the list of its components; the empty list is the current
    directory. *)
Abbreviation t := (list string).

(** [Path(s)]: empty components and [.] are dropped. An absolute path keeps
    the root as its first component. *)
Definition of_str (s : string) : t :=
  let parts := filter (fun c => c <> "" /\ c <> ".") (PyStr.split "/" s) in
  if PyStr.startswith s "/" then "/" :: parts else parts.

Definition to_str (p : t) : string :=
  match p with
  | [] => "."
  | "/" :: rest => "/" +:+ PyStr.join "/" rest
  | _ => PyStr.join "/" p
  end.

Definition name (p : t) : string := List.last p "".
Definition parent (p : t) : t := removelast p.
Definition joinpath (p : t) (child : string) : t := p ++ [child].

(** [PurePath.stem]: the final component without its last suffix. *)
Definition stem (p : t) : string :=
  let nm := name p in
  match PyStr.rfind "." nm with
  | Some i =>
      if ((0 <? i) && (i <? String.length nm - 1))%nat
      then String.substring 0 i nm else nm
  | None => nm
  end.

End Path.

Infix "//" := Path.joinpath (at level 40, left associativity).

(** ** Exceptions and results *)

(** A raised exception: its class name and [str(e)]. Every exception of the
    model derives from [Exception], so an [except Exception] clause catches
    it. *)
Record exn := mkExn { exn_type : string; exn_str : string }.

(** What a call does: it returns a value, raises, or never returns (a
    coroutine that waits for a permit nobody will release). *)
Inductive Result (A : Type) :=
| Ok (a : A)
| Raise (e : exn)
| Blocked.
Arguments Ok {A} a.
Arguments Raise {A} e.
Arguments Blocked {A}.

(** [str(KeyError(k))] is [repr(k)]. *)
Definition KeyError (k : string) : exn := mkExn "KeyError" (PyStr.repr k).
Definition IndexError (msg : string) : exn := mkExn "IndexError" msg.
Definition TypeError (msg : string) : exn := mkExn "TypeError" msg.
Definition AttributeError (msg : string) : exn := mkExn "AttributeError" msg.
Definition ValueError (msg : string) : exn := mkExn "ValueError" msg.
Definition OSError (kind msg : string) : exn := mkExn kind msg.

(** ** JSON-shaped Python values and [json.dumps] *)

Module Json.

(** The values [json.loads] produces, which are also the values a Lambda
    event or a Flask JSON body holds. A [float] is carried by its [repr].
    A [dict] keeps its items in insertion order; lookup takes the first
    item with the key. *)
#[local] Set Warnings "-register-all".
Inductive value :=
| Null
| Bool (b : bool)
| Int (n : Z)
| Float (repr : string)
| Str (s : string)
| List (l : list value)
| Dict (items : list (string * value)).

Definition type_name (v : value) : string :=
  match v with
  | Null => "NoneType" | Bool _ => "bool" | Int _ => "int"
  | Float _ => "float" | Str _ => "str" | List _ => "list"
  | Dict _ => "dict"
  end.

Fixpoint assoc (k : string) (items : list (string * value)) : option value :=
  match items with
  | [] => None
  | (k', v) :: rest => if decide (k' = k) then Some v else assoc k rest
  end.

Definition not_subscriptable (v : value) : exn :=
  TypeError ("'" +:+ type_name v +:+ "' object is not subscriptable").

(** [v[k]] for a string [k]. *)
Definition getitem (v : value) (k : string) : Result value :=
  match v with
  | Dict items =>
      match assoc k items with
      | Some x => Ok x
      | None => Raise (KeyError k)
      end
  | List _ => Raise (TypeError "list indices must be integers or slices, not str")
  | Str _ => Raise (TypeError "string indices must be integers, not 'str'")
  | _ => Raise (not_subscriptable v)
  end.

(** Python's index normalisation: a negative index counts from the end. *)
Definition norm_index (i : Z) (len : nat) : option nat :=
  let j := if i <? 0 then i + Z.of_nat len else i in
  if (0 <=? j) && (j <? Z.of_nat len) then Some (Z.to_nat j) else None.

(** [v[i]] for an integer [i]. A dict of this model has only string keys,
    so an integer key is never found. *)
Definition getindex (v : value) (i : Z) : Result value :=
  match v with
  | List l =>
      match norm_index i (length l) with
      | Some j =>
          match nth_error l j with
          | Some x => Ok x
          | None => Raise (IndexError "list index out of range")
          end
      | None => Raise (IndexError "list index out of range")
      end
  | Str s =>
      match norm_index i (String.length s) with
      | Some j =>
          match String.get j s with
          | Some c => Ok (Str (String c ""))
          | None => Raise (IndexError "string index out of range")
          end
      | None => Raise (IndexError "string index out of range")
      end
  | Dict _ => Raise (mkExn "KeyError" (PyStr.of_int i))
  | _ => Raise (not_subscriptable v)
  end.

(** *** The encoder *)

(** [[format(n, '04x')]] for a code point below 256. *)
Definition hex4 (n : nat) : string :=
  String "0" (String "0" (PyStr.hex2 n)).

(** One code point under [ensure_ascii=True]. *)
Definition escape_char (c : ascii) : string :=
  let n := nat_of_ascii c in
  if (n =? 34)%nat then PyStr.backslash +:+ PyStr.quote
  else if (n =? 92)%nat then PyStr.backslash +:+ PyStr.backslash
  else if (n =? 10)%nat then PyStr.backslash +:+ "n"
  else if (n =? 13)%nat then PyStr.backslash +:+ "r"
  else if (n =? 9)%nat then PyStr.backslash +:+ "t"
  else if (n =? 8)%nat then PyStr.backslash +:+ "b"
  else if (n =? 12)%nat then PyStr.backslash +:+ "f"
  else if ((32 <=? n) && (n <=? 126))%nat then String c ""
  else PyStr.backslash +:+ "u" +:+ hex4 n.

Fixpoint escape (s : string) : string :=
  match s with
  | EmptyString => ""
  | String c s' => escape_char c +:+ escape s'
  end.

Definition encode_str (s : string) : string :=
  PyStr.quote +:+ escape s +:+ PyStr.quote.

(** Insertion of an item into a key-sorted item list, and the sort that
    [sort_keys=True] performs. *)
Fixpoint insert_sorted {A} (kv : string * A) (l : list (string * A))
  : list (string * A) :=
  match l with
  | [] => [kv]
  | kv' :: rest =>
      if String.leb (fst kv) (fst kv') then kv :: l
      else kv' :: insert_sorted kv rest
  end.

Definition sort_items {A} (l : list (string * A)) : list (string * A) :=
  foldr insert_sorted [] l.

Section Encoder.
(** [json.dumps(v, indent=indent, separators=(item_sep, key_sep),
    sort_keys=sort_keys)]. *)
Variable indent : option nat.
Variable item_sep key_sep : string.
Variable sort_keys : bool.

Fixpoint spaces (n : nat) : string :=
  match n with O => "" | S n' => String " " (spaces n') end.

Definition newline_indent (level : nat) : string :=
  match indent with
  | None => ""
  | Some n => String (PyStr.chr 10) (spaces (n * level))
  end.

(** The items of a dict are encoded first and sorted by key afterwards;
    Python sorts the items first, which gives the same text. *)
Fixpoint encode (level : nat) (v : value) : string :=
  match v with
  | Null => "null"
  | Bool true => "true"
  | Bool false => "false"
  | Int n => PyStr.of_int n
  | Float r => r
  | Str s => encode_str s
  | List [] => "[]"
  | List l =>
      "[" +:+ newline_indent (S level)
      +:+ PyStr.join (item_sep +:+ newline_indent (S level))
            (map (encode (S level)) l)
      +:+ newline_indent level +:+ "]"
  | Dict [] => "{}"
  | Dict items =>
      let encoded :=
        map (fun kv => (fst kv, encode (S level) (snd kv))) items in
      let ordered := if sort_keys then sort_items encoded else encoded in
      "{" +:+ newline_indent (S level)
      +:+ PyStr.join (item_sep +:+ newline_indent (S level))
            (map (fun kv => encode_str (fst kv) +:+ key_sep +:+ snd kv)
               ordered)
      +:+ newline_indent level +:+ "}"
  end.
End Encoder.

(** When no separators are given, [json.dumps] uses [', '] and [': '], and
    [','] and [': '] when [indent] is set. *)

(** [json.dumps(v)]. *)
Definition dumps (v : value) : string :=
  encode None ", " ": " false 0 v.

(** [json.dumps(v, indent=n)]. *)
Definition dumps_indent (n : nat) (v : value) : string :=
  encode (Some n) "," ": " false 0 v.

(** [json.dumps(v, separators=(',', ':'), sort_keys=True)]. *)
Definition dumps_canonical (v : value) : string :=
  encode None "," ":" true 0 v.

End Json.

(** ** The world outside the program *)

(** An image as PIL holds it after [Image.open]: the header gives mode and
    size at once; the pixel data is decoded lazily by [load], which fails on
    a truncated or corrupt body. *)
Record PILImage := mkImage {
  im_mode : string;
  im_size : Z * Z;
  im_data_ok : bool
}.

(** What a file holds. *)
Inductive FileData :=
| ImageFile (format : string) (img : PILImage)
| TextFile (text : string)
| BytesFile (data : string)
| CsvFile (columns : list string) (rows : list (list string)).

Inductive Node :=
| Dir
| File (d : FileData).

Inductive LogLevel := INFO | ERROR.

Record World := mkWorld {
  (** the file system, relative to the working directory *)
  fs : gmap (list string) Node;
  (** the object store: bucket name to its objects by key *)
  s3_buckets : gmap string (gmap string FileData);
  (** whether the object store can be reached with valid credentials *)
  s3_online : bool;
  (** log records, oldest first *)
  log : list (LogLevel * string);
  (** the random module: the raw draws to come and how many were taken *)
  rng_tape : nat -> N;
  rng_pos : nat
}.

Definition set_fs (f : gmap (list string) Node) (w : World) : World :=
  mkWorld f (s3_buckets w) (s3_online w) (log w) (rng_tape w) (rng_pos w).
Definition set_s3 (b : gmap string (gmap string FileData)) (w : World) : World :=
  mkWorld (fs w) b (s3_online w) (log w) (rng_tape w) (rng_pos w).
Definition set_log (l : list (LogLevel * string)) (w : World) : World :=
  mkWorld (fs w) (s3_buckets w) (s3_online w) l (rng_tape w) (rng_pos w).
Definition set_rng_pos (n : nat) (w : World) : World :=
  mkWorld (fs w) (s3_buckets w) (s3_online w) (log w) (rng_tape w) n.

(** ** The monad of effectful code *)

Definition M (A : Type) : Type := World -> Result A * World.

Definition ret {A} (a : A) : M A := fun w => (Ok a, w).
Definition raise {A} (e : exn) : M A := fun w => (Raise e, w).

Definition bind {A B} (m : M A) (k : A -> M B) : M B :=
  fun w =>
    match m w with
    | (Ok a, w') => k a w'
    | (Raise e, w') => (Raise e, w')
    | (Blocked, w') => (Blocked, w')
    end.

(** [try: m except Exception as e: h e]. *)
Definition try_except {A} (m : M A) (h : exn -> M A) : M A :=
  fun w =>
    match m w with
    | (Ok a, w') => (Ok a, w')
    | (Raise e, w') => h e w'
    | (Blocked, w') => (Blocked, w')
    end.

Definition lift {A} (r : Result A) : M A := fun w => (r, w).

Notation "x <- m ;; k" := (bind m (fun x => k))
  (at level 100, m at next level, right associativity).
Notation "m ;;; k" := (bind m (fun _ => k))
  (at level 100, right associativity).

Fixpoint mapM {A B} (f : A -> M B) (l : list A) : M (list B) :=
  match l with
  | [] => ret []
  | x :: rest => y <- f x ;; ys <- mapM f rest ;; ret (y :: ys)
  end.

(** A [for] loop over a list whose body returns nothing. *)
Fixpoint forM {A} (l : list A) (body : A -> M unit) : M unit :=
  match l with
  | [] => ret tt
  | x :: rest => body x ;;; forM rest body
  end.

(** ** logging *)

Definition logger_info (msg : string) : M unit :=
  fun w => (Ok tt, set_log (log w ++ [(INFO, msg)]) w).
Definition logger_error (msg : string) : M unit :=
  fun w => (Ok tt, set_log (log w ++ [(ERROR, msg)]) w).

(** ** random *)

(** [random.randint(a, b)]: a draw reduced to the closed range [a..b]; an
    empty range raises. *)
Definition randint (a b : Z) : M Z :=
  fun w =>
    if b <? a then (Raise (ValueError "empty range for randrange()"), w)
    else (Ok (a + Z.of_N (rng_tape w (rng_pos w)) mod (b - a + 1)),
          set_rng_pos (S (rng_pos w)) w).

(** [random.uniform(a, b)]: one draw; the value plays no part in what the
    program computes, so only the draw is kept. *)
Definition uniform (a b : Z) : M N :=
  fun w => (Ok (rng_tape w (rng_pos w)), set_rng_pos (S (rng_pos w)) w).

(** [random.choice(seq)]. *)
Definition choice {A} (seq : list A) : M A :=
  fun w =>
    match seq with
    | [] => (Raise (IndexError "Cannot choose from an empty sequence"), w)
    | _ =>
        match nth_error seq (N.to_nat (rng_tape w (rng_pos w))
                             mod length seq) with
        | Some x => (Ok x, set_rng_pos (S (rng_pos w)) w)
        | None => (Raise (IndexError "Cannot choose from an empty sequence"), w)
        end
    end.

(** ** The file system *)

Module FS.

Definition lookup (w : World) (p : Path.t) : option Node :=
  match p with
  | [] => Some Dir
  | _ => fs w !! p
  end.

Definition is_dir (w : World) (p : Path.t) : bool :=
  match lookup w p with Some Dir => true | _ => false end.

Definition FileNotFoundError (p : Path.t) : exn :=
  OSError "FileNotFoundError"
    ("[Errno 2] No such file or directory: '" +:+ Path.to_str p +:+ "'").
Definition FileExistsError (p : Path.t) : exn :=
  OSError "FileExistsError"
    ("[Errno 17] File exists: '" +:+ Path.to_str p +:+ "'").
Definition IsADirectoryError (p : Path.t) : exn :=
  OSError "IsADirectoryError"
    ("[Errno 21] Is a directory: '" +:+ Path.to_str p +:+ "'").
Definition NotADirectoryError (p : Path.t) : exn :=
  OSError "NotADirectoryError"
    ("[Errno 20] Not a directory: '" +:+ Path.to_str p +:+ "'").

(** [p.mkdir(exist_ok=True)]: the parent must be a directory; an existing
    directory is left alone and an existing file is an error. *)
Definition mkdir (p : Path.t) : M unit :=
  fun w =>
    match lookup w p with
    | Some Dir => (Ok tt, w)
    | Some (File _) => (Raise (FileExistsError p), w)
    | None =>
        match lookup w (Path.parent p) with
        | Some Dir => (Ok tt, set_fs (<[p := Dir]> (fs w)) w)
        | Some (File _) => (Raise (NotADirectoryError p), w)
        | None => (Raise (FileNotFoundError p), w)
        end
    end.

(** [p.mkdir(parents=True, exist_ok=True)]: every missing ancestor is made,
    outermost first. [prefixes] lists them. *)
Fixpoint prefixes (done todo : Path.t) : list Path.t :=
  match todo with
  | [] => []
  | c :: rest => (done ++ [c]) :: prefixes (done ++ [c]) rest
  end.

Definition makedirs (p : Path.t) : M unit :=
  forM (prefixes [] p) mkdir.

(** Opening [p] for writing and writing [d]: the parent must be a
    directory and [p] must not be one; an existing file is replaced. *)
Definition write_file (p : Path.t) (d : FileData) : M unit :=
  fun w =>
    match lookup w p with
    | Some Dir => (Raise (IsADirectoryError p), w)
    | _ =>
        match lookup w (Path.parent p) with
        | Some Dir => (Ok tt, set_fs (<[p := File d]> (fs w)) w)
        | Some (File _) => (Raise (NotADirectoryError p), w)
        | None => (Raise (FileNotFoundError p), w)
        end
    end.

(** [p.iterdir()]: the names in a directory, listed when the loop starts. *)
Definition children (w : World) (p : Path.t) : list Path.t :=
  filter (fun q => q <> [] /\ Path.parent q = p) ((map_to_list (fs w)).*1).

Definition iterdir (p : Path.t) : M (list Path.t) :=
  fun w =>
    match lookup w p with
    | Some Dir => (Ok (children w p), w)
    | Some (File _) => (Raise (NotADirectoryError p), w)
    | None => (Raise (FileNotFoundError p), w)
    end.

(** [p.glob('**/*' + suffix)]: every entry strictly below [p] whose name
    ends with [suffix]. The order is the file system's own. *)
Definition below (p q : Path.t) : bool :=
  bool_decide (take (length p) q = p) && bool_decide (length p < length q)%nat.

Definition glob_suffix (w : World) (p : Path.t) (suffix : string) : list Path.t :=
  filter (fun q => below p q = true /\ PyStr.endswith (Path.name q) suffix = true)
    ((map_to_list (fs w)).*1).

End FS.

(** ** PIL and boto3 *)

Module PIL.

(** [Image.open(p)]: reads the header; fails on a missing file, a
    directory, or bytes that are no image. *)
Definition Image_open (p : Path.t) : M PILImage :=
  fun w =>
    match FS.lookup w p with
    | Some (File (ImageFile _ img)) => (Ok img, w)
    | Some (File _) =>
        (Raise (mkExn "UnidentifiedImageError"
                  ("cannot identify image file '" +:+ Path.to_str p +:+ "'")), w)
    | Some Dir => (Raise (FS.IsADirectoryError p), w)
    | None => (Raise (FS.FileNotFoundError p), w)
    end.

(** [img.load()]: decodes the pixel data. *)
Definition load (img : PILImage) : M unit :=
  if im_data_ok img then ret tt
  else raise (OSError "OSError" "image file is truncated").

(** [img.convert(mode)]: loads, then returns a new image of the same
    size. *)
Definition convert (img : PILImage) (mode : string) : M PILImage :=
  load img ;;; ret (mkImage mode (im_size img) true).

(** [img.save(p, format, quality=q)]: loads, then writes the encoded file.
    The program only saves images of mode RGB, which the JPEG encoder
    accepts. *)
Definition save (img : PILImage) (p : Path.t) (format : string) (quality : Z)
  : M unit :=
  load img ;;; FS.write_file p (ImageFile format img).

End PIL.

Module Boto3.

(** [s3.upload_file(filename, bucket, key)]. *)
Definition upload_file (filename bucket key : string) : M unit :=
  fun w =>
    match FS.lookup w (Path.of_str filename) with
    | Some (File d) =>
        if s3_online w then
          match s3_buckets w !! bucket with
          | Some objects =>
              (Ok tt, set_s3 (<[bucket := <[key := d]> objects]> (s3_buckets w)) w)
          | None =>
              (Raise (mkExn "S3UploadFailedError"
                        ("Failed to upload " +:+ filename +:+ " to " +:+ bucket
                         +:+ "/" +:+ key +:+ ": NoSuchBucket")), w)
          end
        else
          (Raise (mkExn "EndpointConnectionError"
                    "Could not connect to the endpoint URL"), w)
    | _ => (Raise (FS.FileNotFoundError (Path.of_str filename)), w)
    end.

End Boto3.

(** ** scripts/JewelryDatasetManager.py: class JewelryDatasetManager *)

Module JewelryDatasetManager.

(** [self.config]: the defaults of [__init__] updated with the caller's
    dict. *)
Record Config := mkConfig {
  input_dir : string;
  output_dir : string;
  aws_bucket : string;
  min_image_size : Z;
  max_images_per_category : Z;
  user_agents : list string
}.

Definition default_config : Config := {|
  input_dir := "raw_data";
  output_dir := "processed_datasets";
  aws_bucket := "jewelry-images-input-bucket";
  min_image_size := 512;
  max_images_per_category := 1000;
  user_agents :=
    ["Mozilla/5.0 (Windows NT 10.0; Win64; x64) AppleWebKit/537.36";
     "Mozilla/5.0 (Macintosh; Intel Mac OS X 10_15_7) AppleWebKit/537.36"]
|}.

(** The dict [process_single_image] returns. *)
Record ImageRecord := mkImageRecord {
  original_path : string;
  processed_path : string;
  category : string;
  dimensions : Z * Z;
  s3_key : string
}.

Definition record_to_json (r : ImageRecord) : Json.value :=
  Json.Dict
    [("original_path", Json.Str (original_path r));
     ("processed_path", Json.Str (processed_path r));
     ("category", Json.Str (category r));
     ("dimensions", Json.List [Json.Int (fst (dimensions r));
                               Json.Int (snd (dimensions r))]);
     ("s3_key", Json.Str (s3_key r))].

Section Methods.
Variable config : Config.

Definition upload_to_s3 (file_path : Path.t) (category filename : string)
  : M unit :=
  try_except
    (let s3_key := category +:+ "/" +:+ filename in
     Boto3.upload_file (Path.to_str file_path) (aws_bucket config) s3_key)
    (fun e =>
       logger_error ("S3 upload error for " +:+ Path.to_str file_path
                     +:+ ": " +:+ exn_str e)).

(** [f"{image_path.stem}_{n}.jpg"]. *)
Definition output_name_of (image_path : Path.t) (n : Z) : string :=
  Path.stem image_path +:+ "_" +:+ PyStr.of_int n +:+ ".jpg".

Definition process_single_image (image_path output_dir : Path.t)
  : M (option ImageRecord) :=
  try_except
    (img <- PIL.Image_open image_path ;;
     if Z.min (fst (im_size img)) (snd (im_size img)) <? min_image_size config
     then ret None
     else
       img <- (if decide (im_mode img <> "RGB")
               then PIL.convert img "RGB" else ret img) ;;
       n <- randint 1000 9999 ;;
       let output_name := output_name_of image_path n in
       let output_path := output_dir // output_name in
       PIL.save img output_path "JPEG" 95 ;;;
       upload_to_s3 output_path (Path.name (Path.parent image_path))
         output_name ;;;
       ret (Some {|
         original_path := Path.to_str image_path;
         processed_path := Path.to_str output_path;
         category := Path.name (Path.parent image_path);
         dimensions := im_size img;
         s3_key := Path.name (Path.parent image_path) +:+ "/" +:+ output_name
       |}))
    (fun e =>
       logger_error ("Error processing " +:+ Path.to_str image_path
                     +:+ ": " +:+ exn_str e) ;;;
       ret None).

(** The text [json.dump(metadata, f, indent=2)] writes. *)
Definition metadata_text (metadata : list ImageRecord) : string :=
  Json.dumps_indent 2 (Json.List (map record_to_json metadata)).

Definition metadata_file (category : string) : Path.t :=
  Path.of_str (output_dir config) // (category +:+ "_metadata.json").

Definition save_metadata (category : string) (metadata : list ImageRecord)
  : M unit :=
  FS.write_file (metadata_file category) (TextFile (metadata_text metadata)).

(** [executor.submit(f, ...)]: the worker runs the call and keeps what it
    returned or raised in the future. The pool is modelled by running
    the calls one after the other, in submission order. *)
Definition submit {A} (call : M A) : M (Result A) :=
  fun w => let '(r, w') := call w in (Ok r, w').

(** The loop over the futures: a truthy result is appended, an exception
    is logged. *)
Fixpoint collect_results (futures : list (Result (option ImageRecord)))
  : M (list ImageRecord) :=
  match futures with
  | [] => ret []
  | fut :: rest =>
      head <- try_except
                (result <- lift fut ;;
                 match result with
                 | Some r => ret [r]
                 | None => ret []
                 end)
                (fun e =>
                   logger_error ("Error processing image: " +:+ exn_str e) ;;;
                   ret []) ;;
      tail <- collect_results rest ;;
      ret (head ++ tail)
  end.

Definition image_paths_of (category_dir : Path.t) : M (list Path.t) :=
  fun w => (Ok (FS.glob_suffix w category_dir ".jpg"
                ++ FS.glob_suffix w category_dir ".png"), w).

(** The metadata list the loop body builds for one category. *)
Definition category_metadata (category_dir category_output : Path.t)
  : M (list ImageRecord) :=
  image_paths <- image_paths_of category_dir ;;
  futures <- mapM (fun img_path =>
                     submit (process_single_image img_path category_output))
               image_paths ;;
  collect_results futures.

(** The body of the loop over [base_path.iterdir()]. *)
Definition process_category (output_base category_dir : Path.t) : M unit :=
  fun w =>
    if FS.is_dir w category_dir then
      (let category_name := Path.name category_dir in
       logger_info ("Processing category: " +:+ category_name) ;;;
       let category_output := output_base // category_name in
       FS.mkdir category_output ;;;
       metadata <- category_metadata category_dir category_output ;;
       save_metadata category_name metadata) w
    else (Ok tt, w).

Definition process_local_folders (base_dir : string) : M unit :=
  let base_path := Path.of_str base_dir in
  logger_info ("Processing folders in " +:+ base_dir) ;;;
  let output_base := Path.of_str (output_dir config) in
  FS.mkdir output_base ;;;
  entries <- FS.iterdir base_path ;;
  forM entries (process_category output_base).

End Methods.

End JewelryDatasetManager.

(** ** aiohttp and BeautifulSoup *)

Module Aiohttp.

(** What a GET does: the connection fails with an exception, or a response
    arrives with a status and a body. *)
Inductive Outcome :=
| Failed (e : exn)
| Response (status : Z) (body : string).

(** A client session is the web as seen through it: the outcome of a GET
    for a URL and request headers. *)
Record ClientSession := mkSession {
  get : string -> list (string * string) -> Outcome
}.

End Aiohttp.

Module Bs4.

(** An element of the parsed document: its attributes and its text. *)
Record Tag := mkTag {
  attrs : list (string * string);
  text : string
}.

Fixpoint attr (k : string) (l : list (string * string)) : option string :=
  match l with
  | [] => None
  | (k', v) :: rest => if decide (k' = k) then Some v else attr k rest
  end.

(** [tag[k]] on the result of [select_one], which is [None] when nothing
    matches. *)
Definition getitem (t : option Tag) (k : string) : M string :=
  match t with
  | None => raise (TypeError "'NoneType' object is not subscriptable")
  | Some tag =>
      match attr k (attrs tag) with
      | Some v => ret v
      | None => raise (KeyError k)
      end
  end.

(** [tag.text] on the result of [select_one]. *)
Definition get_text (t : option Tag) : M string :=
  match t with
  | None => raise (AttributeError "'NoneType' object has no attribute 'text'")
  | Some tag => ret (text tag)
  end.

End Bs4.

(** ** scripts/JewelryDatasetManager.py: class JewelryWebScraper *)

Module JewelryWebScraper.

Record Selectors := mkSelectors {
  sel_image : string;
  sel_title : string;
  sel_price : string
}.

Record Site := mkSite {
  site_url : string;
  selectors : Selectors
}.

(** [self.config]. The defaults of [__init__] have no [user_agents] key
    (the key is set in the other class's defaults only); a caller's dict
    can supply it. [None] is the absent key. *)
Record Config := mkConfig {
  output_dir : string;
  delay_range : Z * Z;
  max_retries : Z;
  concurrent_requests : Z;
  target_sites : list Site;
  user_agents : option (list string)
}.

Definition default_config : Config := {|
  output_dir := "scraped_data";
  delay_range := (1, 3);
  max_retries := 3;
  concurrent_requests := 5;
  target_sites :=
    [ {| site_url := "https://example-jewelry-site.com";
         selectors := {| sel_image := "div.product-image img";
                         sel_title := "h1.product-title";
                         sel_price := "span.price" |} |} ];
  user_agents := None
|}.

(** The dict [scrape_product] returns. *)
Record ProductRecord := mkProductRecord {
  url : string;
  title : string;
  price : string;
  image_filename : string
}.

Definition record_to_json (r : ProductRecord) : Json.value :=
  Json.Dict [("url", Json.Str (url r)); ("title", Json.Str (title r));
             ("price", Json.Str (price r));
             ("image_filename", Json.Str (image_filename r))].

Definition record_to_row (r : ProductRecord) : list string :=
  [url r; title r; price r; image_filename r].

(** [asyncio.Semaphore(value)] as far as the results of a batch depend on
    it: the semaphore is its number of permits. Module [TaskRunner] has the
    interleavings of the tasks that share it. *)
Definition Semaphore (value : Z) : M Z :=
  if value <? 0 then raise (ValueError "Semaphore initial value must be >= 0")
  else ret value.

(** [async with semaphore: body] for tasks run one after the other: with no
    permit at all the task waits forever; otherwise it takes a permit, runs
    and gives the permit back. *)
Definition async_with {A} (semaphore : Z) (body : M A) : M A :=
  fun w => if semaphore =? 0 then (Blocked, w) else body w.

Section Methods.
Variable config : Config.
(** [BeautifulSoup(html, 'html.parser').select_one(selector)]. *)
Variable select_one : string -> string -> option Bs4.Tag.
(** [get_product_urls] is left to each site: the class only has a stub.
    It returns [None] (the stub), a list of URLs, or raises. *)
Variable get_product_urls :
  Aiohttp.ClientSession -> string -> Result (option (list string)).

Definition download_image (session : Aiohttp.ClientSession) (image_url : string)
  : M (option string) :=
  try_except
    (match Aiohttp.get session image_url [] with
     | Aiohttp.Failed e => raise e
     | Aiohttp.Response status body =>
         if status =? 200 then ret (Some body) else ret None
     end)
    (fun e =>
       logger_error ("Error downloading image " +:+ image_url +:+ ": "
                     +:+ exn_str e) ;;;
       ret None).

Definition save_image (image_data filename : string) : M unit :=
  let output_dir := Path.of_str (output_dir config) // "images" in
  FS.makedirs output_dir ;;;
  FS.write_file (output_dir // filename) (BytesFile image_data).

(** [self.config['user_agents']]. *)
Definition config_user_agents : M (list string) :=
  match user_agents config with
  | Some l => ret l
  | None => raise (KeyError "user_agents")
  end.

(** [f"{url.split('/')[-1]}.jpg"]. *)
Definition image_filename_of (url : string) : string :=
  List.last (PyStr.split "/" url) "" +:+ ".jpg".

Definition scrape_product (session : Aiohttp.ClientSession) (url : string)
    (selectors : Selectors) (semaphore : Z) : M (option ProductRecord) :=
  async_with semaphore (try_except
    (uniform (fst (delay_range config)) (snd (delay_range config)) ;;;
     agents <- config_user_agents ;;
     agent <- choice agents ;;
     let headers := [("User-Agent", agent)] in
     match Aiohttp.get session url headers with
     | Aiohttp.Failed e => raise e
     | Aiohttp.Response status html =>
         if status =? 200 then
           image_url <- Bs4.getitem (select_one html (sel_image selectors)) "src" ;;
           title <- Bs4.get_text (select_one html (sel_title selectors)) ;;
           let title := PyStr.strip title in
           price <- Bs4.get_text (select_one html (sel_price selectors)) ;;
           let price := PyStr.strip price in
           image_data <- download_image session image_url ;;
           match image_data with
           | Some data =>
               if decide (data <> "") then
                 let image_filename := image_filename_of url in
                 save_image data image_filename ;;;
                 ret (Some {| url := url; title := title; price := price;
                              image_filename := image_filename |})
               else ret None
           | None => ret None
           end
         else ret None
     end)
    (fun e =>
       logger_error ("Error scraping " +:+ url +:+ ": " +:+ exn_str e) ;;;
       ret None)).

Definition results_json (results : list ProductRecord) : string :=
  Json.dumps_indent 2 (Json.List (map record_to_json results)).

Definition results_csv (results : list ProductRecord) : FileData :=
  CsvFile (match results with
           | [] => []
           | _ => ["url"; "title"; "price"; "image_filename"]
           end)
          (map record_to_row results).

Definition json_path : Path.t :=
  Path.of_str (output_dir config) // "scrape_results.json".
Definition csv_path : Path.t :=
  Path.of_str (output_dir config) // "scrape_results.csv".

Definition save_scrape_results (site_url : string)
    (results : list ProductRecord) : M unit :=
  let output_dir := Path.of_str (output_dir config) in
  FS.mkdir output_dir ;;;
  FS.write_file json_path (TextFile (results_json results)) ;;;
  FS.write_file csv_path (results_csv results).

(** [asyncio.gather] with [return_exceptions=True]: the outcomes
    come back in task order, a raised exception as a value; a task that
    never returns keeps [gather] from returning. The tasks are run one
    after the other. *)
Fixpoint gather {A} (tasks : list (M A)) : M (list (Result A)) :=
  match tasks with
  | [] => ret []
  | t :: rest =>
      fun w =>
        match t w with
        | (Blocked, w') => (Blocked, w')
        | (r, w') => (y <- gather rest ;; ret (r :: y)) w'
        end
  end.

(** [[r for r in results if isinstance(r, dict)]]. *)
Fixpoint valid_results_of (results : list (Result (option ProductRecord)))
  : list ProductRecord :=
  match results with
  | [] => []
  | Ok (Some r) :: rest => r :: valid_results_of rest
  | _ :: rest => valid_results_of rest
  end.

(** [for url in product_urls]: [None] is not iterable. *)
Definition iterate (product_urls : option (list string)) : M (list string) :=
  match product_urls with
  | Some l => ret l
  | None => raise (TypeError "'NoneType' object is not iterable")
  end.

Definition scrape_site (session : Aiohttp.ClientSession) (site : Site)
  : M unit :=
  try_except
    (product_urls <- lift (get_product_urls session (site_url site)) ;;
     semaphore <- Semaphore (concurrent_requests config) ;;
     urls <- iterate product_urls ;;
     let tasks :=
       map (fun url => scrape_product session url (selectors site) semaphore)
         urls in
     results <- gather tasks ;;
     let valid_results := valid_results_of results in
     save_scrape_results (site_url site) valid_results)
    (fun e =>
       logger_error ("Error scraping site " +:+ site_url site +:+ ": "
                     +:+ exn_str e)).

Definition start_scraping (session : Aiohttp.ClientSession) : M unit :=
  forM (target_sites config)
    (fun site =>
       logger_info ("Scraping site: " +:+ site_url site) ;;;
       scrape_site session site).

End Methods.

End JewelryWebScraper.

(** ** The bounded task runner: interleavings of one site's tasks

    [scrape_site] makes one [asyncio.Semaphore(concurrent_requests)] and one
    [scrape_product] task per URL; [gather] lets the event loop interleave
    them at their [await] points. A task waits for a permit, then holds it
    through the delay, the page fetch, the parsing, the image download and
    the image write, and gives it back when it leaves [async with], however
    it leaves. *)

Module TaskRunner.

Inductive Phase :=
| Waiting       (** before [async with semaphore] lets it in *)
| Delaying      (** in [asyncio.sleep] *)
| Fetching      (** in [session.get] and [response.text] *)
| Parsing       (** selecting image, title and price *)
| Downloading   (** in [download_image] *)
| Saving        (** in [save_image] *)
| Finished.     (** left [async with]: returned a dict or [None] *)

Definition in_flight_phase (p : Phase) : bool :=
  match p with
  | Waiting | Finished => false
  | _ => true
  end.

(** One site's run: the semaphore's free permits and every task's phase. *)
Record SiteRun := mkSiteRun {
  permits : nat;
  tasks : list Phase
}.

Definition in_flight (r : SiteRun) : nat :=
  length (filter (fun p => in_flight_phase p = true) (tasks r)).

(** What [scrape_site] sets up for [n] URLs under cap [c]. *)
Definition start (c n : nat) : SiteRun :=
  mkSiteRun c (replicate n Waiting).

(** The next phase of a task that goes on; any phase may instead end the
    task (a non-200 status, a missing element, an exception). *)
Definition next_phase (p : Phase) : option Phase :=
  match p with
  | Delaying => Some Fetching
  | Fetching => Some Parsing
  | Parsing => Some Downloading
  | Downloading => Some Saving
  | _ => None
  end.

(** One step of the event loop on task [i]. *)
Inductive step : SiteRun -> SiteRun -> Prop :=
| step_acquire r i :
    tasks r !! i = Some Waiting ->
    (0 < permits r)%nat ->
    step r (mkSiteRun (permits r - 1) (<[i := Delaying]> (tasks r)))
| step_advance r i p q :
    tasks r !! i = Some p ->
    next_phase p = Some q ->
    step r (mkSiteRun (permits r) (<[i := q]> (tasks r)))
| step_release r i p :
    tasks r !! i = Some p ->
    in_flight_phase p = true ->
    step r (mkSiteRun (permits r + 1) (<[i := Finished]> (tasks r))).

Inductive reachable (c n : nat) : SiteRun -> Prop :=
| reach_start : reachable c n (start c n)
| reach_step r r' : reachable c n r -> step r r' -> reachable c n r'.

(** The sites are scraped one after the other: [start_scraping] awaits
    each [scrape_site] before the next. A multi-site run is at some site,
    in some state of that site's run; when every task of the site has
    finished, the next site starts with a semaphore of its own. [sizes]
    gives the number of URLs of the sites still to come. *)
Record MultiRun := mkMultiRun {
  current : SiteRun;
  upcoming : list nat
}.

Definition all_finished (r : SiteRun) : Prop :=
  Forall (fun p => p = Finished) (tasks r).

Inductive mstep (c : nat) : MultiRun -> MultiRun -> Prop :=
| mstep_task r r' rest :
    step r r' -> mstep c (mkMultiRun r rest) (mkMultiRun r' rest)
| mstep_next_site r n rest :
    all_finished r ->
    mstep c (mkMultiRun r (n :: rest)) (mkMultiRun (start c n) rest).

Inductive mreachable (c : nat) (n : nat) (sizes : list nat) : MultiRun -> Prop :=
| mreach_start : mreachable c n sizes (mkMultiRun (start c n) sizes)
| mreach_step m m' : mreachable c n sizes m -> mstep c m m' -> mreachable c n sizes m'.

End TaskRunner.

(** ** The error monad of code without state *)

Definition rbind {A B} (r : Result A) (k : A -> Result B) : Result B :=
  match r with
  | Ok a => k a
  | Raise e => Raise e
  | Blocked => Blocked
  end.

Notation "x <-- r ;; k" := (rbind r (fun x => k))
  (at level 100, r at next level, right associativity).

(** What a call to an outside service does: it returns or it raises. *)
Definition call {A} (outcome : exn + A) : Result A :=
  match outcome with
  | inl e => Raise e
  | inr a => Ok a
  end.

(** ** [str(v)] and [repr(v)] of JSON-shaped values, as f-strings print them *)

Module PyRepr.

Fixpoint repr (v : Json.value) : string :=
  match v with
  | Json.Null => "None"
  | Json.Bool true => "True"
  | Json.Bool false => "False"
  | Json.Int n => PyStr.of_int n
  | Json.Float r => r
  | Json.Str s => PyStr.repr s
  | Json.List l => "[" +:+ PyStr.join ", " (map repr l) +:+ "]"
  | Json.Dict items =>
      "{" +:+ PyStr.join ", "
                (map (fun kv => PyStr.repr (fst kv) +:+ ": " +:+ repr (snd kv)) items)
      +:+ "}"
  end.

Definition str (v : Json.value) : string :=
  match v with
  | Json.Str s => s
  | _ => repr v
  end.

End PyRepr.

(** ** hashlib and hmac *)

Module SHA256.

(** 32-bit words are integers in [0, 2^32). *)
Definition wrap (x : Z) : Z := x mod 2 ^ 32.
Definition add (x y : Z) : Z := wrap (x + y).
Definition rotr (n x : Z) : Z :=
  Z.lor (Z.shiftr x n) (wrap (Z.shiftl x (32 - n))).
Definition shr (n x : Z) : Z := Z.shiftr x n.
Definition lnot32 (x : Z) : Z := Z.lxor x (2 ^ 32 - 1).

Definition Ch (x y z : Z) : Z := Z.lxor (Z.land x y) (Z.land (lnot32 x) z).
Definition Maj (x y z : Z) : Z :=
  Z.lxor (Z.lxor (Z.land x y) (Z.land x z)) (Z.land y z).
Definition Sigma0 (x : Z) : Z := Z.lxor (Z.lxor (rotr 2 x) (rotr 13 x)) (rotr 22 x).
Definition Sigma1 (x : Z) : Z := Z.lxor (Z.lxor (rotr 6 x) (rotr 11 x)) (rotr 25 x).
Definition sigma0 (x : Z) : Z := Z.lxor (Z.lxor (rotr 7 x) (rotr 18 x)) (shr 3 x).
Definition sigma1 (x : Z) : Z := Z.lxor (Z.lxor (rotr 17 x) (rotr 19 x)) (shr 10 x).

(** The round constants are the first 32 bits of the fractional parts of
    the cube roots of the first 64 primes, and the initial hash value the
    same of the square roots of the first 8 primes. *)
Definition is_prime (n : Z) : bool :=
  (1 <? n)
  && forallb (fun d => negb (n mod Z.of_nat d =? 0)) (seq 2 (Z.to_nat n - 2)).

Definition first_primes (k : nat) : list Z :=
  take k (filter (fun n => is_prime n = true) (map Z.of_nat (seq 2 400))).

(** The integer cube root, bit by bit from bit [bits - 1] down. *)
Fixpoint cube_root (bits : nat) (n r : Z) : Z :=
  match bits with
  | O => r
  | S bits' =>
      let r' := r + 2 ^ Z.of_nat bits' in
      cube_root bits' n (if r' * r' * r' <=? n then r' else r)
  end.

Definition K : list Z :=
  Eval vm_compute in
    map (fun p => wrap (cube_root 40 (p * 2 ^ 96) 0)) (first_primes 64).

Definition H0 : list Z :=
  Eval vm_compute in
    map (fun p => wrap (Z.sqrt (p * 2 ^ 64))) (first_primes 8).

(** Padding: a 1 bit, zeros, and the bit length on 64 bits, to a multiple
    of 64 bytes. *)
Definition be_bytes (n : nat) (x : Z) : list Z :=
  map (fun i => Z.shiftr x (8 * Z.of_nat i) mod 256) (rev (seq 0 n)).

Definition pad (msg : list Z) : list Z :=
  let len := Z.of_nat (length msg) in
  let zeros := Z.to_nat ((55 - len) mod 64) in
  msg ++ [0x80] ++ replicate zeros 0 ++ be_bytes 8 (8 * len).

Fixpoint words_of (n : nat) (bytes : list Z) : list Z :=
  match n, bytes with
  | S n', a :: b :: c :: d :: rest =>
      (((a * 256 + b) * 256 + c) * 256 + d) :: words_of n' rest
  | _, _ => []
  end.

(** The message schedule, latest word first: [extend k] adds [k] words. *)
Fixpoint extend (k : nat) (w : list Z) : list Z :=
  match k with
  | O => w
  | S k' =>
      let x := add (add (sigma1 (nth 1 w 0)) (nth 6 w 0))
                   (add (sigma0 (nth 14 w 0)) (nth 15 w 0)) in
      extend k' (x :: w)
  end.

Definition schedule (block : list Z) : list Z :=
  rev (extend 48 (rev (words_of 16 block))).

Definition round (s : list Z) (kw : Z * Z) : list Z :=
  match s with
  | [a; b; c; d; e; f; g; h] =>
      let t1 := add (add (add h (Sigma1 e)) (add (Ch e f g) (fst kw))) (snd kw) in
      let t2 := add (Sigma0 a) (Maj a b c) in
      [add t1 t2; a; b; c; add d t1; e; f; g]
  | _ => s
  end.

Definition compress (h : list Z) (block : list Z) : list Z :=
  let s := fold_left round (combine K (schedule block)) h in
  map (fun p => add (fst p) (snd p)) (combine h s).

Fixpoint blocks (n : nat) (bytes : list Z) : list (list Z) :=
  match n with
  | O => []
  | S n' =>
      match bytes with
      | [] => []
      | _ => take 64 bytes :: blocks n' (drop 64 bytes)
      end
  end.

(** The 32-byte digest of a byte string. *)
Definition digest (msg : list Z) : list Z :=
  let padded := pad msg in
  let h := fold_left compress (blocks (length padded) padded) H0 in
  concat (map (be_bytes 4) h).

End SHA256.

Module Hmac.

Definition block_size : nat := 64.

(** [hmac.new(key, msg, hashlib.sha256).digest()]. *)
Definition hmac_sha256 (key msg : list Z) : list Z :=
  let key := if (block_size <? length key)%nat then SHA256.digest key else key in
  let key := key ++ replicate (block_size - length key) 0 in
  let ipad := map (fun b => Z.lxor b 0x36) key in
  let opad := map (fun b => Z.lxor b 0x5c) key in
  SHA256.digest (opad ++ SHA256.digest (ipad ++ msg)).

(** Lower-case hexadecimal, as [hexdigest] prints it. *)
Definition hex_digit (n : Z) : ascii :=
  if n <? 10 then ascii_of_nat (Z.to_nat (48 + n))
  else ascii_of_nat (Z.to_nat (87 + n)).

Fixpoint hex (bytes : list Z) : string :=
  match bytes with
  | [] => ""
  | b :: rest => String (hex_digit (b / 16)) (String (hex_digit (b mod 16)) (hex rest))
  end.

(** [s.encode('utf-8')] for code points below 256. *)
Fixpoint encode_utf8 (s : string) : list Z :=
  match s with
  | EmptyString => []
  | String c s' =>
      let n := Z.of_nat (nat_of_ascii c) in
      if n <? 128 then n :: encode_utf8 s'
      else (192 + n / 64) :: (128 + n mod 64) :: encode_utf8 s'
  end.

(** [hmac.new(key.encode('utf-8'), msg=msg.encode('utf-8'),
    digestmod=hashlib.sha256).hexdigest()]. *)
Definition hexdigest (key msg : string) : string :=
  hex (hmac_sha256 (encode_utf8 key) (encode_utf8 msg)).

(** [hmac.compare_digest(a, b)] on two [str]: both must be ASCII-only,
    otherwise it raises; the comparison itself is an equality test whose
    running time does not depend on where the strings differ. *)
Definition compare_digest (a b : string) : Result bool :=
  if PyStr.isascii a && PyStr.isascii b then Ok (bool_decide (a = b))
  else Raise (TypeError
                "comparing strings with non-ASCII characters is not supported").

End Hmac.


(** ** webhook_handler/webhook_handler.py *)

Module WebhookHandler.

(** A Flask response: [jsonify(body), status]. *)
Record Response := mkResponse {
  body : Json.value;
  status : Z
}.

(** [data.get(k)]: only a dict has the method. *)
Definition dict_get (data : Json.value) (k : string) : Result Json.value :=
  match data with
  | Json.Dict items =>
      Ok (match Json.assoc k items with Some v => v | None => Json.Null end)
  | _ => Raise (AttributeError ("'" +:+ Json.type_name data
                                +:+ "' object has no attribute 'get'"))
  end.

Section Handler.
(** [os.getenv('WEBHOOK_SECRET', 'your_webhook_secret')]. *)
Variable WEBHOOK_SECRET : string.

Definition computed_signature (data : Json.value) : string :=
  Hmac.hexdigest WEBHOOK_SECRET (Json.dumps_canonical data).

Definition verify_signature (data : Json.value) (signature : string)
  : Result bool :=
  Hmac.compare_digest (computed_signature data) signature.

(** [handle_webhook]: [signature] is
    [request.headers.get('X-Webhook-Signature')], [None] when the header
    is missing; [data] is [request.get_json()]. A raised exception
    leaves the view; Flask answers it with status 500. *)
Definition handle_webhook (signature : option string) (data : Json.value)
  : M Response :=
  invalid <- lift (match signature with
                   | None => Ok true
                   | Some sig =>
                       if decide (sig = "") then Ok true
                       else ok <-- verify_signature data sig ;; Ok (negb ok)
                   end) ;;
  if (invalid : bool) then
    ret (mkResponse (Json.Dict [("error", Json.Str "Invalid signature")]) 400)
  else
    event_type <- lift (dict_get data "event") ;;
    resource_type <- lift (dict_get data "resource_type") ;;
    public_id <- lift (dict_get data "public_id") ;;
    logger_info ("Received event: " +:+ PyRepr.str event_type
                 +:+ " for resource: " +:+ PyRepr.str public_id) ;;;
    ret (mkResponse (Json.Dict [("status", Json.Str "success")]) 200).

End Handler.

Definition default_secret : string := "your_webhook_secret".

End WebhookHandler.

(** ** jewelry_processor.py *)

Module JewelryProcessor.

(** The module-level clients: what each call does for its arguments. *)
Record Services := mkServices {
  (** [s3.download_file(bucket, key, local_path)] *)
  s3_download_file : Json.value -> Json.value -> string -> exn + unit;
  (** [cloudinary.uploader.upload(local_path)] *)
  cloudinary_upload : string -> exn + Json.value;
  (** [table.put_item(Item=item)] *)
  table_put_item : Json.value -> exn + unit
}.

(** The dict the handler returns. *)
Record Response := mkResponse {
  statusCode : Z;
  body : string
}.

Section Handler.
Variable services : Services.

(** [event['Records'][0]['s3'][section][field]]. *)
Definition record_field (event : Json.value) (section field : string)
  : Result Json.value :=
  records <-- Json.getitem event "Records" ;;
  record <-- Json.getindex records 0 ;;
  s3 <-- Json.getitem record "s3" ;;
  sec <-- Json.getitem s3 section ;;
  Json.getitem sec field.

(** The [try] block. *)
Definition process (bucket key : Json.value) : Result Response :=
  let local_path := "/tmp/" +:+ PyRepr.str key in
  _ <-- call (s3_download_file services bucket key local_path) ;;
  result <-- call (cloudinary_upload services local_path) ;;
  secure_url <-- Json.getitem result "secure_url" ;;
  format <-- Json.getitem result "format" ;;
  size <-- Json.getitem result "bytes" ;;
  width <-- Json.getitem result "width" ;;
  height <-- Json.getitem result "height" ;;
  _ <-- call (table_put_item services
                (Json.Dict
                   [("imageId", key);
                    ("cloudinaryUrl", secure_url);
                    ("metadata",
                     Json.Dict
                       [("format", format);
                        ("size", size);
                        ("dimensions",
                         Json.Dict [("width", width); ("height", height)])])])) ;;
  secure_url <-- Json.getitem result "secure_url" ;;
  Ok {| statusCode := 200;
        body := Json.dumps
                  (Json.Dict
                     [("message", Json.Str "Image processed successfully");
                      ("imageUrl", secure_url)]) |}.

Definition error_response (e : exn) : Response :=
  {| statusCode := 500;
     body := Json.dumps (Json.Dict [("error", Json.Str (exn_str e))]) |}.

Definition handler (event context : Json.value) : Result Response :=
  bucket <-- record_field event "bucket" "name" ;;
  key <-- record_field event "object" "key" ;;
  match process bucket key with
  | Ok response => Ok response
  | Raise e => Ok (error_response e)
  | Blocked => Blocked
  end.

End Handler.

End JewelryProcessor.


(** ** cloudinary_mediaflow.py *)

Module JewelryMediaPipeline.

(** A call into the Cloudinary SDK as the source writes it: the function,
    its positional arguments and its keyword arguments. *)
Record Call := mkCall {
  function : string;
  args : list Json.value;
  kwargs : list (string * Json.value)
}.

(** What the pipeline acts on: the calls made to the SDK so far, oldest
    first, and the lines printed. *)
Record Account := mkAccount {
  calls : list Call;
  stdout : list string
}.

(** Code of the pipeline: a state transformer over the account. *)
Definition Run (A : Type) : Type := Account -> Result A * Account.

Definition done {A} (a : A) : Run A := fun s => (Ok a, s).

Definition and_then {A B} (m : Run A) (k : A -> Run B) : Run B :=
  fun s =>
    match m s with
    | (Ok a, s') => k a s'
    | (Raise e, s') => (Raise e, s')
    | (Blocked, s') => (Blocked, s')
    end.

Definition of_result {A} (r : Result A) : Run A := fun s => (r, s).

(** [try: m except Exception as e: h e]. *)
Definition guarded {A} (m : Run A) (h : exn -> Run A) : Run A :=
  fun s =>
    match m s with
    | (Raise e, s') => h e s'
    | other => other
    end.

Notation "x <~ m ;; k" := (and_then m (fun x => k))
  (at level 100, m at next level, right associativity).

(** [print(line)]. *)
Definition print (line : string) : Run unit :=
  fun s => (Ok tt, mkAccount (calls s) (stdout s ++ [line])).

Fixpoint for_each {A B} (l : list A) (body : A -> Run B) : Run (list B) :=
  match l with
  | [] => done []
  | x :: rest => y <~ body x ;; ys <~ for_each rest body ;; done (y :: ys)
  end.

(** [for x in v]: what iterating a JSON-shaped value yields. *)
Definition iterate (v : Json.value) : Result (list Json.value) :=
  match v with
  | Json.List l => Ok l
  | Json.Dict items => Ok (map (fun kv => Json.Str (fst kv)) items)
  | Json.Str s =>
      Ok (map (fun c => Json.Str (String c "")) (list_ascii_of_string s))
  | _ => Raise (TypeError ("'" +:+ Json.type_name v
                           +:+ "' object is not iterable"))
  end.

Section Pipeline.
(** The SDK behind the calls: what a call returns or raises, given the
    calls made before it. *)
Variable sdk : list Call -> Call -> exn + Json.value.
(** [cloudinary_url(public_id, transformation=t)]: the URL it builds (the
    first component of its result), or what it raises. It makes no
    request. *)
Variable cloudinary_url : Json.value -> Json.value -> exn + string.

Definition sdk_call (c : Call) : Run Json.value :=
  fun s => (call (sdk (calls s) c), mkAccount (calls s ++ [c]) (stdout s)).

Definition step (pairs : list (string * Json.value)) : Json.value :=
  Json.Dict pairs.

(** [self.presets]. *)
Definition presets : list (string * Json.value) :=
  [ ("thumbnail",
     Json.List
       [step [("width", Json.Int 300); ("height", Json.Int 300);
              ("crop", Json.Str "fill")];
        step [("quality", Json.Str "auto:best")];
        step [("fetch_format", Json.Str "auto")]]);
    ("detail",
     Json.List
       [step [("width", Json.Int 800); ("height", Json.Int 800);
              ("crop", Json.Str "fill")];
        step [("quality", Json.Str "auto:best")];
        step [("fetch_format", Json.Str "auto")];
        step [("effect", Json.Str "sharpen:100")]]);
    ("zoom",
     Json.List
       [step [("width", Json.Int 1200); ("height", Json.Int 1200);
              ("crop", Json.Str "fill")];
        step [("quality", Json.Str "auto:best")];
        step [("fetch_format", Json.Str "auto")];
        step [("effect", Json.Str "sharpen:200")]]);
    ("360",
     Json.List
       [step [("width", Json.Int 600); ("height", Json.Int 600);
              ("crop", Json.Str "fill")];
        step [("quality", Json.Str "auto:best")];
        step [("format", Json.Str "gif")];
        step [("effect", Json.Str "loop")]]) ].

Definition _get_transformation (preset : string) : Result Json.value :=
  match Json.assoc preset presets with
  | None => Raise (ValueError ("Unknown preset: " +:+ preset))
  | Some transformation => Ok transformation
  end.

Definition get_url (public_id : Json.value) (preset : string) : Result string :=
  transformation <-- _get_transformation preset ;;
  call (cloudinary_url public_id transformation).

(** The upload call of [upload_jewelry_image]. *)
Definition upload_call (image_path category style : string)
    (thumbnail detail zoom : Json.value) : Call :=
  mkCall "cloudinary.uploader.upload" [Json.Str image_path]
    [("folder", Json.Str ("jewelry/" +:+ category +:+ "/" +:+ style));
     ("resource_type", Json.Str "image");
     ("eager", Json.List [thumbnail; detail; zoom]);
     ("eager_async", Json.Bool true);
     ("tags", Json.List [Json.Str category; Json.Str style;
                         Json.Str "jewelry"]);
     ("background_removal", Json.Str "white");
     ("quality_analysis", Json.Bool true);
     ("transformation",
      Json.List [step [("effect", Json.Str "art:athena")];
                 step [("color", Json.Str "vibrancy:50")];
                 step [("effect", Json.Str "brightness:10")]])].

Definition upload_jewelry_image (image_path category style : string)
  : Run (option Json.value) :=
  guarded
    (thumbnail <~ of_result (_get_transformation "thumbnail") ;;
     detail <~ of_result (_get_transformation "detail") ;;
     zoom <~ of_result (_get_transformation "zoom") ;;
     response <~ sdk_call (upload_call image_path category style
                             thumbnail detail zoom) ;;
     of_result
       (public_id <-- Json.getitem response "public_id" ;;
        id1 <-- Json.getitem response "public_id" ;;
        thumbnail_url <-- get_url id1 "thumbnail" ;;
        id2 <-- Json.getitem response "public_id" ;;
        detail_url <-- get_url id2 "detail" ;;
        id3 <-- Json.getitem response "public_id" ;;
        zoom_url <-- get_url id3 "zoom" ;;
        metadata <-- Json.getitem response "metadata" ;;
        Ok (Some (Json.Dict
                    [("public_id", public_id);
                     ("urls",
                      Json.Dict [("thumbnail", Json.Str thumbnail_url);
                                 ("detail", Json.Str detail_url);
                                 ("zoom", Json.Str zoom_url)]);
                     ("metadata", metadata)]))))
    (fun e =>
       _ <~ print ("Error uploading image: " +:+ exn_str e) ;; done None).





Definition resources_call (folder : string) : Call :=
  mkCall "cloudinary.api.resources" []
    [("type", Json.Str "upload"); ("prefix", Json.Str folder);
     ("max_results", Json.Int 500)].

Definition update_call (public_id : Json.value) : Call :=
  mkCall "cloudinary.api.update" [public_id]
    [("quality_analysis", Json.Bool true);
     ("auto_tagging", Json.Float "0.6");
     ("categorization", Json.Str "aws_rek_tagging")].

(** One turn of the update loop. *)
Definition update_resource (resource : Json.value) : Run Json.value :=
  public_id <~ of_result (Json.getitem resource "public_id") ;;
  sdk_call (update_call public_id).

Definition optimize_existing_images (folder : string) : Run bool :=
  guarded
    (resources <~ sdk_call (resources_call folder) ;;
     listed <~ of_result (l <-- Json.getitem resources "resources" ;;
                          iterate l) ;;
     _ <~ for_each listed update_resource ;;
     done true)
    (fun e =>
       _ <~ print ("Error optimizing images: " +:+ exn_str e) ;; done false).

Definition text_call (text : string) : Call :=
  mkCall "cloudinary.uploader.text" [Json.Str text]
    [("font_family", Json.Str "Arial"); ("font_size", Json.Int 14);
     ("opacity", Json.Int 50)].

Definition create_watermark (text : string) : Run (option Json.value) :=
  guarded
    (response <~ sdk_call (text_call text) ;;
     public_id <~ of_result (Json.getitem response "public_id") ;;
     done (Some public_id))
    (fun e =>
       _ <~ print ("Error creating watermark: " +:+ exn_str e) ;; done None).

End Pipeline.

End JewelryMediaPipeline.
(* ================================================================== *)
(** * Part II: properties                                              *)
(* ================================================================== *)

(** Unfolds the monad and splits on what a call returned. *)
Ltac unfold_M :=
  unfold bind, try_except, ret, raise, lift, logger_error, logger_info in *.

Ltac case_result :=
  match goal with
  | |- context [match ?m ?w with (r, w') => _ end] =>
      let r := fresh "r" in
      let w' := fresh "w" in
      let E := fresh "E" in
      destruct (m w) as [r w'] eqn:E; try destruct r
  end.

(** ** The local image pipeline *)

Module DatasetFacts.
Import JewelryDatasetManager.

(** The number [random.randint(1000, 9999)] gives in world [w]. *)
Definition drawn (w : World) : Z :=
  1000 + Z.of_N (rng_tape w (rng_pos w)) mod 9000.

(** The image [process_single_image] saves: converted unless already RGB. *)
Definition normalized (img : PILImage) : PILImage :=
  if decide (im_mode img <> "RGB") then mkImage "RGB" (im_size img) true
  else img.

(** The file [p] can be opened for writing. *)
Definition writable (w : World) (p : Path.t) : bool :=
  match FS.lookup w p, FS.lookup w (Path.parent p) with
  | Some Dir, _ => false
  | _, Some Dir => true
  | _, _ => false
  end.

(** Both dimensions reach the configured minimum. *)
Definition large_enough (config : Config) (img : PILImage) : Prop :=
  min_image_size config <= fst (im_size img)
  /\ min_image_size config <= snd (im_size img).

(** Where the normalized file of [image_path] goes in world [w]. *)
Definition output_path_in (w : World) (image_path output_dir : Path.t) : Path.t :=
  output_dir // output_name_of image_path (drawn w).

(** The record of an accepted image. *)
Definition record_of (w : World) (image_path output_dir : Path.t)
    (img : PILImage) : ImageRecord :=
  {| original_path := Path.to_str image_path;
     processed_path := Path.to_str (output_path_in w image_path output_dir);
     category := Path.name (Path.parent image_path);
     dimensions := im_size img;
     s3_key := Path.name (Path.parent image_path) +:+ "/"
               +:+ output_name_of image_path (drawn w) |}.

(** The image is decodable: [Image.open] finds it and its pixels load. *)
Definition decodable (w : World) (image_path : Path.t) (img : PILImage) : Prop :=
  (exists format, FS.lookup w image_path = Some (File (ImageFile format img)))
  /\ im_data_ok img = true.

(** The upload of an accepted image cannot succeed. *)
Definition upload_fails (config : Config) (w : World) : Prop :=
  s3_online w = false \/ s3_buckets w !! aws_bucket config = None.


(** *** Uploading *)

Lemma upload_file_outcome filename bucket key w :
  (exists e, Boto3.upload_file filename bucket key w = (Raise e, w))
  \/ (exists w', Boto3.upload_file filename bucket key w = (Ok tt, w')
                 /\ fs w' = fs w /\ log w' = log w
                 /\ rng_tape w' = rng_tape w /\ rng_pos w' = rng_pos w).
Proof.
  unfold Boto3.upload_file.
  destruct (FS.lookup w (Path.of_str filename)) as [[|d]|]; eauto.
  destruct (s3_online w); eauto.
  destruct (s3_buckets w !! bucket); eauto.
  right. eexists. split; [reflexivity|]. auto.
Qed.

Lemma upload_file_fails config w filename key :
  upload_fails config w ->
  exists e, Boto3.upload_file filename (aws_bucket config) key w = (Raise e, w).
Proof.
  intros Hf. unfold Boto3.upload_file.
  destruct (FS.lookup w (Path.of_str filename)) as [[|d]|]; eauto.
  destruct Hf as [-> | ->]; eauto.
  destruct (s3_online w); eauto.
Qed.

(** [upload_to_s3] never raises: it returns, and leaves the file system
    and the random module as they were. *)
Lemma upload_to_s3_returns config file_path category filename w :
  exists w', upload_to_s3 config file_path category filename w = (Ok tt, w')
             /\ fs w' = fs w
             /\ rng_tape w' = rng_tape w /\ rng_pos w' = rng_pos w.
Proof.
  unfold upload_to_s3, try_except.
  destruct (upload_file_outcome (Path.to_str file_path) (aws_bucket config)
              (category +:+ "/" +:+ filename) w)
    as [[e ->] | (w' & -> & ? & ? & ? & ?)].
  - eexists. split; [reflexivity|]. auto.
  - eauto.
Qed.

(** When the upload fails, the failure is logged and nothing else
    changes. *)
Lemma upload_to_s3_failure config file_path category filename w :
  upload_fails config w ->
  exists e,
    upload_to_s3 config file_path category filename w
    = (Ok tt, set_log (log w ++ [(ERROR, "S3 upload error for "
                                         +:+ Path.to_str file_path +:+ ": "
                                         +:+ exn_str e)]) w).
Proof.
  intros Hf. unfold upload_to_s3, try_except.
  destruct (upload_file_fails config w (Path.to_str file_path)
              (category +:+ "/" +:+ filename) Hf) as [e ->].
  exists e. reflexivity.
Qed.

(** *** Writing a file *)

Lemma parent_joinpath (p : Path.t) (child : string) :
  Path.parent (p // child) = p.
Proof. unfold Path.parent, Path.joinpath. apply removelast_last. Qed.

Lemma name_joinpath (p : Path.t) (child : string) :
  Path.name (p // child) = child.
Proof. unfold Path.name, Path.joinpath. apply last_last. Qed.

Lemma joinpath_not_nil (p : Path.t) (child : string) : p // child <> [].
Proof. unfold Path.joinpath. destruct p; discriminate. Qed.

Lemma lookup_joinpath w (p : Path.t) (child : string) :
  FS.lookup w (p // child) = fs w !! (p // child).
Proof.
  unfold FS.lookup. destruct (p // child) eqn:E; [|reflexivity].
  exfalso. eapply joinpath_not_nil; eauto.
Qed.

Lemma write_file_outcome p d w :
  FS.write_file p d w
  = if writable w p then (Ok tt, set_fs (<[p := File d]> (fs w)) w)
    else (Raise match FS.lookup w p, FS.lookup w (Path.parent p) with
                | Some Dir, _ => FS.IsADirectoryError p
                | _, Some (File _) => FS.NotADirectoryError p
                | _, _ => FS.FileNotFoundError p
                end, w).
Proof.
  unfold FS.write_file, writable.
  destruct (FS.lookup w p) as [[|?]|];
    destruct (FS.lookup w (Path.parent p)) as [[|?]|]; reflexivity.
Qed.

(** *** One image *)

Lemma randint_1000_9999 w :
  randint 1000 9999 w = (Ok (drawn w), set_rng_pos (S (rng_pos w)) w).
Proof. reflexivity. Qed.


Lemma min_lt_false_iff (m a b : Z) :
  (Z.min a b <? m) = false <-> m <= a /\ m <= b.
Proof. rewrite Z.ltb_ge. lia. Qed.


(** The world after a caught failure of [process_single_image]. *)
Definition rejected (image_path : Path.t) (e : exn) (w : World) : World :=
  set_log (log w ++ [(ERROR, "Error processing " +:+ Path.to_str image_path
                             +:+ ": " +:+ exn_str e)]) w.

(** The world after the normalized file is written. *)
Definition saved (image_path output_dir : Path.t) (img : PILImage) (w : World)
  : World :=
  set_fs (<[output_path_in w image_path output_dir
            := File (ImageFile "JPEG" (normalized img))]> (fs w))
    (set_rng_pos (S (rng_pos w)) w).

Definition truncated : exn := OSError "OSError" "image file is truncated".

(** What [process_single_image] does, case by case. *)
Lemma process_single_image_eq config image_path output_dir w :
  process_single_image config image_path output_dir w =
  match PIL.Image_open image_path w with
  | (Ok img, _) =>
      if Z.min (fst (im_size img)) (snd (im_size img)) <? min_image_size config
      then (Ok None, w)
      else if im_data_ok img then
        let output_path := output_path_in w image_path output_dir in
        if writable w output_path then
          (Ok (Some (record_of w image_path output_dir img)),
           snd (upload_to_s3 config output_path
                  (Path.name (Path.parent image_path))
                  (output_name_of image_path (drawn w))
                  (saved image_path output_dir img w)))
        else
          (Ok None,
           rejected image_path
             match FS.lookup w output_path,
                   FS.lookup w (Path.parent output_path) with
             | Some Dir, _ => FS.IsADirectoryError output_path
             | _, Some (File _) => FS.NotADirectoryError output_path
             | _, _ => FS.FileNotFoundError output_path
             end (set_rng_pos (S (rng_pos w)) w))
      else
        (Ok None,
         rejected image_path truncated
           (if decide (im_mode img <> "RGB") then w
            else set_rng_pos (S (rng_pos w)) w))
  | (Raise e, _) => (Ok None, rejected image_path e w)
  | (Blocked, _) => (Blocked, w)
  end.
Proof.
  unfold process_single_image, try_except, bind at 1.
  unfold PIL.Image_open.
  destruct (FS.lookup w image_path) as [[|[]]|]; try reflexivity.
  destruct (_ <? _); [reflexivity|].
  unfold PIL.convert, PIL.save, PIL.load, saved, output_path_in.
  unfold normalized, bind, ret, raise.
  destruct (decide (im_mode img <> "RGB")).
  - destruct (im_data_ok img); [|reflexivity].
    rewrite randint_1000_9999. cbn [im_data_ok].
    rewrite write_file_outcome.
    change (writable (set_rng_pos (S (rng_pos w)) w)) with (writable w).
    destruct (writable w _) eqn:Hw; [|reflexivity].
    match goal with |- context [upload_to_s3 ?c ?a ?b ?d ?w] =>
      destruct (upload_to_s3_returns c a b d w) as (w2 & E & _) end.
    cbn [fs rng_pos set_rng_pos] in *.
    rewrite E. reflexivity.
  - rewrite randint_1000_9999.
    destruct (im_data_ok img); [|reflexivity].
    rewrite write_file_outcome.
    change (writable (set_rng_pos (S (rng_pos w)) w)) with (writable w).
    destruct (writable w _) eqn:Hw; [|reflexivity].
    match goal with |- context [upload_to_s3 ?c ?a ?b ?d ?w] =>
      destruct (upload_to_s3_returns c a b d w) as (w2 & E & _) end.
    cbn [fs rng_pos set_rng_pos] in *.
    rewrite E. reflexivity.
Qed.

Lemma Image_open_decodable w image_path img :
  decodable w image_path img -> PIL.Image_open image_path w = (Ok img, w).
Proof.
  intros [[format H] _]. unfold PIL.Image_open. rewrite H. reflexivity.
Qed.

(** On a decodable image there are three outcomes: too small, saved, or
    not writable. *)
Lemma process_single_image_decodable config image_path output_dir w img :
  decodable w image_path img ->
  process_single_image config image_path output_dir w =
  if Z.min (fst (im_size img)) (snd (im_size img)) <? min_image_size config
  then (Ok None, w)
  else
    let output_path := output_path_in w image_path output_dir in
    if writable w output_path then
      (Ok (Some (record_of w image_path output_dir img)),
       snd (upload_to_s3 config output_path
              (Path.name (Path.parent image_path))
              (output_name_of image_path (drawn w))
              (saved image_path output_dir img w)))
    else
      (Ok None,
       rejected image_path
         match FS.lookup w output_path,
               FS.lookup w (Path.parent output_path) with
         | Some Dir, _ => FS.IsADirectoryError output_path
         | _, Some (File _) => FS.NotADirectoryError output_path
         | _, _ => FS.FileNotFoundError output_path
         end (set_rng_pos (S (rng_pos w)) w)).
Proof.
  intros Hd. rewrite process_single_image_eq.
  rewrite (Image_open_decodable _ _ _ Hd).
  destruct Hd as [_ ->]. reflexivity.
Qed.

(** *** Example worlds *)

Definition ring_photo : PILImage := mkImage "RGBA" (600, 800) true.
Definition ring_path : Path.t := ["raw_data"; "rings"; "ring.jpg"].

(** A tree with one category holding one photo; nothing processed yet, and
    no output directory. *)
Definition fresh_world : World := {|
  fs := list_to_map
          [ (["raw_data"], Dir);
            (["raw_data"; "rings"], Dir);
            (ring_path, File (ImageFile "JPEG" ring_photo)) ];
  s3_buckets := {[ "jewelry-images-input-bucket" := ∅ ]};
  s3_online := true;
  log := [];
  rng_tape := fun _ => 5%N;
  rng_pos := 0
|}.

(** The same tree once the output directory of the category exists. *)
Definition ready_world : World :=
  set_fs (<[ ["processed_datasets"; "rings"] := Dir ]>
            (<[ ["processed_datasets"] := Dir ]> (fs fresh_world)))
    fresh_world.




(** *** Collecting the results of a category *)

(** A record a future holds is in the list the loop builds. *)
Lemma collect_results_In futures r :
  In (Ok (Some r)) futures ->
  forall w metadata w',
    collect_results futures w = (Ok metadata, w') -> In r metadata.
Proof.
  induction futures as [|fut rest IH]; intros Hin w metadata w' H; [inversion Hin|].
  cbn [collect_results] in H. unfold_M.
  destruct fut as [[r0|]|e|]; cbn in H;
    match type of H with
    | context [collect_results rest ?w0] =>
        destruct (collect_results rest w0) as [[tail| |] w1] eqn:E
    | _ => idtac
    end; try discriminate; injection H as <- <-.
  - destruct Hin as [[= ->]|Hin]; [left; reflexivity|].
    right. eapply IH; eauto.
  - destruct Hin as [?|Hin]; [discriminate|]. eapply IH; eauto.
  - destruct Hin as [?|Hin]; [discriminate|]. eapply IH; eauto.
Qed.

(** C9: for every accepted image whose upload to the object store fails,
    [upload_to_s3] catches and logs the failure, [process_single_image]
    still returns the full record, which the category's loop then puts in
    the metadata, and the normalized file stays in the output directory. *)
Theorem upload_failure_keeps_record_and_file
    config image_path output_dir w img :
  decodable w image_path img ->
  large_enough config img ->
  writable w (output_path_in w image_path output_dir) = true ->
  upload_fails config w ->
  let output_path := output_path_in w image_path output_dir in
  let record := record_of w image_path output_dir img in
  exists e,
    let message := "S3 upload error for " +:+ Path.to_str output_path
                   +:+ ": " +:+ exn_str e in
    let w' := set_log (log w ++ [(ERROR, message)])
                (saved image_path output_dir img w) in
    upload_to_s3 config output_path (Path.name (Path.parent image_path))
      (output_name_of image_path (drawn w)) (saved image_path output_dir img w)
    = (Ok tt, w')
    /\ process_single_image config image_path output_dir w
       = (Ok (Some record), w')
    /\ fs w' !! output_path = Some (File (ImageFile "JPEG" (normalized img)))
    /\ s3_buckets w' = s3_buckets w
    /\ (forall futures w0 metadata w1,
          In (Ok (Some record)) futures ->
          collect_results futures w0 = (Ok metadata, w1) ->
          In record metadata).
Proof.
  intros Hd [Hw Hh] Hwr Hup output_path record. subst output_path record.
  assert (Hup' : upload_fails config (saved image_path output_dir img w))
    by exact Hup.
  destruct (upload_to_s3_failure config
              (output_path_in w image_path output_dir)
              (Path.name (Path.parent image_path))
              (output_name_of image_path (drawn w)) _ Hup') as [e He].
  exists e. cbn zeta. split; [exact He|]. split; [|split; [|split]].
  - rewrite (process_single_image_decodable _ _ _ _ _ Hd).
    replace (Z.min _ _ <? min_image_size config) with false
      by (symmetry; apply min_lt_false_iff; tauto).
    cbn zeta. rewrite Hwr, He. reflexivity.
  - cbn. apply lookup_insert_eq.
  - reflexivity.
  - intros futures w0 metadata w1 Hin. eapply collect_results_In; eauto.
Qed.

(** A world whose object store cannot be reached. *)
Definition offline_world : World :=
  mkWorld (fs ready_world) (s3_buckets ready_world) false [] (fun _ => 5%N) 0.

(** The theorem at the photo of [offline_world]: the record is returned and
    the file [ring_1005.jpg] is in place. *)
Lemma upload_failure_keeps_record_and_file_witness :
  exists w',
    process_single_image default_config ring_path
      ["processed_datasets"; "rings"] offline_world
    = (Ok (Some (record_of offline_world ring_path
                   ["processed_datasets"; "rings"] ring_photo)), w')
    /\ fs w' !! ["processed_datasets"; "rings"; "ring_1005.jpg"]
       = Some (File (ImageFile "JPEG" (mkImage "RGB" (600, 800) true))).
Proof.
  destruct (upload_failure_keeps_record_and_file default_config ring_path
              ["processed_datasets"; "rings"] offline_world ring_photo)
    as (e & _ & H1 & H2 & _).
  - split; [exists "JPEG"|]; reflexivity.
  - unfold large_enough; cbn; lia.
  - vm_compute; reflexivity.
  - left; reflexivity.
  - eexists. split; [exact H1 | exact H2].
Defined.

(** *** Output names *)

Lemma pair_from_fst {A B} (p : A * B) (a : A) : fst p = a -> p = (a, snd p).
Proof. intros <-. destruct p; reflexivity. Qed.

(** What an accepted image tells about the world it was processed in. *)
Lemma process_single_image_Some config image_path output_dir w r w' :
  process_single_image config image_path output_dir w = (Ok (Some r), w') ->
  exists img,
    decodable w image_path img
    /\ large_enough config img
    /\ writable w (output_path_in w image_path output_dir) = true
    /\ r = record_of w image_path output_dir img
    /\ fs w' = <[output_path_in w image_path output_dir
                 := File (ImageFile "JPEG" (normalized img))]> (fs w).
Proof.
  rewrite process_single_image_eq. unfold PIL.Image_open.
  destruct (FS.lookup w image_path) as [[|[format img| | |]]|] eqn:Hl;
    try discriminate.
  destruct (Z.min _ _ <? min_image_size config) eqn:Hmin; [discriminate|].
  destruct (im_data_ok img) eqn:Hok; [|discriminate].
  cbn zeta. destruct (writable w _) eqn:Hw; [|discriminate].
  intros [= <- <-]. exists img.
  split; [split; eauto|]. split; [apply min_lt_false_iff; exact Hmin|].
  split; [reflexivity|]. split; [reflexivity|].
  match goal with |- context [upload_to_s3 ?c ?a ?b ?d ?w] =>
    destruct (upload_to_s3_returns c a b d w) as (w2 & E & Efs & _) end.
  rewrite E. cbn [snd]. rewrite Efs. reflexivity.
Qed.





(** *** The file system under the pipeline *)

Lemma string_app_length (s t : string) :
  String.length (s +:+ t) = (String.length s + String.length t)%nat.
Proof. induction s as [|a s IH]; simpl; [reflexivity | now f_equal]. Qed.

Lemma string_app_inj_l (s1 s2 t : string) : s1 +:+ t = s2 +:+ t -> s1 = s2.
Proof.
  revert s2. induction s1 as [|a s1 IH]; intros [|b s2] H.
  - reflexivity.
  - apply (f_equal String.length) in H.
    rewrite !string_app_length in H. simpl in H. lia.
  - apply (f_equal String.length) in H.
    rewrite !string_app_length in H. simpl in H. lia.
  - simpl in H. injection H as -> H. f_equal. apply IH, H.
Qed.

(** Distinct categories have distinct metadata files. *)
Lemma metadata_file_inj config category1 category2 :
  metadata_file config category1 = metadata_file config category2 ->
  category1 = category2.
Proof.
  unfold metadata_file, Path.joinpath. intros H.
  apply app_inv_head in H. injection H as H.
  eapply string_app_inj_l, H.
Qed.












(** The records of the futures that hold one. *)
Fixpoint accepted (futures : list (Result (option ImageRecord)))
  : list ImageRecord :=
  match futures with
  | [] => []
  | Ok (Some r) :: rest => r :: accepted rest
  | _ :: rest => accepted rest
  end.






Section Categories.
Variable config : Config.
Let output_base : Path.t := Path.of_str (output_dir config).





End Categories.






(** *** Further properties of the local pipeline *)


Lemma string_app_assoc (s1 s2 s3 : string) :
  (s1 +:+ s2) +:+ s3 = s1 +:+ (s2 +:+ s3).
Proof.
  induction s1 as [|a s1 IH]; [reflexivity|].
  change (String a ((s1 +:+ s2) +:+ s3) = String a (s1 +:+ (s2 +:+ s3))).
  rewrite IH. reflexivity.
Qed.

Lemma rfind_dot_jpg (s : string) :
  PyStr.rfind "." (s +:+ ".jpg") = Some (String.length s).
Proof.
  induction s as [|a s IH]; [reflexivity|].
  simpl. rewrite IH. reflexivity.
Qed.

Lemma length_substring_0 (n : nat) (s : string) :
  (n <= String.length s)%nat -> String.length (String.substring 0 n s) = n.
Proof.
  revert s. induction n as [|n IH]; intros s H.
  - destruct s; reflexivity.
  - destruct s as [|a s]; simpl in *; [lia|]. rewrite IH; lia.
Qed.

Lemma rfind_lt (c : ascii) (s : string) (i : nat) :
  PyStr.rfind c s = Some i -> (i < String.length s)%nat.
Proof.
  revert i. induction s as [|a s IH]; intros i; simpl; [discriminate|].
  destruct (PyStr.rfind c s) as [j|].
  - intros [= <-]. specialize (IH j eq_refl). lia.
  - destruct (decide (a = c)); [intros [= <-]; lia | discriminate].
Qed.

(** The output name is never the name of the input. *)
Lemma output_name_ne_name (image_path : Path.t) (n : Z) :
  output_name_of image_path n <> Path.name image_path.
Proof.
  unfold output_name_of, Path.stem. intros H.
  set (nm := Path.name image_path) in *.
  set (tail := "_" +:+ PyStr.of_int n) in *.
  assert (Hlen : forall stem,
             stem +:+ "_" +:+ PyStr.of_int n +:+ ".jpg" = nm ->
             String.length nm
             = (String.length stem + String.length tail + 4)%nat).
  { intros stem <-. subst tail. rewrite !string_app_length. simpl. lia. }
  assert (Htail : (1 <= String.length tail)%nat) by (subst tail; simpl; lia).
  destruct (PyStr.rfind "." nm) as [i|] eqn:Hr.
  - destruct ((0 <? i) && (i <? String.length nm - 1))%nat eqn:Hc.
    + pose proof (rfind_lt _ _ _ Hr) as Hi.
      specialize (Hlen _ H).
      rewrite length_substring_0 in Hlen by lia.
      assert (Hr' : PyStr.rfind "." nm
                    = Some (String.length (String.substring 0 i nm +:+ tail))).
      { rewrite <- H at 1. subst tail.
        rewrite <- rfind_dot_jpg. f_equal.
        rewrite !string_app_assoc. reflexivity. }
      rewrite Hr in Hr'. injection Hr' as Hr'.
      rewrite string_app_length, length_substring_0 in Hr' by lia. lia.
    + specialize (Hlen _ H). lia.
  - specialize (Hlen _ H). lia.
Qed.

Lemma joinpath_inj (p q : Path.t) (a b : string) :
  p // a = q // b -> p = q /\ a = b.
Proof. unfold Path.joinpath. intros H. apply app_inj_tail in H. exact H. Qed.

(** X2: an accepted image adds exactly one file, a JPEG of mode RGB with
    the dimensions of the original, directly inside the output directory;
    the record's path and dimensions are those of that file; and the file
    read is never the file written, so the original is left as it was,
    also when input and output directory are the same. *)
Theorem accepted_image_adds_one_rgb_jpeg
    config image_path output_dir w r w' :
  process_single_image config image_path output_dir w = (Ok (Some r), w') ->
  exists img output_path,
    decodable w image_path img
    /\ Path.parent output_path = output_dir
    /\ output_path <> image_path
    /\ processed_path r = Path.to_str output_path
    /\ dimensions r = im_size img
    /\ fs w' = <[output_path
                 := File (ImageFile "JPEG" (mkImage "RGB" (im_size img) true))]>
                 (fs w)
    /\ fs w' !! image_path = fs w !! image_path.
Proof.
  intros H.
  apply process_single_image_Some in H as (img & Hd & _ & _ & -> & Hfs).
  exists img, (output_path_in w image_path output_dir).
  assert (Hne : output_path_in w image_path output_dir <> image_path).
  { unfold output_path_in. intros E.
    destruct Hd as [[format Hl] _].
    destruct image_path as [|c rest] using rev_ind;
      [eapply joinpath_not_nil; eauto|].
    apply joinpath_inj in E as [_ E].
    apply (output_name_ne_name (rest ++ [c]) (drawn w)).
    rewrite E. unfold Path.name. rewrite last_last. reflexivity. }
  assert (Hn : normalized img = mkImage "RGB" (im_size img) true).
  { unfold normalized. destruct (decide (im_mode img <> "RGB")) as [|Hm];
      [reflexivity|].
    destruct Hd as [_ Hok]. destruct img as [mode size ok]. cbn in *.
    destruct (decide (mode = "RGB")) as [->|]; [|contradiction].
    rewrite Hok. reflexivity. }
  split; [exact Hd|]. split; [apply parent_joinpath|].
  split; [exact Hne|]. split; [reflexivity|]. split; [reflexivity|].
  rewrite Hfs, Hn. split; [reflexivity|].
  apply lookup_insert_ne. exact Hne.
Qed.

(** The theorem at the photo of [ready_world]. *)
Lemma accepted_image_adds_one_rgb_jpeg_witness :
  exists img output_path,
    decodable ready_world ring_path img
    /\ Path.parent output_path = ["processed_datasets"; "rings"]
    /\ output_path <> ring_path
    /\ fs (snd (process_single_image default_config ring_path
                  ["processed_datasets"; "rings"] ready_world)) !! ring_path
       = fs ready_world !! ring_path.
Proof.
  destruct (accepted_image_adds_one_rgb_jpeg default_config ring_path
              ["processed_datasets"; "rings"] ready_world
              (record_of ready_world ring_path ["processed_datasets"; "rings"]
                 ring_photo)
              (snd (process_single_image default_config ring_path
                      ["processed_datasets"; "rings"] ready_world)))
    as (img & output_path & H1 & H2 & H3 & _ & _ & _ & H4).
  - apply pair_from_fst. vm_compute. reflexivity.
  - exists img, output_path. auto.
Defined.





(** X5: [process_local_folders] has no handler of its own: when the input
    directory does not exist the call raises to its caller. Where the
    output directory can be made it is made first, so the error is the
    [FileNotFoundError] of the input directory and the output directory
    exists afterwards. *)
Theorem missing_input_directory_raises config base_dir w :
  FS.lookup w (Path.of_str base_dir) = None ->
  Path.of_str base_dir <> Path.of_str (output_dir config) ->
  (exists e w', process_local_folders config base_dir w = (Raise e, w'))
  /\ (FS.lookup w (Path.parent (Path.of_str (output_dir config))) = Some Dir ->
      FS.lookup w (Path.of_str (output_dir config)) = None ->
      exists w',
        process_local_folders config base_dir w
        = (Raise (FS.FileNotFoundError (Path.of_str base_dir)), w')
        /\ FS.is_dir w' (Path.of_str (output_dir config)) = true).
Proof.
  intros Hbase Hne. unfold process_local_folders.
  unfold bind at 1. unfold logger_info at 1. unfold bind at 1.
  set (w0 := set_log _ w).
  assert (Hbase0 : FS.lookup w0 (Path.of_str base_dir) = None) by exact Hbase.
  assert (Hbase1 : forall r w1, FS.mkdir (Path.of_str (output_dir config)) w0
                                = (r, w1) ->
                                FS.lookup w1 (Path.of_str base_dir) = None).
  { intros r w1. unfold FS.mkdir.
    destruct (FS.lookup w0 (Path.of_str (output_dir config))) as [[|?]|];
      try (intros [= <- <-]; exact Hbase0).
    destruct (FS.lookup w0 (Path.parent _)) as [[|?]|];
      intros [= <- <-]; try exact Hbase0.
    unfold FS.lookup in *. destruct (Path.of_str base_dir) as [|c rest];
      [discriminate|].
    cbn. rewrite lookup_insert_ne by congruence. exact Hbase0. }
  split.
  - destruct (FS.mkdir (Path.of_str (output_dir config)) w0)
      as [[[]|e|] w1] eqn:Emk.
    + unfold bind, FS.iterdir. rewrite (Hbase1 _ _ eq_refl). eauto.
    + eauto.
    + exfalso. revert Emk. unfold FS.mkdir.
      destruct (FS.lookup w0 (Path.of_str (output_dir config))) as [[|?]|];
        try discriminate.
      destruct (FS.lookup w0 (Path.parent _)) as [[|?]|]; discriminate.
  - intros Hparent Hout.
    assert (Hout0 : FS.lookup w0 (Path.of_str (output_dir config)) = None)
      by exact Hout.
    assert (Hparent0 : FS.lookup w0 (Path.parent (Path.of_str (output_dir config)))
                       = Some Dir) by exact Hparent.
    pose proof (Hbase1 (Ok tt)
                  (set_fs (<[Path.of_str (output_dir config) := Dir]> (fs w0)) w0))
      as Hb.
    unfold FS.mkdir in Hb. rewrite Hout0, Hparent0 in Hb.
    specialize (Hb eq_refl).
    unfold process_local_folders. unfold bind at 1.
    change (logger_info _ w) with (Ok tt, w0). cbv beta iota.
    unfold bind at 1. unfold FS.mkdir. rewrite Hout0, Hparent0. cbv beta iota.
    unfold bind, FS.iterdir. rewrite Hb.
    eexists. split; [reflexivity|].
    unfold FS.is_dir, FS.lookup. cbn.
    destruct (Path.of_str (output_dir config)); [reflexivity|].
    rewrite lookup_insert_eq. reflexivity.
Qed.

(** The theorem in an empty working directory. *)
Lemma missing_input_directory_raises_witness :
  exists e w',
    process_local_folders default_config "raw_data"
      (mkWorld ∅ ∅ true [] (fun _ => 0%N) 0) = (Raise e, w').
Proof.
  apply (missing_input_directory_raises default_config "raw_data"
           (mkWorld ∅ ∅ true [] (fun _ => 0%N) 0)).
  - vm_compute. reflexivity.
  - vm_compute. discriminate.
Defined.

(** X6: a record returned without anything logged has its object in the
    store: the bucket holds, under the record's [s3_key], the very file the
    record's [processed_path] names. *)
Theorem unlogged_record_is_in_the_store config image_path output_dir w r w' :
  process_single_image config image_path output_dir w = (Ok (Some r), w') ->
  log w' = log w ->
  exists objects d,
    s3_buckets w' !! aws_bucket config = Some objects
    /\ objects !! s3_key r = Some d
    /\ FS.lookup w' (Path.of_str (processed_path r)) = Some (File d).
Proof.
  rewrite process_single_image_eq. unfold PIL.Image_open.
  destruct (FS.lookup w image_path) as [[|[format img| | |]]|];
    try discriminate.
  destruct (Z.min _ _ <? min_image_size config); [discriminate|].
  destruct (im_data_ok img); [|discriminate].
  cbn zeta. destruct (writable w _); [|discriminate].
  intros [= <- <-]. unfold upload_to_s3, try_except, Boto3.upload_file.
  cbn [record_of processed_path s3_key].
  set (w1 := saved image_path output_dir img w).
  destruct (FS.lookup w1 (Path.of_str (Path.to_str _))) as [[|d]|] eqn:Hl;
    try (cbn; intros E; apply (f_equal length) in E;
         rewrite length_app in E; cbn in E; lia).
  destruct (s3_online w1);
    [|cbn; intros E; apply (f_equal length) in E;
      rewrite length_app in E; cbn in E; lia].
  destruct (s3_buckets w1 !! aws_bucket config) as [objects|];
    [|cbn; intros E; apply (f_equal length) in E;
      rewrite length_app in E; cbn in E; lia].
  intros _. cbn [snd s3_buckets set_s3].
  exists (<[Path.name (Path.parent image_path) +:+ "/"
            +:+ output_name_of image_path (drawn w) := d]> objects), d.
  split; [apply lookup_insert_eq|]. split; [apply lookup_insert_eq|].
  exact Hl.
Qed.

(** The theorem at the photo of [ready_world], whose bucket exists. *)
Lemma unlogged_record_is_in_the_store_witness :
  exists objects d,
    s3_buckets (snd (process_single_image default_config ring_path
                       ["processed_datasets"; "rings"] ready_world))
      !! "jewelry-images-input-bucket" = Some objects
    /\ objects !! "rings/ring_1005.jpg" = Some d.
Proof.
  destruct (unlogged_record_is_in_the_store default_config ring_path
              ["processed_datasets"; "rings"] ready_world
              (record_of ready_world ring_path ["processed_datasets"; "rings"]
                 ring_photo)
              (snd (process_single_image default_config ring_path
                      ["processed_datasets"; "rings"] ready_world)))
    as (objects & d & H1 & H2 & _).
  - apply pair_from_fst. vm_compute. reflexivity.
  - vm_compute. reflexivity.
  - exists objects, d. split; [exact H1 | exact H2].
Defined.
End DatasetFacts.

(** ** Calls that always come back *)

(** [m] never waits forever. *)
Definition unblocked {A} (m : M A) : Prop :=
  forall w, fst (m w) <> Blocked.

Create HintDb unblocked.

Lemma unblocked_ret {A} (a : A) : unblocked (ret a).
Proof. intros w. discriminate. Qed.

Lemma unblocked_raise {A} (e : exn) : unblocked (@raise A e).
Proof. intros w. discriminate. Qed.

Lemma unblocked_bind {A B} (m : M A) (k : A -> M B) :
  unblocked m -> (forall a, unblocked (k a)) -> unblocked (bind m k).
Proof.
  intros Hm Hk w. unfold bind. specialize (Hm w).
  destruct (m w) as [[a|e|] w']; cbn in *; [apply Hk | discriminate | congruence].
Qed.

Lemma unblocked_try_except {A} (m : M A) (h : exn -> M A) :
  unblocked m -> (forall e, unblocked (h e)) -> unblocked (try_except m h).
Proof.
  intros Hm Hh w. unfold try_except. specialize (Hm w).
  destruct (m w) as [[a|e|] w']; cbn in *; [discriminate | apply Hh | congruence].
Qed.

Lemma unblocked_logger_error msg : unblocked (logger_error msg).
Proof. intros w. discriminate. Qed.

Lemma unblocked_logger_info msg : unblocked (logger_info msg).
Proof. intros w. discriminate. Qed.

Lemma unblocked_uniform a b : unblocked (uniform a b).
Proof. intros w. discriminate. Qed.

Lemma unblocked_choice {A} (l : list A) : unblocked (choice l).
Proof.
  intros w. unfold choice. destruct l; [discriminate|].
  destruct (nth_error _ _); discriminate.
Qed.

Lemma unblocked_mkdir p : unblocked (FS.mkdir p).
Proof.
  intros w. unfold FS.mkdir.
  destruct (FS.lookup w p) as [[|?]|]; try discriminate.
  destruct (FS.lookup w (Path.parent p)) as [[|?]|]; discriminate.
Qed.

Lemma unblocked_write_file p d : unblocked (FS.write_file p d).
Proof.
  intros w. unfold FS.write_file.
  destruct (FS.lookup w p) as [[|?]|];
    destruct (FS.lookup w (Path.parent p)) as [[|?]|]; discriminate.
Qed.

Lemma unblocked_forM {A} (l : list A) (body : A -> M unit) :
  (forall a, unblocked (body a)) -> unblocked (forM l body).
Proof.
  intros Hb. induction l as [|a l IH]; cbn [forM].
  - apply unblocked_ret.
  - apply unblocked_bind; auto.
Qed.

#[export] Hint Resolve unblocked_ret unblocked_raise unblocked_bind
  unblocked_try_except unblocked_logger_error unblocked_logger_info
  unblocked_uniform unblocked_choice unblocked_mkdir unblocked_write_file
  unblocked_forM : unblocked.

(** A call that neither raises out nor waits returns. *)
Lemma try_except_returns {A} (m : M A) (h : exn -> M A) w :
  unblocked m ->
  (forall e w0, exists a w1, h e w0 = (Ok a, w1)) ->
  exists a w', try_except m h w = (Ok a, w').
Proof.
  intros Hm Hh. unfold try_except. specialize (Hm w).
  destruct (m w) as [[a|e|] w']; cbn in *; [eauto | apply Hh | congruence].
Qed.

(** ** The web scraper *)

Module ScraperFacts.
Import JewelryWebScraper.

Section WithScraper.
Variable config : Config.
Variable select_one : string -> string -> option Bs4.Tag.
Variable get_product_urls :
  Aiohttp.ClientSession -> string -> Result (option (list string)).

(** The request headers of a page fetch that presents [agent]. *)
Definition headers_of (agent : string) : list (string * string) :=
  [("User-Agent", agent)].

(** The user agent [scrape_product] picks in world [w]: the delay takes one
    draw, the choice the next. *)
Definition chosen_agent (w : World) : option string :=
  match user_agents config with
  | Some agents =>
      match agents with
      | [] => None
      | _ => nth_error agents
               (N.to_nat (rng_tape w (S (rng_pos w))) mod length agents)
      end
  | None => None
  end.

(** The page fetch returns HTTP 200 with body [html]. *)
Definition page_fetched (session : Aiohttp.ClientSession)
    (headers : list (string * string)) (url html : string) : Prop :=
  Aiohttp.get session url headers = Aiohttp.Response 200 html.

(** All three configured selectors match in [html]. *)
Definition selectors_match (html : string) (sels : Selectors)
    (image title price : Bs4.Tag) : Prop :=
  select_one html (sel_image sels) = Some image
  /\ select_one html (sel_title sels) = Some title
  /\ select_one html (sel_price sels) = Some price.

(** The image fetch succeeds: the element names its source and the GET for
    it returns HTTP 200 with body [data]. *)
Definition image_fetched (session : Aiohttp.ClientSession) (image : Bs4.Tag)
    (data : string) : Prop :=
  exists src,
    Bs4.attr "src" (Bs4.attrs image) = Some src
    /\ Aiohttp.get session src [] = Aiohttp.Response 200 data.

(** The record of a scraped product. *)
Definition record_for (url : string) (title price : Bs4.Tag) : ProductRecord :=
  {| url := url;
     title := PyStr.strip (Bs4.text title);
     price := PyStr.strip (Bs4.text price);
     image_filename := image_filename_of url |}.

(** Where the image of a product goes. *)
Definition image_path (url : string) : Path.t :=
  Path.of_str (output_dir config) // "images" // image_filename_of url.

(** The tasks of a batch that gave no record. *)
Fixpoint failed (results : list (Result (option ProductRecord))) : nat :=
  match results with
  | [] => 0
  | Ok (Some _) :: rest => failed rest
  | _ :: rest => S (failed rest)
  end.

(** *** One product *)

Lemma download_image_eq session image_url w :
  download_image session image_url w =
  match Aiohttp.get session image_url [] with
  | Aiohttp.Failed e =>
      (Ok None,
       set_log (log w ++ [(ERROR, "Error downloading image " +:+ image_url
                                  +:+ ": " +:+ exn_str e)]) w)
  | Aiohttp.Response status body =>
      (Ok (if status =? 200 then Some body else None), w)
  end.
Proof.
  unfold download_image, try_except.
  destruct (Aiohttp.get session image_url []) as [e|status body];
    [reflexivity|].
  destruct (status =? 200); reflexivity.
Qed.

Lemma unblocked_download_image session image_url :
  unblocked (download_image session image_url).
Proof.
  intros w. rewrite download_image_eq.
  destruct (Aiohttp.get session image_url []); discriminate.
Qed.

Lemma unblocked_save_image data filename :
  unblocked (save_image config data filename).
Proof. unfold save_image, FS.makedirs. auto 10 with unblocked. Qed.

Lemma unblocked_getitem t k : unblocked (Bs4.getitem t k).
Proof.
  unfold Bs4.getitem. destruct t as [tag|]; [|auto with unblocked].
  destruct (Bs4.attr k (Bs4.attrs tag)); auto with unblocked.
Qed.

Lemma unblocked_get_text t : unblocked (Bs4.get_text t).
Proof. unfold Bs4.get_text. destruct t; auto with unblocked. Qed.

Lemma unblocked_config_user_agents : unblocked (config_user_agents config).
Proof.
  unfold config_user_agents. destruct (user_agents config); auto with unblocked.
Qed.

Hint Resolve unblocked_download_image unblocked_save_image unblocked_getitem
  unblocked_get_text unblocked_config_user_agents : unblocked.

(** With a permit to take, [scrape_product] returns: a record or [None]. It
    never raises. Without any permit it waits forever. *)
Lemma scrape_product_returns session url sels semaphore w :
  semaphore <> 0 ->
  exists o w',
    scrape_product config select_one session url sels semaphore w = (Ok o, w').
Proof.
  intros Hs. unfold scrape_product, async_with.
  apply Z.eqb_neq in Hs. rewrite Hs.
  apply try_except_returns.
  - apply unblocked_bind; [auto with unblocked|intros _].
    apply unblocked_bind; [auto with unblocked|intros agents].
    apply unblocked_bind; [auto with unblocked|intros agent].
    destruct (Aiohttp.get session url _) as [e|status html];
      [auto with unblocked|].
    destruct (status =? 200); [|auto with unblocked].
    apply unblocked_bind; [auto with unblocked|intros image_url].
    apply unblocked_bind; [auto with unblocked|intros title].
    apply unblocked_bind; [auto with unblocked|intros price].
    apply unblocked_bind; [auto with unblocked|intros image_data].
    destruct image_data as [data|]; [|auto with unblocked].
    destruct (decide (data <> "")); auto 10 with unblocked.
  - intros e w0. unfold_M. eauto.
Qed.

Lemma scrape_product_blocked session url sels w :
  scrape_product config select_one session url sels 0 w = (Blocked, w).
Proof. reflexivity. Qed.

(** The world after the two draws of [scrape_product]. *)
Definition after_draws (w : World) : World :=
  set_rng_pos (S (S (rng_pos w))) w.

(** What a returned record tells: the page was fetched with status 200, the
    three selectors matched, the image was fetched and was not empty, and
    the image file was written. *)
Lemma scrape_product_Some session url sels semaphore w r w' :
  scrape_product config select_one session url sels semaphore w
  = (Ok (Some r), w') ->
  semaphore <> 0
  /\ exists agent html image title price data,
      chosen_agent w = Some agent
      /\ page_fetched session (headers_of agent) url html
      /\ selectors_match html sels image title price
      /\ image_fetched session image data
      /\ data <> ""
      /\ save_image config data (image_filename_of url) (after_draws w)
         = (Ok tt, w')
      /\ r = record_for url title price.
Proof.
  unfold scrape_product, async_with.
  destruct (semaphore =? 0) eqn:Hs; [discriminate|].
  apply Z.eqb_neq in Hs. intros H. split; [exact Hs|].
  unfold try_except in H. unfold bind at 1 in H. unfold uniform at 1 in H.
  unfold bind at 1 in H. unfold config_user_agents, chosen_agent in *.
  destruct (user_agents config) as [agents|]; [|discriminate].
  unfold ret at 1 in H. unfold bind at 1 in H. unfold choice in H.
  destruct agents as [|a0 agents]; [discriminate|].
  cbn [rng_tape rng_pos set_rng_pos] in H.
  destruct (nth_error (a0 :: agents) _) as [agent|] eqn:Hagent; [|discriminate].
  unfold page_fetched, headers_of.
  destruct (Aiohttp.get session url [("User-Agent", agent)])
    as [e|status html] eqn:Hget; [discriminate|].
  destruct (status =? 200) eqn:Hst; [|discriminate].
  apply Z.eqb_eq in Hst. subst status.
  unfold bind at 1 in H. unfold Bs4.getitem in H.
  destruct (select_one html (sel_image sels)) as [image|] eqn:Himg;
    [|discriminate].
  destruct (Bs4.attr "src" (Bs4.attrs image)) as [src|] eqn:Hsrc;
    [|discriminate].
  unfold ret at 1 in H. unfold bind at 1 in H. unfold Bs4.get_text at 1 in H.
  destruct (select_one html (sel_title sels)) as [title|] eqn:Htitle;
    [|discriminate].
  unfold ret at 1 in H. unfold bind at 1 in H. unfold Bs4.get_text at 1 in H.
  destruct (select_one html (sel_price sels)) as [price|] eqn:Hprice;
    [|discriminate].
  unfold ret at 1 in H. unfold bind at 1 in H.
  rewrite download_image_eq in H.
  destruct (Aiohttp.get session src []) as [e|status data] eqn:Hdl;
    [discriminate|].
  destruct (status =? 200) eqn:Hst; [|discriminate].
  apply Z.eqb_eq in Hst. subst status.
  destruct (decide (data <> "")) as [Hne|]; [|discriminate].
  unfold bind at 1 in H.
  change (set_rng_pos (S (S (rng_pos w))) (set_rng_pos (S (rng_pos w)) w))
    with (after_draws w) in H.
  destruct (save_image config data (image_filename_of url) (after_draws w))
    as [[[]|e|] w3] eqn:Hsave; try discriminate.
  unfold ret in H. injection H as <- <-.
  exists agent, html, image, title, price, data.
  repeat split; auto. exists src. auto.
Qed.

(** The other way round: under these conditions the record is returned. *)
Lemma scrape_product_accepts session url sels semaphore w
    agent html image title price data w' :
  semaphore <> 0 ->
  chosen_agent w = Some agent ->
  page_fetched session (headers_of agent) url html ->
  selectors_match html sels image title price ->
  image_fetched session image data ->
  data <> "" ->
  save_image config data (image_filename_of url) (after_draws w) = (Ok tt, w') ->
  scrape_product config select_one session url sels semaphore w
  = (Ok (Some (record_for url title price)), w').
Proof.
  intros Hs Hagent Hpage (Himg & Htitle & Hprice) (src & Hsrc & Hdl) Hne Hsave.
  unfold scrape_product, async_with.
  apply Z.eqb_neq in Hs. rewrite Hs.
  unfold try_except. unfold bind at 1. unfold uniform at 1.
  unfold bind at 1. unfold config_user_agents, chosen_agent in *.
  destruct (user_agents config) as [agents|]; [|discriminate].
  unfold ret at 1. unfold bind at 1. unfold choice.
  destruct agents as [|a0 agents]; [discriminate|].
  cbn [rng_tape rng_pos set_rng_pos]. rewrite Hagent.
  unfold page_fetched, headers_of in Hpage. rewrite Hpage.
  cbn [Z.eqb Pos.eqb]. unfold bind at 1. unfold Bs4.getitem.
  rewrite Himg, Hsrc. unfold ret at 1. unfold bind at 1.
  unfold Bs4.get_text at 1. rewrite Htitle. unfold ret at 1.
  unfold bind at 1. unfold Bs4.get_text at 1. rewrite Hprice.
  unfold ret at 1. unfold bind at 1. rewrite download_image_eq, Hdl.
  cbn [Z.eqb Pos.eqb].
  destruct (decide (data <> "")); [|contradiction].
  unfold bind at 1.
  change (set_rng_pos (S (S (rng_pos w))) (set_rng_pos (S (rng_pos w)) w))
    with (after_draws w).
  rewrite Hsave. reflexivity.
Qed.

(** *** One site *)

Lemma valid_plus_failed results :
  (length (valid_results_of results) + failed results = length results)%nat.
Proof.
  induction results as [|[[r|]|e|] rest IH]; cbn; lia.
Qed.

(** With a permit to take, every task of the batch comes back, and the
    records kept are the batch less the tasks that gave none. *)
Lemma gather_batch session sels semaphore urls w :
  semaphore <> 0 ->
  exists results w',
    gather (map (fun url =>
                   scrape_product config select_one session url sels semaphore)
              urls) w = (Ok results, w')
    /\ length results = length urls
    /\ (length (valid_results_of results)
        = length urls - failed results)%nat.
Proof.
  intros Hs. revert w. induction urls as [|url rest IH]; intros w.
  - exists [], w. repeat split.
  - cbn [map gather].
    destruct (scrape_product_returns session url sels semaphore w Hs)
      as (o & w1 & ->).
    destruct (IH w1) as (results & w' & E & Hlen & Hvalid).
    unfold bind. rewrite E. unfold ret.
    exists (Ok o :: results), w'. split; [reflexivity|].
    split; [cbn; now rewrite Hlen|].
    pose proof (valid_plus_failed (Ok o :: results)) as Hsum.
    cbn [length] in *. lia.
Qed.

Lemma json_path_ne_csv_path : json_path config <> csv_path config.
Proof.
  unfold json_path, csv_path, Path.joinpath. intros H.
  apply app_inv_head in H. discriminate.
Qed.

(** The artifacts of a site that was persisted. *)
Lemma save_scrape_results_Ok site_url results w w' :
  save_scrape_results config site_url results w = (Ok tt, w') ->
  fs w' !! json_path config = Some (File (TextFile (results_json results)))
  /\ fs w' !! csv_path config = Some (File (results_csv results)).
Proof.
  unfold save_scrape_results. unfold bind at 1.
  destruct (FS.mkdir _ w) as [[[]| |] w1]; try discriminate.
  unfold bind. rewrite !DatasetFacts.write_file_outcome.
  destruct (DatasetFacts.writable w1 (json_path config)); [|discriminate].
  rewrite DatasetFacts.write_file_outcome.
  match goal with |- context [DatasetFacts.writable ?w0 (csv_path config)] =>
    destruct (DatasetFacts.writable w0 (csv_path config)) end; [|discriminate].
  intros [= <-]. cbn. split.
  - rewrite lookup_insert_ne by (apply not_eq_sym, json_path_ne_csv_path).
    apply lookup_insert_eq.
  - apply lookup_insert_eq.
Qed.

(** The world after [scrape_site] caught [e]. *)
Definition site_failed (site : Site) (e : exn) (w : World) : World :=
  set_log (log w ++ [(ERROR, "Error scraping site " +:+ site_url site
                             +:+ ": " +:+ exn_str e)]) w.

(** A site whose discovery raises: the exception is caught and logged, and
    nothing else happens. *)
Lemma scrape_site_discovery_raises session site e w :
  get_product_urls session (site_url site) = Raise e ->
  scrape_site config select_one get_product_urls session site w
  = (Ok tt, site_failed site e w).
Proof.
  intros H. unfold scrape_site, try_except, bind, lift. rewrite H. reflexivity.
Qed.

(** A site whose discovery gives [urls]: the batch runs and its records are
    persisted, or the failure to persist them is caught and logged. *)
Lemma scrape_site_discovered session site urls w :
  get_product_urls session (site_url site) = Ok (Some urls) ->
  0 < concurrent_requests config ->
  exists results w1,
    gather (map (fun url =>
                   scrape_product config select_one session url
                     (selectors site) (concurrent_requests config)) urls) w
    = (Ok results, w1)
    /\ length results = length urls
    /\ (length (valid_results_of results) = length urls - failed results)%nat
    /\ scrape_site config select_one get_product_urls session site w
       = match save_scrape_results config (site_url site)
                 (valid_results_of results) w1 with
         | (Raise e, w2) => (Ok tt, site_failed site e w2)
         | other => other
         end.
Proof.
  intros Hd Hc.
  destruct (gather_batch session (selectors site) (concurrent_requests config)
              urls w) as (results & w1 & E & Hlen & Hvalid); [lia|].
  exists results, w1. split; [exact E|]. split; [exact Hlen|].
  split; [exact Hvalid|].
  unfold scrape_site, try_except. unfold bind at 1. unfold lift. rewrite Hd.
  unfold bind at 1. unfold Semaphore.
  replace (concurrent_requests config <? 0) with false
    by (symmetry; apply Z.ltb_ge; lia).
  unfold ret at 1. unfold bind at 1. unfold iterate, ret at 1.
  unfold bind at 1. rewrite E.
  destruct (save_scrape_results config (site_url site)
              (valid_results_of results) w1) as [[[]|e|] w2]; reflexivity.
Qed.

(** [scrape_site] never raises. *)
Lemma scrape_site_no_raise session site w e w' :
  scrape_site config select_one get_product_urls session site w <> (Raise e, w').
Proof.
  unfold scrape_site, try_except.
  match goal with |- context [match ?m w with _ => _ end] =>
    destruct (m w) as [[[]|e0|] w0] end; discriminate.
Qed.

(** *** All sites *)

(** One turn of the loop of [start_scraping]. *)
Definition site_turn (session : Aiohttp.ClientSession) (site : Site) : M unit :=
  logger_info ("Scraping site: " +:+ site_url site) ;;;
  scrape_site config select_one get_product_urls session site.

Lemma start_scraping_eq session :
  start_scraping config select_one get_product_urls session
  = forM (target_sites config) (site_turn session).
Proof. reflexivity. Qed.

Lemma forM_app {A} (l1 l2 : list A) (body : A -> M unit) w :
  forM (l1 ++ l2) body w
  = match forM l1 body w with
    | (Ok tt, w1) => forM l2 body w1
    | other => other
    end.
Proof.
  revert w. induction l1 as [|a l1 IH]; intros w; [reflexivity|].
  cbn [app forM]. unfold bind.
  destruct (body a w) as [[[]|e|] w1]; [apply IH | reflexivity | reflexivity].
Qed.

Lemma save_image_Ok data filename w w' :
  save_image config data filename w = (Ok tt, w') ->
  fs w' !! (Path.of_str (output_dir config) // "images" // filename)
  = Some (File (BytesFile data)).
Proof.
  unfold save_image. unfold bind at 1.
  destruct (FS.makedirs _ w) as [[[]| |] w1]; try discriminate.
  rewrite DatasetFacts.write_file_outcome.
  destruct (DatasetFacts.writable w1 _); [|discriminate].
  intros [= <-]. cbn. apply lookup_insert_eq.
Qed.

(** C2 (amended): [scrape_product] returns a ProductRecord only if the page
    fetch returns HTTP 200, all three configured selectors match and the
    image fetch succeeds with a body that is not empty, and then it is the
    record of the URL with the stripped title and price and the image file
    name, and the image is on disk. Conversely, when a user agent can be
    chosen, these conditions hold and the image file can be written, it
    returns that record. With a permit to take it always returns, a record
    or none, and never raises. For a batch of N discovered URLs of which k
    tasks give no record, the aggregated result set holds exactly N - k
    records, and they are what the site's JSON artifact holds once
    persisted. *)
Theorem record_only_if_fetched_matched_downloaded session :
  (forall url sels semaphore w r w',
      scrape_product config select_one session url sels semaphore w
      = (Ok (Some r), w') ->
      exists agent html image title price data,
        page_fetched session (headers_of agent) url html
        /\ selectors_match html sels image title price
        /\ image_fetched session image data
        /\ data <> ""
        /\ r = record_for url title price
        /\ fs w' !! image_path url = Some (File (BytesFile data)))
  /\ (forall url sels semaphore w agent html image title price data w',
        semaphore <> 0 ->
        chosen_agent w = Some agent ->
        page_fetched session (headers_of agent) url html ->
        selectors_match html sels image title price ->
        image_fetched session image data ->
        data <> "" ->
        save_image config data (image_filename_of url) (after_draws w)
        = (Ok tt, w') ->
        scrape_product config select_one session url sels semaphore w
        = (Ok (Some (record_for url title price)), w'))
  /\ (forall url sels semaphore w,
        semaphore <> 0 ->
        exists o w',
          scrape_product config select_one session url sels semaphore w
          = (Ok o, w'))
  /\ (forall site urls w,
        get_product_urls session (site_url site) = Ok (Some urls) ->
        0 < concurrent_requests config ->
        exists results w1,
          gather (map (fun url =>
                         scrape_product config select_one session url
                           (selectors site) (concurrent_requests config))
                    urls) w = (Ok results, w1)
          /\ length results = length urls
          /\ (length (valid_results_of results)
              = length urls - failed results)%nat
          /\ forall w2,
              save_scrape_results config (site_url site)
                (valid_results_of results) w1 = (Ok tt, w2) ->
              scrape_site config select_one get_product_urls session site w
              = (Ok tt, w2)
              /\ fs w2 !! json_path config
                 = Some (File (TextFile
                                 (results_json (valid_results_of results))))).
Proof.
  split; [|split; [|split]].
  - intros url sels semaphore w r w' H.
    apply scrape_product_Some in H
      as (_ & agent & html & image & title & price & data
          & _ & Hp & Hm & Hi & Hne & Hsave & ->).
    exists agent, html, image, title, price, data.
    repeat (split; [assumption|]). split; [reflexivity|].
    eapply save_image_Ok, Hsave.
  - intros. eapply scrape_product_accepts; eauto.
  - intros. apply scrape_product_returns; assumption.
  - intros site urls w Hd Hc.
    destruct (scrape_site_discovered session site urls w Hd Hc)
      as (results & w1 & E & Hlen & Hvalid & Hsite).
    exists results, w1. repeat (split; [assumption|]).
    intros w2 Hsave. rewrite Hsite, Hsave. split; [reflexivity|].
    eapply save_scrape_results_Ok, Hsave.
Qed.

(** C6: when discovering the product URLs of a configured site raises, the
    exception is caught and logged inside [scrape_site], the site's run
    writes nothing (the file system is as it was when its turn came), and
    the loop of [start_scraping] goes on with every site configured after
    it. *)
Theorem failed_discovery_skips_only_that_site
    session sites_before site sites_after e w w1 :
  target_sites config = sites_before ++ site :: sites_after ->
  get_product_urls session (site_url site) = Raise e ->
  forM sites_before (site_turn session) w = (Ok tt, w1) ->
  let w1' := set_log (log w1 ++ [(INFO, "Scraping site: " +:+ site_url site)])
               w1 in
  let w2 := site_failed site e w1' in
  scrape_site config select_one get_product_urls session site w1' = (Ok tt, w2)
  /\ fs w2 = fs w1
  /\ start_scraping config select_one get_product_urls session w
     = forM sites_after (site_turn session) w2.
Proof.
  intros Hsites Hraise Hbefore w1' w2. subst w1' w2.
  split; [apply scrape_site_discovery_raises, Hraise|].
  split; [reflexivity|].
  rewrite start_scraping_eq, Hsites, forM_app, Hbefore.
  cbn [forM]. unfold bind at 1. unfold site_turn at 1.
  unfold bind at 1, logger_info at 1.
  rewrite (scrape_site_discovery_raises _ _ _ _ Hraise). reflexivity.
Qed.

(** *** Pages that cannot be had *)

Ltac start_scrape Hs Hagent :=
  unfold scrape_product, async_with; rewrite Hs;
  unfold try_except; unfold bind at 1; unfold uniform at 1;
  unfold bind at 1; unfold config_user_agents, chosen_agent in *;
  destruct (user_agents config) as [agents|]; [|discriminate];
  unfold ret at 1; unfold bind at 1; unfold choice;
  destruct agents as [|a0 agents]; [discriminate|];
  cbn [rng_tape rng_pos set_rng_pos]; rewrite Hagent.

(** X7: a page that cannot be had gives no record and leaves the file
    system alone. A status other than 200 leaves no trace in the log; a
    failed connection leaves the one line of the handler. *)
Theorem page_not_had_gives_no_record session url sels semaphore w agent :
  semaphore <> 0 ->
  chosen_agent w = Some agent ->
  (forall status html,
      Aiohttp.get session url (headers_of agent)
      = Aiohttp.Response status html ->
      status <> 200 ->
      exists w',
        scrape_product config select_one session url sels semaphore w
        = (Ok None, w')
        /\ fs w' = fs w /\ log w' = log w)
  /\ (forall e,
        Aiohttp.get session url (headers_of agent) = Aiohttp.Failed e ->
        exists w',
          scrape_product config select_one session url sels semaphore w
          = (Ok None, w')
          /\ fs w' = fs w
          /\ log w' = log w ++ [(ERROR, "Error scraping " +:+ url +:+ ": "
                                        +:+ exn_str e)]).
Proof.
  intros Hs Hagent. apply Z.eqb_neq in Hs. unfold headers_of. split.
  - intros status html Hget Hne. apply Z.eqb_neq in Hne.
    exists (after_draws w). start_scrape Hs Hagent.
    rewrite Hget, Hne. repeat split; reflexivity.
  - intros e Hget. eexists. start_scrape Hs Hagent.
    rewrite Hget. unfold_M. repeat split; reflexivity.
Qed.

(** X8: without a [user_agents] entry in the configuration, as in the
    defaults of [__init__], no product is ever scraped: every task ends in
    the handler with the [KeyError], gives no record and writes nothing. *)
Theorem without_user_agents_no_record session url sels semaphore w :
  user_agents config = None ->
  semaphore <> 0 ->
  exists w',
    scrape_product config select_one session url sels semaphore w
    = (Ok None, w')
    /\ fs w' = fs w
    /\ log w' = log w ++ [(ERROR, "Error scraping " +:+ url
                                  +:+ ": 'user_agents'")].
Proof.
  intros Hua Hs. apply Z.eqb_neq in Hs. eexists.
  unfold scrape_product, async_with. rewrite Hs.
  unfold try_except. unfold bind at 1. unfold uniform at 1.
  unfold bind at 1. unfold config_user_agents. rewrite Hua.
  unfold_M. split; [reflexivity|]. split; reflexivity.
Qed.

(** *** Discovery that gives nothing to iterate *)

(** What [scrape_site] does when the semaphore cannot be made or the
    discovered value is not a list. *)
Lemma scrape_site_not_iterable session site w :
  get_product_urls session (site_url site) = Ok None ->
  exists e,
    scrape_site config select_one get_product_urls session site w
    = (Ok tt, site_failed site e w).
Proof.
  intros Hd. unfold scrape_site, try_except. unfold bind at 1.
  unfold lift. rewrite Hd. unfold bind at 1. unfold Semaphore.
  destruct (concurrent_requests config <? 0); eexists; reflexivity.
Qed.

(** X9: with the class's own [get_product_urls], a stub that returns
    [None], a whole run writes nothing: each configured site logs that it is
    being scraped and then the error of its turn, and the call returns. *)
Theorem stub_discovery_writes_nothing session w :
  (forall base_url, get_product_urls session base_url = Ok None) ->
  exists w',
    start_scraping config select_one get_product_urls session w = (Ok tt, w')
    /\ fs w' = fs w
    /\ length (log w') = (length (log w) + 2 * length (target_sites config))%nat.
Proof.
  intros Hstub. rewrite start_scraping_eq.
  generalize (target_sites config). intros sites. revert w.
  induction sites as [|site sites IH]; intros w.
  - exists w. cbn. split; [reflexivity|]. split; [reflexivity|lia].
  - cbn [forM]. unfold bind at 1. unfold site_turn at 1.
    unfold bind at 1. unfold logger_info at 1.
    destruct (scrape_site_not_iterable session site
                (set_log (log w ++ [(INFO, "Scraping site: " +:+ site_url site)])
                   w) (Hstub _)) as (e & ->).
    destruct (IH (site_failed site e
                    (set_log (log w ++ [(INFO, "Scraping site: "
                                               +:+ site_url site)]) w)))
      as (w' & -> & Hfs & Hlog).
    exists w'. split; [reflexivity|]. split; [exact Hfs|].
    rewrite Hlog. cbn. rewrite !length_app. cbn. lia.
Qed.

(** X10: a negative [concurrent_requests] stops a site before any product
    is scraped: [asyncio.Semaphore] raises, the handler logs it, and the
    site's turn ends with nothing fetched and nothing written. *)
Theorem negative_cap_scrapes_nothing session site product_urls w :
  concurrent_requests config < 0 ->
  get_product_urls session (site_url site) = Ok product_urls ->
  scrape_site config select_one get_product_urls session site w
  = (Ok tt,
     site_failed site (ValueError "Semaphore initial value must be >= 0") w).
Proof.
  intros Hc Hd. apply Z.ltb_lt in Hc.
  unfold scrape_site, try_except. unfold bind at 1.
  unfold lift. rewrite Hd. unfold bind at 1. unfold Semaphore. rewrite Hc.
  reflexivity.
Qed.

(** X11: a [concurrent_requests] of 0 with at least one discovered URL:
    the first task waits for a permit that never comes, so [scrape_site]
    never returns, and no handler runs. *)
Theorem zero_cap_never_returns session site url urls w :
  concurrent_requests config = 0 ->
  get_product_urls session (site_url site) = Ok (Some (url :: urls)) ->
  scrape_site config select_one get_product_urls session site w = (Blocked, w).
Proof.
  intros Hc Hd.
  unfold scrape_site, try_except. unfold bind at 1.
  unfold lift. rewrite Hd. unfold bind at 1. unfold Semaphore. rewrite Hc.
  reflexivity.
Qed.

(** *** Runs that come back *)

Lemma unblocked_gather session sels semaphore urls :
  semaphore <> 0 ->
  unblocked (gather (map (fun url =>
                            scrape_product config select_one session url sels
                              semaphore) urls)).
Proof.
  intros Hs w.
  destruct (gather_batch session sels semaphore urls w Hs)
    as (results & w' & -> & _). discriminate.
Qed.

Lemma unblocked_save_scrape_results site_url results :
  unblocked (save_scrape_results config site_url results).
Proof. unfold save_scrape_results. auto 10 with unblocked. Qed.

Lemma scrape_site_outcome session site w :
  exists r w',
    scrape_site config select_one get_product_urls session site w = (r, w')
    /\ (r = Ok tt \/ r = Blocked)
    /\ (0 < concurrent_requests config ->
        get_product_urls session (site_url site) <> Blocked ->
        r = Ok tt).
Proof.
  unfold scrape_site, try_except.
  match goal with
  | |- context [match ?m w with _ => _ end] =>
      destruct (m w) as [[[]|e|] w1] eqn:E
  end.
  - eauto 10.
  - unfold logger_error. eauto 10.
  - do 2 eexists. split; [reflexivity|]. split; [auto|].
    intros Hc Hd. exfalso. revert E.
    unfold bind at 1. unfold lift.
    destruct (get_product_urls session (site_url site)) as [o|e|];
      [|discriminate|contradiction].
    unfold bind at 1. unfold Semaphore.
    destruct (concurrent_requests config <? 0) eqn:Hneg;
      [apply Z.ltb_lt in Hneg; lia|].
    unfold ret at 1. unfold bind at 1.
    destruct o as [urls|]; [|discriminate].
    unfold iterate, ret at 1.
    assert (Hs : concurrent_requests config <> 0) by lia.
    intros E.
    assert (Hu : unblocked
                   (results <- gather
                       (map (fun url =>
                               scrape_product config select_one session url
                                 (selectors site) (concurrent_requests config))
                          urls) ;;
                    save_scrape_results config (site_url site)
                      (valid_results_of results))).
    { apply unblocked_bind; [apply unblocked_gather, Hs|].
      intros results. apply unblocked_save_scrape_results. }
    apply (Hu w). unfold bind at 1. unfold bind at 1 in E. rewrite E.
    reflexivity.
Qed.

(** X12: [start_scraping] never raises to its caller, whatever the sites,
    the web and the file system do: every exception of a site's turn ends
    in the handler of [scrape_site]. *)
Theorem start_scraping_never_raises session w :
  fst (start_scraping config select_one get_product_urls session w) = Ok tt
  \/ fst (start_scraping config select_one get_product_urls session w)
     = Blocked.
Proof.
  rewrite start_scraping_eq.
  assert (H : forall sites w0,
             exists r w', forM sites (site_turn session) w0 = (r, w')
                          /\ (r = Ok tt \/ r = Blocked)).
  { induction sites as [|site sites IH]; intros w0.
    - exists (Ok tt), w0. split; [reflexivity|left; reflexivity].
    - cbn [forM]. unfold bind at 1. unfold site_turn at 1.
      unfold bind at 1. unfold logger_info at 1.
      match goal with
      | |- context [scrape_site _ _ _ _ _ ?w1] =>
          destruct (scrape_site_outcome session site w1)
            as (r & w2 & -> & [-> | ->] & _)
      end.
      + apply IH.
      + exists Blocked, w2. split; [reflexivity|right; reflexivity]. }
  destruct (H (target_sites config) w) as (r & w' & -> & [-> | ->]);
    [left|right]; reflexivity.
Qed.

(** X13: with a positive [concurrent_requests] and a discovery that
    returns or raises for every configured site, [start_scraping]
    returns. *)
Theorem start_scraping_returns session w :
  0 < concurrent_requests config ->
  (forall site, In site (target_sites config) ->
                get_product_urls session (site_url site) <> Blocked) ->
  exists w',
    start_scraping config select_one get_product_urls session w = (Ok tt, w').
Proof.
  intros Hc. rewrite start_scraping_eq.
  generalize (target_sites config). intros sites. revert w.
  induction sites as [|site sites IH]; intros w Hd; [eexists; reflexivity|].
  cbn [forM]. unfold bind at 1. unfold site_turn at 1.
  unfold bind at 1. unfold logger_info at 1.
  match goal with
  | |- context [scrape_site _ _ _ _ _ ?w0] =>
      destruct (scrape_site_outcome session site w0)
        as (r & w1 & -> & _ & Hr)
  end.
  rewrite (Hr Hc (Hd site (or_introl eq_refl))).
  apply IH. intros s Hin. apply Hd. right. exact Hin.
Qed.

(** *** What a batch can hold *)

(** X14: the records of a batch are records of discovered URLs, in the
    order of discovery and at most one for each, and each names the image
    file of its own URL. *)
Theorem batch_records_follow_discovery session sels semaphore urls w
    results w' :
  gather (map (fun url =>
                 scrape_product config select_one session url sels semaphore)
            urls) w = (Ok results, w') ->
  sublist (map url (valid_results_of results)) urls
  /\ Forall (fun r => image_filename r = image_filename_of (url r))
       (valid_results_of results).
Proof.
  revert w results. induction urls as [|u urls IH]; intros w results.
  - cbn. intros [= <- <-]. split; constructor.
  - cbn [map gather].
    destruct (scrape_product config select_one session u sels semaphore w)
      as [[[r|]|e|] w1] eqn:Hp; try discriminate.
    + unfold bind. destruct (gather _ w1) as [[rest| |] w2] eqn:Hg;
        try discriminate.
      intros [= <- <-]. destruct (IH _ _ Hg) as [Hsub Hall].
      apply scrape_product_Some in Hp as (_ & ? & ? & ? & ? & ? & ? & Hp).
      destruct Hp as (_ & _ & _ & _ & _ & _ & ->).
      cbn. split; [apply sublist_skip, Hsub|].
      constructor; [reflexivity|exact Hall].
    + unfold bind. destruct (gather _ w1) as [[rest| |] w2] eqn:Hg;
        try discriminate.
      intros [= <- <-]. destruct (IH _ _ Hg) as [Hsub Hall].
      cbn. split; [apply sublist_cons, Hsub|exact Hall].
    + unfold bind. destruct (gather _ w1) as [[rest| |] w2] eqn:Hg;
        try discriminate.
      intros [= <- <-]. destruct (IH _ _ Hg) as [Hsub Hall].
      cbn. split; [apply sublist_cons, Hsub|exact Hall].
Qed.

(** *** Image file names *)

Lemma split_last_segment sep prefix s :
  exists l, PyStr.split sep (prefix +:+ String sep s) = l ++ PyStr.split sep s
            /\ l <> [].
Proof.
  induction prefix as [|a prefix (l & IH & Hl)].
  - exists [""]. change ("" +:+ String sep s) with (String sep s).
    cbn [PyStr.split app]. destruct (decide (sep = sep)); [|contradiction].
    split; [reflexivity|discriminate].
  - change (String a prefix +:+ String sep s)
      with (String a (prefix +:+ String sep s)).
    cbn [PyStr.split]. rewrite IH. destruct (decide (a = sep)).
    + exists ("" :: l). split; [reflexivity|discriminate].
    + destruct l as [|x l]; [contradiction|].
      exists (String a x :: l). split; [reflexivity|discriminate].
Qed.

Lemma split_no_sep sep s :
  PyStr.contains sep s = false -> PyStr.split sep s = [s].
Proof.
  induction s as [|a s IH]; [reflexivity|].
  cbn [PyStr.contains PyStr.split]. intros H.
  apply orb_false_iff in H as [Ha Hs]. apply bool_decide_eq_false in Ha.
  destruct (decide (a = sep)); [contradiction|].
  rewrite (IH Hs). reflexivity.
Qed.

Lemma last_app_ne {A} (l1 l2 : list A) d :
  l2 <> [] -> List.last (l1 ++ l2) d = List.last l2 d.
Proof.
  intros H. induction l1 as [|x l1 IH]; [reflexivity|].
  cbn [app List.last]. rewrite <- IH.
  destruct (l1 ++ l2) eqn:E; [|reflexivity].
  apply app_eq_nil in E as [_ ->]. contradiction.
Qed.

(** The image file is named by what follows the last slash of the page's
    URL, and by nothing else of the URL. *)
Lemma image_filename_of_last_segment prefix name :
  PyStr.contains "/" name = false ->
  image_filename_of (prefix +:+ "/" +:+ name) = name +:+ ".jpg".
Proof.
  intros H. unfold image_filename_of.
  change ("/" +:+ name) with (String "/" name).
  destruct (split_last_segment "/" prefix name) as (l & -> & _).
  rewrite (split_no_sep _ _ H). rewrite last_app_ne by discriminate.
  reflexivity.
Qed.

(** X15: two product pages whose URLs end in the same segment share one
    image file: both records name it, and after the second product is
    scraped the file holds the second product's image. *)
Theorem same_last_segment_shares_image_file session sels semaphore
    prefix1 prefix2 name w r1 w1 r2 w2 :
  PyStr.contains "/" name = false ->
  scrape_product config select_one session (prefix1 +:+ "/" +:+ name) sels
    semaphore w = (Ok (Some r1), w1) ->
  scrape_product config select_one session (prefix2 +:+ "/" +:+ name) sels
    semaphore w1 = (Ok (Some r2), w2) ->
  image_filename r1 = name +:+ ".jpg"
  /\ image_filename r2 = name +:+ ".jpg"
  /\ exists agent html image title price data,
      page_fetched session (headers_of agent) (prefix2 +:+ "/" +:+ name) html
      /\ selectors_match html sels image title price
      /\ image_fetched session image data
      /\ fs w2 !! (Path.of_str (output_dir config) // "images"
                   // (name +:+ ".jpg"))
         = Some (File (BytesFile data)).
Proof.
  intros Hname H1 H2.
  apply scrape_product_Some in H1
    as (_ & ? & ? & ? & ? & ? & ? & _ & _ & _ & _ & _ & _ & ->).
  apply scrape_product_Some in H2
    as (_ & agent & html & image & title & price & data
        & _ & Hp & Hm & Hi & _ & Hsave & ->).
  rewrite (image_filename_of_last_segment prefix2 name Hname) in Hsave.
  cbn [record_for image_filename].
  rewrite !image_filename_of_last_segment by exact Hname.
  split; [reflexivity|]. split; [reflexivity|].
  exists agent, html, image, title, price, data.
  repeat (split; [assumption|]).
  eapply save_image_Ok, Hsave.
Qed.

End WithScraper.

(** *** A small web to run the scraper on *)

Definition shop : string := "https://shop.example".

Definition product_url (i : Z) : string :=
  shop +:+ "/products/" +:+ PyStr.of_int i.

Definition ten_urls : list string :=
  map product_url [1; 2; 3; 4; 5; 6; 7; 8; 9; 10].

(** Every page has the three elements; the image element names a photo
    beside the page. *)
Definition demo_select_one (html selector : string) : option Bs4.Tag :=
  if decide (selector = "div.product-image img")
  then Some (Bs4.mkTag [("src", html +:+ "/photo.jpg")] "")
  else if decide (selector = "h1.product-title")
  then Some (Bs4.mkTag [] "  Gold ring ")
  else if decide (selector = "span.price")
  then Some (Bs4.mkTag [] " $120 ")
  else None.

(** Every photo and every page is served, the page with its own URL as
    body, but for the pages of products 3 and 7, which are gone. *)
Definition demo_session : Aiohttp.ClientSession := {|
  Aiohttp.get := fun url headers =>
    if PyStr.endswith url "/photo.jpg" then Aiohttp.Response 200 "JFIF"
    else if decide (url = product_url 3 \/ url = product_url 7)
    then Aiohttp.Response 404 "Not Found"
    else Aiohttp.Response 200 url
|}.

Definition default_selectors : Selectors :=
  {| sel_image := "div.product-image img";
     sel_title := "h1.product-title";
     sel_price := "span.price" |}.

Definition shop_site : Site := mkSite shop default_selectors.
Definition down_site : Site := mkSite "https://down.example" default_selectors.
Definition other_site : Site := mkSite "https://other.example" default_selectors.

(** The shop lists its ten products, the other site one product, and every
    other site cannot be reached. *)
Definition demo_discovery (session : Aiohttp.ClientSession) (base_url : string)
  : Result (option (list string)) :=
  if decide (base_url = shop) then Ok (Some ten_urls)
  else if decide (base_url = "https://other.example")
  then Ok (Some ["https://other.example/p/band"])
  else Raise (mkExn "ClientConnectorError" "Cannot connect to host").

(** The defaults with a cap of 3, a user-agent pool and the given sites. *)
Definition demo_config (sites : list Site) : Config := {|
  output_dir := "scraped_data";
  delay_range := (1, 3);
  max_retries := 3;
  concurrent_requests := 3;
  target_sites := sites;
  user_agents := Some ["Mozilla/5.0"]
|}.

(** An empty working directory. *)
Definition empty_world : World := {|
  fs := ∅; s3_buckets := ∅; s3_online := true; log := [];
  rng_tape := fun _ => 0%N; rng_pos := 0
|}.

(** A working directory in which [scraped_data] is a regular file. *)
Definition cluttered_world : World :=
  set_fs {[ ["scraped_data"] := File (TextFile "notes") ]} empty_world.

(** C2, as stated, fails: below, the page fetch returns HTTP 200, the three
    selectors match and the image fetch returns HTTP 200 with the photo's
    bytes, and [scrape_product] returns [None] all the same: the image cannot
    be saved, because [scraped_data] is a regular file, so [save_image]
    raises and the handler logs and returns [None]. *)
Lemma no_record_although_fetched_matched_downloaded :
  let url := product_url 1 in
  (exists image title price,
      page_fetched demo_session (headers_of "Mozilla/5.0") url url
      /\ selectors_match demo_select_one url default_selectors image title price
      /\ image_fetched demo_session image "JFIF")
  /\ fst (scrape_product (demo_config [shop_site]) demo_select_one demo_session
            url default_selectors 3 cluttered_world) = Ok None.
Proof.
  split.
  - do 3 eexists. split; [reflexivity|]. split.
    + repeat split; reflexivity.
    + eexists. split; reflexivity.
  - vm_compute. reflexivity.
Qed.

(** With the defaults of [__init__] no user agent can be chosen, and a
    product gives no record whatever the web serves. *)
Lemma default_config_gives_no_record select_one session url sels semaphore w :
  user_agents default_config = None
  /\ (semaphore <> 0 ->
      fst (scrape_product default_config select_one session url sels
             semaphore w) = Ok None).
Proof.
  split; [reflexivity|]. intros Hs.
  unfold scrape_product, async_with. apply Z.eqb_neq in Hs. rewrite Hs.
  reflexivity.
Qed.

(** The theorem at the shop's batch: ten URLs under a cap of 3. *)
Lemma record_only_if_fetched_matched_downloaded_witness :
  exists results w1,
    gather (map (fun url =>
                   scrape_product (demo_config [shop_site]) demo_select_one
                     demo_session url default_selectors 3) ten_urls)
      empty_world = (Ok results, w1)
    /\ length results = 10%nat
    /\ (length (valid_results_of results) = 10 - failed results)%nat.
Proof.
  destruct (proj2 (proj2 (proj2
              (record_only_if_fetched_matched_downloaded
                 (demo_config [shop_site]) demo_select_one demo_discovery
                 demo_session))) shop_site ten_urls empty_world)
    as (results & w1 & E & Hlen & Hvalid & _).
  - reflexivity.
  - reflexivity.
  - exists results, w1. auto.
Defined.

(** The scenario of the design document: ten discovered URLs, a cap of 3,
    two pages answering 404: the site's artifact holds exactly 8 records. *)
Example ten_urls_two_missing :
  let records :=
    map (fun i => {| url := product_url i; title := "Gold ring";
                     price := "$120";
                     image_filename := PyStr.of_int i +:+ ".jpg" |})
      [1; 2; 4; 5; 6; 8; 9; 10] in
  fs (snd (scrape_site (demo_config [shop_site]) demo_select_one
             demo_discovery demo_session shop_site empty_world))
    !! ["scraped_data"; "scrape_results.json"]
  = Some (File (TextFile (results_json records)))
  /\ length records = 8%nat.
Proof. split; vm_compute; reflexivity. Qed.

(** The theorem at a run over a site that is down, then the shop: the
    failure is logged, nothing is written for the site, and the shop is
    scraped next. *)
Lemma failed_discovery_skips_only_that_site_witness :
  let config := demo_config [down_site; shop_site] in
  let w1' := set_log [(INFO, "Scraping site: https://down.example")]
               empty_world in
  let w2 := site_failed down_site
              (mkExn "ClientConnectorError" "Cannot connect to host") w1' in
  scrape_site config demo_select_one demo_discovery demo_session down_site w1'
  = (Ok tt, w2)
  /\ fs w2 = fs empty_world
  /\ start_scraping config demo_select_one demo_discovery demo_session
       empty_world
     = forM [shop_site]
         (site_turn config demo_select_one demo_discovery demo_session) w2.
Proof.
  apply (failed_discovery_skips_only_that_site
           (demo_config [down_site; shop_site]) demo_select_one demo_discovery
           demo_session [] down_site [shop_site]
           (mkExn "ClientConnectorError" "Cannot connect to host")
           empty_world empty_world).
  - reflexivity.
  - reflexivity.
  - reflexivity.
Defined.

(** The JSON artifact of a site is replaced by the one of any site persisted
    after it: the file name does not depend on the site. *)
Lemma later_site_replaces_earlier config url1 url2 results1 results2 w w1 w2 :
  save_scrape_results config url1 results1 w = (Ok tt, w1) ->
  save_scrape_results config url2 results2 w1 = (Ok tt, w2) ->
  fs w2 !! json_path config = Some (File (TextFile (results_json results2)))
  /\ fs w2 !! csv_path config = Some (File (results_csv results2)).
Proof. intros _ H. eapply save_scrape_results_Ok, H. Qed.

(** C4: the code run on two configured sites, the shop and then another
    site, each with products that scrape well. Both sites are persisted to
    the same file [scraped_data/scrape_results.json]: after the run it is the
    only JSON artifact, and it holds the one record of the second site; the
    eight records of the shop are gone. For categories the file name does
    follow the group: distinct categories have distinct metadata files. *)
Theorem two_sites_share_one_json_artifact :
  let config := demo_config [shop_site; other_site] in
  let w' := snd (start_scraping config demo_select_one demo_discovery
                   demo_session empty_world) in
  site_url shop_site <> site_url other_site
  /\ fs w' !! ["scraped_data"; "scrape_results.json"]
     = Some (File (TextFile
                     (results_json
                        [ {| url := "https://other.example/p/band";
                             title := "Gold ring"; price := "$120";
                             image_filename := "band.jpg" |} ])))
  /\ FS.glob_suffix w' [] ".json" = [ ["scraped_data"; "scrape_results.json"] ]
  /\ FS.glob_suffix w' [] ".csv" = [ ["scraped_data"; "scrape_results.csv"] ]
  /\ (forall dataset_config category1 category2,
        category1 <> category2 ->
        JewelryDatasetManager.metadata_file dataset_config category1
        <> JewelryDatasetManager.metadata_file dataset_config category2).
Proof.
  split; [discriminate|].
  split; [vm_compute; reflexivity|].
  split; [vm_compute; reflexivity|].
  split; [vm_compute; reflexivity|].
  intros dataset_config category1 category2 Hne Heq.
  apply Hne. eapply DatasetFacts.metadata_file_inj, Heq.
Qed.

(** *** The extras on the small web *)

(** The theorem at product 3 of the shop, whose page answers 404. *)
Lemma page_not_had_gives_no_record_witness :
  exists w',
    scrape_product (demo_config [shop_site]) demo_select_one demo_session
      (product_url 3) default_selectors 3 empty_world = (Ok None, w')
    /\ fs w' = fs empty_world /\ log w' = log empty_world.
Proof.
  apply (proj1 (page_not_had_gives_no_record (demo_config [shop_site])
                  demo_select_one demo_session (product_url 3)
                  default_selectors 3 empty_world "Mozilla/5.0"
                  ltac:(discriminate) eq_refl) 404 "Not Found").
  - vm_compute. reflexivity.
  - discriminate.
Defined.

(** The theorem at the defaults of [__init__]. *)
Lemma without_user_agents_no_record_witness :
  exists w',
    scrape_product default_config demo_select_one demo_session
      (product_url 1) default_selectors 5 empty_world = (Ok None, w')
    /\ fs w' = fs empty_world
    /\ log w' = log empty_world
                ++ [(ERROR, "Error scraping " +:+ product_url 1
                            +:+ ": 'user_agents'")].
Proof.
  apply (without_user_agents_no_record default_config demo_select_one
           demo_session (product_url 1) default_selectors 5 empty_world).
  - reflexivity.
  - discriminate.
Defined.

(** The class's own [get_product_urls]: [pass]. *)
Definition stub_discovery (session : Aiohttp.ClientSession) (base_url : string)
  : Result (option (list string)) := Ok None.

(** The theorem at the class as it stands: the defaults and the stub. *)
Lemma stub_discovery_writes_nothing_witness :
  exists w',
    start_scraping default_config demo_select_one stub_discovery demo_session
      empty_world = (Ok tt, w')
    /\ fs w' = fs empty_world
    /\ length (log w') = (length (log empty_world)
                          + 2 * length (target_sites default_config))%nat.
Proof.
  apply (stub_discovery_writes_nothing default_config demo_select_one
           stub_discovery demo_session empty_world).
  intros base_url. reflexivity.
Defined.

(** The demo configuration with another cap. *)
Definition capped_config (cap : Z) (sites : list Site) : Config := {|
  output_dir := "scraped_data";
  delay_range := (1, 3);
  max_retries := 3;
  concurrent_requests := cap;
  target_sites := sites;
  user_agents := Some ["Mozilla/5.0"]
|}.

(** The theorem at the shop with a cap of -1. *)
Lemma negative_cap_scrapes_nothing_witness :
  scrape_site (capped_config (-1) [shop_site]) demo_select_one demo_discovery
    demo_session shop_site empty_world
  = (Ok tt,
     site_failed shop_site (ValueError "Semaphore initial value must be >= 0")
       empty_world).
Proof.
  apply (negative_cap_scrapes_nothing (capped_config (-1) [shop_site])
           demo_select_one demo_discovery demo_session shop_site
           (Some ten_urls) empty_world).
  - reflexivity.
  - reflexivity.
Defined.

(** The theorem at the shop with a cap of 0. *)
Lemma zero_cap_never_returns_witness :
  scrape_site (capped_config 0 [shop_site]) demo_select_one demo_discovery
    demo_session shop_site empty_world
  = (Blocked, empty_world).
Proof.
  apply (zero_cap_never_returns (capped_config 0 [shop_site])
           demo_select_one demo_discovery demo_session shop_site
           (product_url 1) (map product_url [2; 3; 4; 5; 6; 7; 8; 9; 10])
           empty_world).
  - reflexivity.
  - reflexivity.
Defined.

(** The theorem at a run over a site that is down and the shop. *)
Lemma start_scraping_returns_witness :
  exists w',
    start_scraping (demo_config [down_site; shop_site]) demo_select_one
      demo_discovery demo_session empty_world = (Ok tt, w').
Proof.
  apply (start_scraping_returns (demo_config [down_site; shop_site])
           demo_select_one demo_discovery demo_session empty_world).
  - reflexivity.
  - intros site [<- | [<- | []]]; vm_compute; discriminate.
Defined.

(** The theorem at products 1 and 3 of the shop: the page of product 3 is
    gone. *)
Lemma batch_records_follow_discovery_witness :
  sublist [product_url 1] [product_url 1; product_url 3].
Proof.
  refine (proj1 (batch_records_follow_discovery (demo_config [shop_site])
                  demo_select_one demo_session default_selectors 3
                  [product_url 1; product_url 3] empty_world
                  [Ok (Some {| url := product_url 1; title := "Gold ring";
                               price := "$120"; image_filename := "1.jpg" |});
                   Ok None]
                  (snd (gather
                          (map (fun url =>
                                  scrape_product (demo_config [shop_site])
                                    demo_select_one demo_session url
                                    default_selectors 3)
                             [product_url 1; product_url 3]) empty_world))
                  _)).
  apply DatasetFacts.pair_from_fst. vm_compute. reflexivity.
Defined.

(** The shop's ring 7 and band 7. *)
Definition ring_7 : string := shop +:+ "/rings" +:+ "/" +:+ "7".
Definition band_7 : string := shop +:+ "/bands" +:+ "/" +:+ "7".

Definition after_ring_7 : World :=
  snd (scrape_product (demo_config [shop_site]) demo_select_one demo_session
         ring_7 default_selectors 3 empty_world).

(** The theorem at the two: both records name [7.jpg]. *)
Lemma same_last_segment_shares_image_file_witness :
  exists r1 r2,
    fst (scrape_product (demo_config [shop_site]) demo_select_one demo_session
           ring_7 default_selectors 3 empty_world) = Ok (Some r1)
    /\ fst (scrape_product (demo_config [shop_site]) demo_select_one
              demo_session band_7 default_selectors 3 after_ring_7)
       = Ok (Some r2)
    /\ image_filename r1 = "7.jpg" /\ image_filename r2 = "7.jpg".
Proof.
  exists {| url := ring_7; title := "Gold ring"; price := "$120";
            image_filename := "7.jpg" |},
         {| url := band_7; title := "Gold ring"; price := "$120";
            image_filename := "7.jpg" |}.
  split; [vm_compute; reflexivity|]. split; [vm_compute; reflexivity|].
  destruct (same_last_segment_shares_image_file (demo_config [shop_site])
              demo_select_one demo_session default_selectors 3
              (shop +:+ "/rings") (shop +:+ "/bands") "7" empty_world
              {| url := ring_7; title := "Gold ring"; price := "$120";
                 image_filename := "7.jpg" |}
              after_ring_7
              {| url := band_7; title := "Gold ring"; price := "$120";
                 image_filename := "7.jpg" |}
              (snd (scrape_product (demo_config [shop_site]) demo_select_one
                      demo_session band_7 default_selectors 3 after_ring_7)))
    as (H1 & H2 & _).
  - reflexivity.
  - apply DatasetFacts.pair_from_fst. vm_compute. reflexivity.
  - apply DatasetFacts.pair_from_fst. vm_compute. reflexivity.
  - split; [exact H1 | exact H2].
Defined.

End ScraperFacts.


(** ** The bounded task runner *)

Module TaskRunnerFacts.
Import TaskRunner.

Definition weight (p : Phase) : nat := if in_flight_phase p then 1 else 0.

Definition count_in_flight (l : list Phase) : nat :=
  length (filter (fun p => in_flight_phase p = true) l).

Lemma count_in_flight_cons p l :
  count_in_flight (p :: l) = (weight p + count_in_flight l)%nat.
Proof.
  unfold count_in_flight, weight. rewrite filter_cons.
  destruct (decide (in_flight_phase p = true)) as [->|H]; [reflexivity|].
  destruct (in_flight_phase p); [congruence | reflexivity].
Qed.

(** Replacing the phase of one task moves the count by the change of its
    weight. *)
Lemma count_in_flight_insert l i p q :
  l !! i = Some p ->
  (count_in_flight (<[i := q]> l) + weight p
   = count_in_flight l + weight q)%nat.
Proof.
  revert i. induction l as [|x l IH]; intros [|i] H; try discriminate.
  - injection H as ->.
    change (<[0%nat := q]> (p :: l)) with (q :: l).
    rewrite !count_in_flight_cons. lia.
  - change (<[S i := q]> (x :: l)) with (x :: <[i := q]> l).
    rewrite !count_in_flight_cons.
    specialize (IH i H). lia.
Qed.

Lemma count_in_flight_replicate_Waiting n :
  count_in_flight (replicate n Waiting) = 0%nat.
Proof.
  induction n as [|n IH]; [reflexivity|].
  cbn [replicate]. rewrite count_in_flight_cons, IH. reflexivity.
Qed.

(** Permits taken and permits free add up to the cap. *)
Definition balanced (c : nat) (r : SiteRun) : Prop :=
  (in_flight r + permits r = c)%nat.

Lemma start_balanced c n : balanced c (start c n).
Proof.
  unfold balanced, in_flight, start. cbn [tasks permits].
  fold (count_in_flight (replicate n Waiting)).
  rewrite count_in_flight_replicate_Waiting. reflexivity.
Qed.

Lemma next_phase_in_flight p q :
  next_phase p = Some q -> weight p = 1%nat /\ weight q = 1%nat.
Proof. destruct p; intros [= <-]; split; reflexivity. Qed.

Lemma step_balanced c r r' : balanced c r -> step r r' -> balanced c r'.
Proof.
  unfold balanced, in_flight. intros Hb Hstep.
  destruct Hstep as [r i Hw Hp | r i p q Hi Hn | r i p Hi Hp];
    cbn [tasks permits];
    fold (count_in_flight (tasks r)) in Hb;
    match goal with |- context [filter _ (<[i := ?q]> (tasks r))] =>
      fold (count_in_flight (<[i := q]> (tasks r))) end.
  - pose proof (count_in_flight_insert _ _ _ Delaying Hw) as H.
    cbn [weight in_flight_phase] in H. lia.
  - pose proof (count_in_flight_insert _ _ _ q Hi) as H.
    destruct (next_phase_in_flight _ _ Hn) as [Hp Hq]. lia.
  - pose proof (count_in_flight_insert _ _ _ Finished Hi) as H.
    unfold weight in H. rewrite Hp in H. cbn [in_flight_phase] in H. lia.
Qed.

(** Within one site's run the tasks in flight never exceed the cap. *)
Lemma reachable_balanced c n r : reachable c n r -> balanced c r.
Proof.
  induction 1 as [|r r' _ IH Hstep];
    [apply start_balanced | eapply step_balanced; eauto].
Qed.

(** With no permit at all nothing ever starts: the batch waits forever. *)
Lemma no_permit_no_step n r : ~ step (start 0 n) r.
Proof.
  intros H. inversion H as [r0 i Hw Hp | r0 i p q Hi Hn | r0 i p Hi Hp];
    subst; cbn [start tasks permits] in *.
  - lia.
  - apply lookup_replicate in Hi as [-> _]. discriminate.
  - apply lookup_replicate in Hi as [-> _]. discriminate.
Qed.

(** C7: in every state a run over the configured sites can reach, whatever
    the interleaving of the tasks, the number of tasks of the current site
    that hold a permit (delaying, fetching, parsing, downloading or saving)
    is at most the cap; taken and free permits always add up to the cap, so
    each site starts with all of them, whatever the sites before it used. *)
Theorem in_flight_never_exceeds_cap c n sizes m :
  mreachable c n sizes m ->
  (in_flight (current m) <= c)%nat
  /\ (in_flight (current m) + permits (current m) = c)%nat
  /\ (in_flight (current m) = 0%nat -> permits (current m) = c).
Proof.
  intros H.
  assert (Hb : balanced c (current m)).
  { induction H as [|m m' _ IH Hstep]; [apply start_balanced|].
    destruct Hstep as [r r' rest Hs | r k rest Hf]; cbn [current] in *.
    - eapply step_balanced; eauto.
    - apply start_balanced. }
  unfold balanced in Hb. repeat split; lia.
Qed.

(** The theorem at a run with cap 1 over two sites of one product each, at
    the moment the second site's task is in flight: the first site's task
    took the one permit and gave it back, and the second site has a permit
    of its own. *)
Lemma in_flight_never_exceeds_cap_witness :
  (in_flight (mkSiteRun 0 [Delaying]) <= 1)%nat
  /\ (in_flight (mkSiteRun 0 [Delaying]) + 0 = 1)%nat
  /\ (in_flight (mkSiteRun 0 [Delaying]) = 0%nat -> 0%nat = 1%nat).
Proof.
  apply (in_flight_never_exceeds_cap 1 1 [1%nat]
           (mkMultiRun (mkSiteRun 0 [Delaying]) [])).
  apply (mreach_step _ _ _ (mkMultiRun (start 1 1) [])).
  - apply (mreach_step _ _ _ (mkMultiRun (mkSiteRun 1 [Finished]) [1%nat])).
    + apply (mreach_step _ _ _ (mkMultiRun (mkSiteRun 0 [Delaying]) [1%nat])).
      * apply (mreach_step _ _ _ (mkMultiRun (start 1 1) [1%nat])).
        -- apply mreach_start.
        -- apply mstep_task.
           apply (step_acquire (start 1 1) 0); [reflexivity | cbn; lia].
      * apply mstep_task.
        apply (step_release (mkSiteRun 0 [Delaying]) 0 Delaying); reflexivity.
    + apply mstep_next_site. repeat constructor.
  - apply mstep_task.
    apply (step_acquire (start 1 1) 0); [reflexivity | cbn; lia].
Defined.

(** *** Progress and termination of a site's run *)

(** The tasks of a run are all finished, or one holds a permit, or none
    holds a permit and one waits. *)
Lemma tasks_cases (l : list Phase) :
  Forall (fun p => p = Finished) l
  \/ (exists i p, l !! i = Some p /\ in_flight_phase p = true)
  \/ (count_in_flight l = 0%nat /\ exists i, l !! i = Some Waiting).
Proof.
  induction l as [|p l IH]; [left; constructor|].
  destruct (in_flight_phase p) eqn:Hp.
  { right. left. exists 0%nat, p. split; [reflexivity|exact Hp]. }
  destruct IH as [Hall | [(i & q & Hi & Hq) | (Hc & i & Hi)]].
  - destruct p; try discriminate.
    + right. right. split.
      * rewrite count_in_flight_cons. cbn.
        clear -Hall. induction Hall as [|q l -> _ IH]; [reflexivity|].
        rewrite count_in_flight_cons. exact IH.
      * exists 0%nat. reflexivity.
    + left. constructor; [reflexivity|exact Hall].
  - right. left. exists (S i), q. split; [exact Hi|exact Hq].
  - right. right. split.
    + rewrite count_in_flight_cons. unfold weight. rewrite Hp. exact Hc.
    + exists (S i). exact Hi.
Qed.

(** X16: with at least one permit a site's run never gets stuck: in every
    reachable state every task has finished, or some task can move. *)
Theorem run_with_a_permit_never_deadlocks c n r :
  (0 < c)%nat ->
  reachable c n r ->
  all_finished r \/ exists r', step r r'.
Proof.
  intros Hc Hr. apply reachable_balanced in Hr. unfold balanced in Hr.
  destruct (tasks_cases (tasks r)) as [Hall | [(i & p & Hi & Hp) | (H0 & i & Hi)]].
  - left. exact Hall.
  - right. eexists. eapply step_release; eassumption.
  - right. eexists. apply (step_acquire r i Hi).
    unfold in_flight in Hr. fold (count_in_flight (tasks r)) in Hr. lia.
Qed.

(** The theorem at two tasks under a cap of 1, the first one fetching. *)
Lemma run_with_a_permit_never_deadlocks_witness :
  all_finished (mkSiteRun 0 [Fetching; Waiting])
  \/ exists r', step (mkSiteRun 0 [Fetching; Waiting]) r'.
Proof.
  apply (run_with_a_permit_never_deadlocks 1 2 (mkSiteRun 0 [Fetching; Waiting])).
  - lia.
  - apply (reach_step _ _ (mkSiteRun 0 [Delaying; Waiting])).
    + apply (reach_step _ _ (start 1 2)); [apply reach_start|].
      apply (step_acquire (start 1 2) 0); [reflexivity | cbn; lia].
    + apply (step_advance (mkSiteRun 0 [Delaying; Waiting]) 0 Delaying Fetching);
        reflexivity.
Defined.









End TaskRunnerFacts.


(** ** The S3-event handler *)

Module ProcessorFacts.
Import JewelryProcessor.

(** The bucket name and object key of an event with the expected structure:
    a dict whose [Records] is a list whose first item is a dict whose [s3]
    is a dict holding a dict [bucket] with a [name] and a dict [object] with
    a [key]. *)
Definition s3_record_fields (event : Json.value)
  : option (Json.value * Json.value) :=
  match event with
  | Json.Dict items =>
      match Json.assoc "Records" items with
      | Some (Json.List (Json.Dict record :: _)) =>
          match Json.assoc "s3" record with
          | Some (Json.Dict s3) =>
              match Json.assoc "bucket" s3, Json.assoc "object" s3 with
              | Some (Json.Dict bucket), Some (Json.Dict object) =>
                  match Json.assoc "name" bucket, Json.assoc "key" object with
                  | Some name, Some key => Some (name, key)
                  | _, _ => None
                  end
              | _, _ => None
              end
          | _ => None
          end
      | _ => None
      end
  | _ => None
  end.

(** The exceptions a failed subscript raises. *)
Definition lookup_error (e : exn) : Prop :=
  exn_type e = "KeyError" \/ exn_type e = "IndexError"
  \/ exn_type e = "TypeError".

Lemma getitem_not_dict v k :
  (forall items, v <> Json.Dict items) ->
  exists e, Json.getitem v k = Raise e /\ lookup_error e.
Proof.
  intros H. unfold lookup_error.
  destruct v; try (eexists; split; [reflexivity|]; cbn; tauto).
  exfalso. eapply H. reflexivity.
Qed.

Lemma getitem_dict items k :
  Json.getitem (Json.Dict items) k
  = match Json.assoc k items with
    | Some x => Ok x
    | None => Raise (KeyError k)
    end.
Proof. reflexivity. Qed.

Lemma getindex_0_cons x l : Json.getindex (Json.List (x :: l)) 0 = Ok x.
Proof. reflexivity. Qed.

Lemma getindex_0_other v :
  (forall x l, v <> Json.List (x :: l)) ->
  (exists s, Json.getindex v 0 = Ok (Json.Str s))
  \/ exists e, Json.getindex v 0 = Raise e /\ lookup_error e.
Proof.
  intros H. unfold lookup_error.
  destruct v as [| | | |s|l|items];
    try (right; eexists; split; [reflexivity|]; cbn; tauto).
  - destruct s as [|c s].
    + right; eexists; split; [reflexivity|]; cbn; tauto.
    + left. exists (String c ""). reflexivity.
  - destruct l as [|x l]; [|exfalso; eapply H; reflexivity].
    right; eexists; split; [reflexivity|]; cbn; tauto.
Qed.

Ltac raise_lookup :=
  eexists; split; [reflexivity | unfold lookup_error; cbn; tauto].

(** The two subscript chains succeed exactly on the expected structure. *)
Lemma record_field_spec event :
  match s3_record_fields event with
  | Some (bucket, key) =>
      record_field event "bucket" "name" = Ok bucket
      /\ record_field event "object" "key" = Ok key
  | None =>
      (exists e, record_field event "bucket" "name" = Raise e /\ lookup_error e)
      \/ ((exists bucket, record_field event "bucket" "name" = Ok bucket)
          /\ exists e, record_field event "object" "key" = Raise e
                       /\ lookup_error e)
  end.
Proof.
  unfold s3_record_fields, record_field.
  destruct event as [| | | | |l|items]; try (left; raise_lookup).
  rewrite !getitem_dict.
  destruct (Json.assoc "Records" items) as [records|]; [|left; raise_lookup].
  cbn [rbind].
  destruct records as [| | | |s|l|items']; try (left; raise_lookup).
  - destruct s as [|c s]; left; raise_lookup.
  - destruct l as [|record l]; [left; raise_lookup|].
    rewrite getindex_0_cons. cbn [rbind].
    destruct record as [| | | | |l'|record]; try (left; raise_lookup).
    rewrite !getitem_dict.
    destruct (Json.assoc "s3" record) as [s3|]; [|left; raise_lookup].
    cbn [rbind].
    destruct s3 as [| | | | |l'|s3]; try (left; raise_lookup).
    rewrite !getitem_dict.
    destruct (Json.assoc "bucket" s3) as [bucket|]; [|left; raise_lookup].
    cbn [rbind].
    destruct bucket as [| | | | |l'|bucket]; try (left; raise_lookup).
    rewrite !getitem_dict.
    destruct (Json.assoc "object" s3) as [object|].
    2:{ destruct (Json.assoc "name" bucket);
          [right; split; [eauto | raise_lookup] | left; raise_lookup]. }
    destruct object as [| | | | |l'|object];
      try (destruct (Json.assoc "name" bucket);
           [right; split; [eauto | raise_lookup] | left; raise_lookup]).
    destruct (Json.assoc "name" bucket) as [bucket_name|];
      [|left; raise_lookup].
    cbn [rbind]. rewrite !getitem_dict.
    destruct (Json.assoc "key" object) as [object_key|];
      [|right; split; [eauto | raise_lookup]].
    split; reflexivity.
Qed.

Lemma call_not_Blocked {A} (o : exn + A) : call o <> Blocked.
Proof. destruct o; discriminate. Qed.

Lemma getitem_not_Blocked v k : Json.getitem v k <> Blocked.
Proof.
  destruct v; try discriminate. rewrite getitem_dict.
  destruct (Json.assoc k items); discriminate.
Qed.

(** The [try] block returns a response of status 200 or raises. *)
Lemma process_outcome services bucket key :
  (exists response, process services bucket key = Ok response
                    /\ statusCode response = 200)
  \/ exists e, process services bucket key = Raise e.
Proof.
  unfold process.
  repeat match goal with
         | |- context [rbind ?r _] =>
             let E := fresh "E" in
             destruct r as [?|?|] eqn:E; cbn [rbind];
             [ | right; eauto
               | exfalso; first [ eapply call_not_Blocked; eassumption
                                | eapply getitem_not_Blocked; eassumption ] ]
         end.
  left. eauto.
Qed.

(** C10: the handler looks the bucket name and the object key up before its
    [try]: on an event with the expected structure it never raises, and it
    returns status 200 when the [try] block runs through and status 500 with
    the error string when anything in it raises; on any other event, such
    as one with a missing key or an empty [Records] list, it raises the
    lookup error to its caller and returns no response. *)
Theorem handler_guards_only_after_the_lookups services event context :
  match s3_record_fields event with
  | Some (bucket, key) =>
      match process services bucket key with
      | Ok response =>
          handler services event context = Ok response
          /\ statusCode response = 200
      | Raise e =>
          handler services event context
          = Ok {| statusCode := 500;
                  body := Json.dumps
                            (Json.Dict [("error", Json.Str (exn_str e))]) |}
      | Blocked => False
      end
  | None =>
      exists e, handler services event context = Raise e /\ lookup_error e
  end.
Proof.
  pose proof (record_field_spec event) as Hf. unfold handler.
  destruct (s3_record_fields event) as [[bucket key]|].
  - destruct Hf as [-> ->]. cbn [rbind].
    destruct (process_outcome services bucket key)
      as [(response & -> & Hs) | (e & ->)]; [split|]; auto.
  - destruct Hf as [(e & -> & He) | ((bucket & ->) & e & -> & He)];
      exists e; split; auto.
Qed.

(** Two events without the expected structure, and what the handler raises
    on them. *)
Example handler_on_empty_records services context :
  handler services (Json.Dict [("Records", Json.List [])]) context
  = Raise (IndexError "list index out of range").
Proof. reflexivity. Qed.

Example handler_on_missing_key services context :
  handler services (Json.Dict [("detail", Json.Null)]) context
  = Raise (KeyError "Records").
Proof. reflexivity. Qed.

(** *** What a response of status 200 stands for *)

(** The item [handler] stores for an object key and an upload result. *)
Definition stored_item (key secure_url format size width height : Json.value)
  : Json.value :=
  Json.Dict
    [("imageId", key);
     ("cloudinaryUrl", secure_url);
     ("metadata",
      Json.Dict
        [("format", format);
         ("size", size);
         ("dimensions",
          Json.Dict [("width", width); ("height", height)])])].

(** X18: a response of status 200 is returned only after all three services
    did their part: the object was downloaded to [/tmp/<key>], the upload of
    that file returned a result with the five fields, the item made of them
    was stored, and the body names the uploaded image's URL. *)
Theorem status_200_only_after_all_three_services services event context
    response :
  handler services event context = Ok response ->
  statusCode response = 200 ->
  exists bucket key result secure_url format size width height,
    s3_record_fields event = Some (bucket, key)
    /\ s3_download_file services bucket key ("/tmp/" +:+ PyRepr.str key)
       = inr tt
    /\ cloudinary_upload services ("/tmp/" +:+ PyRepr.str key) = inr result
    /\ Json.getitem result "secure_url" = Ok secure_url
    /\ Json.getitem result "format" = Ok format
    /\ Json.getitem result "bytes" = Ok size
    /\ Json.getitem result "width" = Ok width
    /\ Json.getitem result "height" = Ok height
    /\ table_put_item services
         (stored_item key secure_url format size width height) = inr tt
    /\ body response
       = Json.dumps
           (Json.Dict [("message", Json.Str "Image processed successfully");
                       ("imageUrl", secure_url)]).
Proof.
  pose proof (record_field_spec event) as Hf. unfold handler.
  destruct (s3_record_fields event) as [[bucket key]|].
  2:{ destruct Hf as [(e & -> & _) | ((b & ->) & e & -> & _)]; discriminate. }
  destruct Hf as [-> ->]. cbn [rbind]. unfold process. cbv zeta.
  destruct (s3_download_file services bucket key _) as [e|[]] eqn:Hdl;
    cbn [call rbind]; [intros [= <-]; discriminate|].
  destruct (cloudinary_upload services _) as [e|result] eqn:Hup;
    cbn [call rbind]; [intros [= <-]; discriminate|].
  destruct (Json.getitem result "secure_url") as [secure_url|e|] eqn:H1;
    cbn [rbind]; [|intros [= <-]; discriminate|discriminate].
  destruct (Json.getitem result "format") as [format|e|] eqn:H2;
    cbn [rbind]; [|intros [= <-]; discriminate|discriminate].
  destruct (Json.getitem result "bytes") as [size|e|] eqn:H3;
    cbn [rbind]; [|intros [= <-]; discriminate|discriminate].
  destruct (Json.getitem result "width") as [width|e|] eqn:H4;
    cbn [rbind]; [|intros [= <-]; discriminate|discriminate].
  destruct (Json.getitem result "height") as [height|e|] eqn:H5;
    cbn [rbind]; [|intros [= <-]; discriminate|discriminate].
  destruct (table_put_item services _) as [e|[]] eqn:Hput;
    cbn [call rbind]; [intros [= <-]; discriminate|].
  intros [= <-] _.
  exists bucket, key, result, secure_url, format, size, width, height.
  repeat (split; [first [reflexivity | assumption]|]). reflexivity.
Qed.

(** An S3 event for one object. *)
Definition s3_event (bucket key : string) : Json.value :=
  Json.Dict
    [("Records",
      Json.List
        [Json.Dict
           [("s3",
             Json.Dict
               [("bucket", Json.Dict [("name", Json.Str bucket)]);
                ("object", Json.Dict [("key", Json.Str key)])])]])].

(** Services that all do their part; the upload returns [result]. *)
Definition services_returning (result : Json.value) : Services := {|
  s3_download_file := fun _ _ _ => inr tt;
  cloudinary_upload := fun _ => inr result;
  table_put_item := fun _ => inr tt
|}.

Definition full_result : Json.value :=
  Json.Dict [("secure_url", Json.Str "https://res.example/ring.jpg");
             ("format", Json.Str "jpg"); ("bytes", Json.Int 52000);
             ("width", Json.Int 800); ("height", Json.Int 600)].

(** The theorem at an event for [ring.jpg] with services that work. *)
Lemma status_200_only_after_all_three_services_witness :
  exists bucket key result secure_url format size width height,
    s3_record_fields (s3_event "jewelry-images-input-bucket" "ring.jpg")
    = Some (bucket, key)
    /\ s3_download_file (services_returning full_result) bucket key
         ("/tmp/" +:+ PyRepr.str key) = inr tt
    /\ cloudinary_upload (services_returning full_result)
         ("/tmp/" +:+ PyRepr.str key) = inr result
    /\ Json.getitem result "secure_url" = Ok secure_url
    /\ Json.getitem result "format" = Ok format
    /\ Json.getitem result "bytes" = Ok size
    /\ Json.getitem result "width" = Ok width
    /\ Json.getitem result "height" = Ok height
    /\ table_put_item (services_returning full_result)
         (stored_item key secure_url format size width height) = inr tt
    /\ body {| statusCode := 200;
               body := Json.dumps
                         (Json.Dict
                            [("message",
                              Json.Str "Image processed successfully");
                             ("imageUrl",
                              Json.Str "https://res.example/ring.jpg")]) |}
       = Json.dumps
           (Json.Dict [("message", Json.Str "Image processed successfully");
                       ("imageUrl", secure_url)]).
Proof.
  apply (status_200_only_after_all_three_services
           (services_returning full_result)
           (s3_event "jewelry-images-input-bucket" "ring.jpg") Json.Null).
  - vm_compute. reflexivity.
  - reflexivity.
Defined.

(** *** An upload result without one of its fields *)

(** The fields of the upload result the handler reads, in the order it reads
    them. *)
Definition result_fields : list string :=
  ["secure_url"; "format"; "bytes"; "width"; "height"].

(** The first of them that a result does not have. *)
Definition first_missing (items : list (string * Json.value)) : option string :=
  List.find (fun k => match Json.assoc k items with
                      | Some _ => false
                      | None => true
                      end) result_fields.

(** X19: when the upload returns a dict without one of the five fields, the
    handler answers 500 and the error text is the missing key in quotes, the
    [str] of a [KeyError], whatever the table does. *)
Theorem missing_result_field_gives_500 services event context bucket key
    items k :
  s3_record_fields event = Some (bucket, key) ->
  s3_download_file services bucket key ("/tmp/" +:+ PyRepr.str key) = inr tt ->
  cloudinary_upload services ("/tmp/" +:+ PyRepr.str key)
  = inr (Json.Dict items) ->
  first_missing items = Some k ->
  handler services event context
  = Ok {| statusCode := 500;
          body := Json.dumps (Json.Dict [("error", Json.Str (PyStr.repr k))]) |}.
Proof.
  intros He Hdl Hup Hk.
  pose proof (record_field_spec event) as Hf. rewrite He in Hf.
  destruct Hf as [Hb Ho]. unfold handler. rewrite Hb, Ho. cbn [rbind].
  unfold process. cbv zeta. rewrite Hdl. cbn [call rbind].
  rewrite Hup. cbn [call rbind]. rewrite !getitem_dict.
  revert Hk. unfold first_missing, result_fields. cbn [List.find].
  destruct (Json.assoc "secure_url" items); [|intros [= <-]; reflexivity].
  cbn [rbind].
  destruct (Json.assoc "format" items); [|intros [= <-]; reflexivity].
  cbn [rbind].
  destruct (Json.assoc "bytes" items); [|intros [= <-]; reflexivity].
  cbn [rbind].
  destruct (Json.assoc "width" items); [|intros [= <-]; reflexivity].
  cbn [rbind].
  destruct (Json.assoc "height" items); [|intros [= <-]; reflexivity].
  discriminate.
Qed.

(** The theorem at an upload result without its [width]. *)
Lemma missing_result_field_gives_500_witness :
  handler
    (services_returning
       (Json.Dict [("secure_url", Json.Str "https://res.example/ring.jpg");
                   ("format", Json.Str "jpg"); ("bytes", Json.Int 52000);
                   ("height", Json.Int 600)]))
    (s3_event "jewelry-images-input-bucket" "ring.jpg") Json.Null
  = Ok {| statusCode := 500;
          body := Json.dumps
                    (Json.Dict [("error", Json.Str (PyStr.repr "width"))]) |}.
Proof.
  apply (missing_result_field_gives_500 _ _ _
           (Json.Str "jewelry-images-input-bucket") (Json.Str "ring.jpg")
           [("secure_url", Json.Str "https://res.example/ring.jpg");
            ("format", Json.Str "jpg"); ("bytes", Json.Int 52000);
            ("height", Json.Int 600)] "width").
  - reflexivity.
  - reflexivity.
  - reflexivity.
  - reflexivity.
Defined.

End ProcessorFacts.


(** ** The webhook handler *)

Module WebhookFacts.
Import WebhookHandler.

Definition byte (b : Z) : Prop := 0 <= b < 256.

Lemma be_bytes_bytes n x : Forall byte (SHA256.be_bytes n x).
Proof.
  unfold SHA256.be_bytes. apply List.Forall_forall. intros b Hb.
  apply in_map_iff in Hb as (i & <- & _). unfold byte.
  apply Z.mod_pos_bound. lia.
Qed.

Lemma digest_bytes msg : Forall byte (SHA256.digest msg).
Proof.
  unfold SHA256.digest. apply List.Forall_forall. intros b Hb.
  apply in_concat in Hb as (l & Hl & Hb).
  apply in_map_iff in Hl as (x & <- & _).
  eapply (proj1 (List.Forall_forall _ _)); [apply be_bytes_bytes | exact Hb].
Qed.

Lemma hex_digit_ascii n :
  0 <= n < 16 -> (nat_of_ascii (Hmac.hex_digit n) < 128)%nat.
Proof.
  intros Hn. unfold Hmac.hex_digit.
  destruct (n <? 10) eqn:E; rewrite nat_ascii_embedding; lia.
Qed.

Lemma hex_isascii bytes : Forall byte bytes -> PyStr.isascii (Hmac.hex bytes) = true.
Proof.
  induction 1 as [|b rest Hb _ IH]; [reflexivity|].
  unfold byte in Hb. cbn [Hmac.hex PyStr.isascii]. rewrite IH.
  assert (H1 : 0 <= b / 16 < 16)
    by (split; [apply Z.div_pos | apply Z.div_lt_upper_bound]; lia).
  assert (H2 : 0 <= b mod 16 < 16) by (apply Z.mod_pos_bound; lia).
  apply hex_digit_ascii in H1, H2.
  apply Nat.ltb_lt in H1, H2. rewrite H1, H2. reflexivity.
Qed.

(** The state of the hash keeps its eight words. *)
Lemma round_length s kw : length s = 8%nat -> length (SHA256.round s kw) = 8%nat.
Proof.
  intros H. do 9 (destruct s as [|? s]; try discriminate). reflexivity.
Qed.

Lemma rounds_length l s :
  length s = 8%nat -> length (fold_left SHA256.round l s) = 8%nat.
Proof.
  revert s. induction l as [|kw l IH]; intros s H; [exact H|].
  apply IH, round_length, H.
Qed.

Lemma compress_length h block :
  length h = 8%nat -> length (SHA256.compress h block) = 8%nat.
Proof.
  intros H. unfold SHA256.compress.
  rewrite length_map, length_combine, rounds_length, H by exact H.
  reflexivity.
Qed.

Lemma compress_all_length l h :
  length h = 8%nat -> length (fold_left SHA256.compress l h) = 8%nat.
Proof.
  revert h. induction l as [|b l IH]; intros h H; [exact H|].
  apply IH, compress_length, H.
Qed.

Lemma digest_not_nil msg : SHA256.digest msg <> [].
Proof.
  unfold SHA256.digest.
  pose proof (compress_all_length
                (SHA256.blocks (length (SHA256.pad msg)) (SHA256.pad msg))
                SHA256.H0 eq_refl) as Hlen.
  destruct (fold_left SHA256.compress _ SHA256.H0) as [|x h];
    discriminate.
Qed.

(** A digest is not the empty string. *)
Lemma hexdigest_not_empty key msg : Hmac.hexdigest key msg <> "".
Proof.
  unfold Hmac.hexdigest, Hmac.hmac_sha256. cbv zeta.
  match goal with |- Hmac.hex (SHA256.digest ?m) <> _ =>
    pose proof (digest_not_nil m) as Hne;
    destruct (SHA256.digest m) as [|b rest] end;
    [congruence | discriminate].
Qed.

(** The digest the handler computes is ASCII text. *)
Lemma computed_signature_isascii secret data :
  PyStr.isascii (computed_signature secret data) = true.
Proof.
  unfold computed_signature, Hmac.hexdigest, Hmac.hmac_sha256.
  apply hex_isascii, digest_bytes.
Qed.

Lemma verify_signature_eq secret data signature :
  verify_signature secret data signature
  = if PyStr.isascii signature
    then Ok (bool_decide (computed_signature secret data = signature))
    else Raise (TypeError
                  "comparing strings with non-ASCII characters is not supported").
Proof.
  unfold verify_signature, Hmac.compare_digest.
  rewrite computed_signature_isascii. reflexivity.
Qed.

Definition accepted : Response :=
  mkResponse (Json.Dict [("status", Json.Str "success")]) 200.
Definition invalid_signature : Response :=
  mkResponse (Json.Dict [("error", Json.Str "Invalid signature")]) 400.

(** A missing or empty header is rejected with status 400. *)
Lemma missing_signature_rejected secret signature data w :
  signature = None \/ signature = Some "" ->
  handle_webhook secret signature data w = (Ok invalid_signature, w).
Proof. intros [-> | ->]; reflexivity. Qed.

(** An ASCII header that differs from the digest is rejected with status
    400. *)
Lemma wrong_signature_rejected secret sig data w :
  PyStr.isascii sig = true ->
  sig <> computed_signature secret data ->
  handle_webhook secret (Some sig) data w = (Ok invalid_signature, w).
Proof.
  intros Ha Hne. unfold handle_webhook, bind, lift.
  destruct (decide (sig = "")); [reflexivity|].
  rewrite verify_signature_eq, Ha. cbn [rbind].
  rewrite bool_decide_eq_false_2 by congruence. reflexivity.
Qed.

(** The digest as header of a JSON object is acknowledged with status 200,
    after the event is logged. *)
Lemma right_signature_accepted secret items w :
  let data := Json.Dict items in
  exists message,
    handle_webhook secret (Some (computed_signature secret data)) data w
    = (Ok accepted, set_log (log w ++ [(INFO, message)]) w).
Proof.
  intros data. unfold handle_webhook, bind, lift.
  destruct (decide (computed_signature secret data = "")) as [E|_].
  - exfalso. eapply hexdigest_not_empty, E.
  - rewrite verify_signature_eq, computed_signature_isascii. cbn [rbind].
    rewrite bool_decide_eq_true_2 by reflexivity. cbn.
    eexists. reflexivity.
Qed.

(** Whatever the payload and the header, the handler acknowledges with
    status 200 only when the header is the digest of the payload. *)
Lemma acknowledged_only_if_signed secret signature data w response w' :
  handle_webhook secret signature data w = (Ok response, w') ->
  status response = 200 ->
  signature = Some (computed_signature secret data).
Proof.
  unfold handle_webhook, bind, lift.
  destruct signature as [sig|]; [|intros [= <- <-]; discriminate].
  destruct (decide (sig = "")); [intros [= <- <-]; discriminate|].
  rewrite verify_signature_eq.
  destruct (PyStr.isascii sig); [|discriminate]. cbn [rbind].
  destruct (bool_decide_reflect (computed_signature secret data = sig))
    as [<-|_]; cbn [negb]; [reflexivity|].
  intros [= <- <-]. discriminate.
Qed.

(** When the handler returns a response, its status is 200 or 400. *)
Lemma response_is_200_or_400 secret signature data w response w' :
  handle_webhook secret signature data w = (Ok response, w') ->
  response = accepted \/ response = invalid_signature.
Proof.
  unfold handle_webhook, bind, lift.
  destruct signature as [sig|]; [|intros [= <- <-]; auto].
  destruct (decide (sig = "")); [intros [= <- <-]; auto|].
  rewrite verify_signature_eq.
  destruct (PyStr.isascii sig); [|discriminate]. cbn [rbind].
  destruct (bool_decide (computed_signature secret data = sig)); cbn [negb];
    [|intros [= <- <-]; auto].
  destruct (dict_get data "event"); cbn; try discriminate.
  destruct (dict_get data "resource_type"); cbn; try discriminate.
  destruct (dict_get data "public_id"); cbn; try discriminate.
  intros [= <- <-]. auto.
Qed.

(** *** The example of the design document *)

Definition upload_event : Json.value :=
  Json.Dict [("event", Json.Str "upload"); ("public_id", Json.Str "abc")].

Definition upload_digest : string :=
  "444680461b366e9bd83ffc43fb9673e511492e4d9869f61301ddfb037115d44f".

Example upload_event_digest :
  computed_signature default_secret upload_event = upload_digest.
Proof. vm_compute. reflexivity. Qed.

(** The payload with its digest is acknowledged. *)
Example signed_upload_event_accepted w :
  handle_webhook default_secret (Some upload_digest) upload_event w
  = (Ok accepted,
     set_log (log w ++ [(INFO, "Received event: upload for resource: abc")]) w).
Proof.
  rewrite <- upload_event_digest.
  destruct (right_signature_accepted default_secret
              [("event", Json.Str "upload"); ("public_id", Json.Str "abc")] w)
    as [message H].
  unfold upload_event. rewrite H. f_equal.
  revert H. unfold handle_webhook, bind, lift.
  destruct (decide _); [discriminate|].
  rewrite verify_signature_eq, computed_signature_isascii. cbn [rbind].
  rewrite bool_decide_eq_true_2 by reflexivity. cbn.
  intros [= <-]. reflexivity.
Qed.

(** A one-character header that is not ASCII: the character U+00E9. *)
Definition e_acute : string := String (PyStr.chr 233) "".

(** C3: the code run on the payload of the design document with a signature
    header that holds one non-ASCII character. The header differs from the
    digest, and the handler does not reject it with status 400:
    [hmac.compare_digest] raises a [TypeError] on a non-ASCII [str], nothing
    catches it, and the exception leaves the view (Flask answers 500). *)
Theorem non_ascii_signature_raises :
  e_acute <> computed_signature default_secret upload_event
  /\ forall w,
      handle_webhook default_secret (Some e_acute) upload_event w
      = (Raise (TypeError
                  "comparing strings with non-ASCII characters is not supported"),
         w).
Proof.
  split.
  - intros E. apply (f_equal PyStr.isascii) in E.
    rewrite computed_signature_isascii in E. discriminate.
  - intros w. unfold handle_webhook, bind, lift.
    destruct (decide (e_acute = "")); [discriminate|].
    rewrite verify_signature_eq. reflexivity.
Qed.

(** A validly signed payload that is not a JSON object: the handler raises
    at [data.get] instead of acknowledging. *)
Lemma signed_non_object_payload_raises secret data w :
  (forall items, data <> Json.Dict items) ->
  handle_webhook secret (Some (computed_signature secret data)) data w
  = (Raise (AttributeError ("'" +:+ Json.type_name data
                            +:+ "' object has no attribute 'get'")), w).
Proof.
  intros Hd.
  pose proof (hexdigest_not_empty secret (Json.dumps_canonical data)) as Hne.
  pose proof (computed_signature_isascii secret data) as Hascii.
  change (Hmac.hexdigest secret (Json.dumps_canonical data))
    with (computed_signature secret data) in Hne.
  unfold handle_webhook, bind, lift. rewrite verify_signature_eq.
  set (digest := computed_signature secret data) in *. clearbody digest.
  destruct (decide (digest = "")); [contradiction|].
  rewrite Hascii. cbn [rbind].
  rewrite bool_decide_eq_true_2 by reflexivity. cbn [negb].
  destruct data; try reflexivity.
  exfalso. eapply Hd. reflexivity.
Qed.

(** A payload that is a JSON array, with its digest as header: the signature
    is valid, and the handler raises instead of acknowledging, because a
    list has no [get]. *)
Lemma signed_array_payload_raises w :
  handle_webhook default_secret
    (Some (computed_signature default_secret (Json.List []))) (Json.List []) w
  = (Raise (AttributeError "'list' object has no attribute 'get'"), w).
Proof.
  exact (signed_non_object_payload_raises default_secret (Json.List []) w
           ltac:(discriminate)).
Qed.

(** *** Requests without a valid signature *)

(** X20: a request whose signature header is missing, empty, or ASCII text
    other than the digest of the payload is answered with status 400 and
    changes nothing: no event is logged, whatever the payload is. *)
Theorem unsigned_request_changes_nothing secret signature data w :
  match signature with
  | None => True
  | Some sig =>
      sig = ""
      \/ (PyStr.isascii sig = true /\ sig <> computed_signature secret data)
  end ->
  handle_webhook secret signature data w = (Ok invalid_signature, w).
Proof.
  destruct signature as [sig|]; [|reflexivity].
  unfold handle_webhook, bind, lift.
  destruct (decide (sig = "")) as [|Hne]; [reflexivity|].
  intros [?|[Ha Hd]]; [contradiction|].
  rewrite verify_signature_eq, Ha. cbn [rbind].
  rewrite bool_decide_eq_false_2 by congruence. reflexivity.
Qed.

(** The theorem at the payload of the design document with the header
    [deadbeef]. *)
Lemma unsigned_request_changes_nothing_witness :
  handle_webhook default_secret (Some "deadbeef") upload_event
    (mkWorld ∅ ∅ true [] (fun _ => 0%N) 0)
  = (Ok invalid_signature, mkWorld ∅ ∅ true [] (fun _ => 0%N) 0).
Proof.
  apply (unsigned_request_changes_nothing default_secret (Some "deadbeef")
           upload_event (mkWorld ∅ ∅ true [] (fun _ => 0%N) 0)).
  right. split; [reflexivity|].
  rewrite upload_event_digest. discriminate.
Defined.

(** *** Signed requests *)

(** [data.get(k)] of a dict. *)
Definition get_or_None (items : list (string * Json.value)) (k : string)
  : Json.value :=
  match Json.assoc k items with
  | Some v => v
  | None => Json.Null
  end.

(** X21: a JSON object with its digest as header is acknowledged with
    status 200 after exactly one line is logged: the line names the
    payload's [event] and [public_id], with [None] for one that is missing;
    [resource_type] is read and not used. *)
Theorem signed_object_is_logged_and_acknowledged secret items w :
  handle_webhook secret (Some (computed_signature secret (Json.Dict items)))
    (Json.Dict items) w
  = (Ok accepted,
     set_log (log w ++ [(INFO, "Received event: "
                               +:+ PyRepr.str (get_or_None items "event")
                               +:+ " for resource: "
                               +:+ PyRepr.str (get_or_None items "public_id"))])
       w).
Proof.
  pose proof (hexdigest_not_empty secret
                (Json.dumps_canonical (Json.Dict items))) as Hne.
  pose proof (computed_signature_isascii secret (Json.Dict items)) as Hascii.
  change (Hmac.hexdigest secret (Json.dumps_canonical (Json.Dict items)))
    with (computed_signature secret (Json.Dict items)) in Hne.
  unfold handle_webhook, bind, lift. rewrite verify_signature_eq.
  set (digest := computed_signature secret (Json.Dict items)) in *.
  clearbody digest.
  destruct (decide (digest = "")); [contradiction|].
  rewrite Hascii. cbn [rbind].
  rewrite bool_decide_eq_true_2 by reflexivity. reflexivity.
Qed.

(** *** The order of the payload's keys *)

Lemma leb_trans s1 s2 s3 :
  String.leb s1 s2 = true -> String.leb s2 s3 = true ->
  String.leb s1 s3 = true.
Proof.
  unfold String.leb.
  destruct (String.compare s1 s2) eqn:E12; try discriminate; intros _.
  - apply String.compare_eq_iff in E12 as ->. auto.
  - destruct (String.compare s2 s3) eqn:E23; try discriminate; intros _.
    + apply String.compare_eq_iff in E23 as <-. rewrite E12. reflexivity.
    + apply OrderedTypeEx.String_as_OT.cmp_lt in E12, E23.
      pose proof (OrderedTypeEx.String_as_OT.lt_trans _ _ _ E12 E23) as H.
      apply OrderedTypeEx.String_as_OT.cmp_lt in H.
      unfold OrderedTypeEx.String_as_OT.cmp in H. rewrite H. reflexivity.
Qed.

(** Two insertions with different keys can be swapped. *)
Lemma insert_sorted_comm {A} (a b : string * A) l :
  fst a <> fst b ->
  Json.insert_sorted a (Json.insert_sorted b l)
  = Json.insert_sorted b (Json.insert_sorted a l).
Proof.
  intros Hne.
  assert (Hab : String.leb (fst a) (fst b) = true ->
                String.leb (fst b) (fst a) = false).
  { intros H. destruct (String.leb (fst b) (fst a)) eqn:E; [|reflexivity].
    exfalso. apply Hne. apply String.leb_antisym; assumption. }
  assert (Hba : String.leb (fst a) (fst b) = false ->
                String.leb (fst b) (fst a) = true).
  { intros H. destruct (String.leb_total (fst a) (fst b)); congruence. }
  induction l as [|c l IH].
  - cbn [Json.insert_sorted].
    destruct (String.leb (fst a) (fst b)) eqn:E.
    + rewrite (Hab eq_refl). reflexivity.
    + rewrite (Hba eq_refl). reflexivity.
  - cbn [Json.insert_sorted].
    destruct (String.leb (fst b) (fst c)) eqn:Ebc;
      destruct (String.leb (fst a) (fst c)) eqn:Eac;
      cbn [Json.insert_sorted]; rewrite ?Ebc, ?Eac.
    + destruct (String.leb (fst a) (fst b)) eqn:E.
      * rewrite (Hab eq_refl). reflexivity.
      * rewrite (Hba eq_refl). reflexivity.
    + destruct (String.leb (fst a) (fst b)) eqn:E.
      * rewrite (leb_trans _ _ _ E Ebc) in Eac. discriminate.
      * reflexivity.
    + destruct (String.leb (fst b) (fst a)) eqn:E.
      * rewrite (leb_trans _ _ _ E Eac) in Ebc. discriminate.
      * reflexivity.
    + rewrite IH. reflexivity.
Qed.

Lemma sort_items_Permutation {A} (l1 l2 : list (string * A)) :
  NoDup (l1.*1) -> l1 ≡ₚ l2 -> Json.sort_items l1 = Json.sort_items l2.
Proof.
  intros Hnd Hp. unfold Json.sort_items.
  apply (foldr_permutation eq Json.insert_sorted []); [|exact Hp].
  intros j1 a1 j2 a2 b Hj H1 H2. apply insert_sorted_comm.
  intros E. apply Hj.
  apply (NoDup_lookup (l1.*1) j1 j2 (fst a1)); [exact Hnd| |].
  - rewrite list_lookup_fmap, H1. reflexivity.
  - rewrite list_lookup_fmap, H2, E. reflexivity.
Qed.

Lemma assoc_elem_of k v (items : list (string * Json.value)) :
  NoDup (items.*1) -> (Json.assoc k items = Some v <-> (k, v) ∈ items).
Proof.
  induction items as [|[k' v'] items IH]; intros Hnd.
  - cbn. split; [discriminate|]. intros H. inversion H.
  - cbn [Json.assoc]. apply NoDup_cons in Hnd as [Hk Hnd].
    destruct (decide (k' = k)) as [->|Hne].
    + split.
      * intros [= ->]. left.
      * intros H. apply elem_of_cons in H as [[= ->]|H]; [reflexivity|].
        exfalso. apply Hk. apply list_elem_of_fmap. exists (k, v). auto.
    + rewrite (IH Hnd). split.
      * intros H. right. exact H.
      * intros H. apply elem_of_cons in H as [[= -> ->]|H];
          [contradiction|exact H].
Qed.

Lemma assoc_Permutation k (items1 items2 : list (string * Json.value)) :
  NoDup (items1.*1) -> items1 ≡ₚ items2 ->
  Json.assoc k items1 = Json.assoc k items2.
Proof.
  intros Hnd Hp.
  assert (Hnd2 : NoDup (items2.*1)) by (rewrite <- Hp; exact Hnd).
  destruct (Json.assoc k items1) as [v|] eqn:E1.
  - symmetry. apply assoc_elem_of; [exact Hnd2|]. rewrite <- Hp.
    apply assoc_elem_of; assumption.
  - destruct (Json.assoc k items2) as [v|] eqn:E2; [|reflexivity].
    apply assoc_elem_of in E2; [|exact Hnd2]. rewrite <- Hp in E2.
    apply assoc_elem_of in E2; [|exact Hnd]. congruence.
Qed.

Lemma dumps_canonical_Permutation items1 items2 :
  NoDup (items1.*1) -> items1 ≡ₚ items2 ->
  Json.dumps_canonical (Json.Dict items1)
  = Json.dumps_canonical (Json.Dict items2).
Proof.
  intros Hnd Hp. unfold Json.dumps_canonical.
  destruct items1 as [|x1 l1].
  { apply Permutation_nil_l in Hp as ->. reflexivity. }
  destruct items2 as [|x2 l2].
  { apply Permutation_nil_r in Hp. discriminate. }
  set (enc := fun kv : string * Json.value =>
                (fst kv, Json.encode None "," ":" true 1 (snd kv))).
  change (Json.encode None "," ":" true 0 (Json.Dict (x1 :: l1)))
    with ("{" +:+ Json.newline_indent None 1
          +:+ PyStr.join ("," +:+ Json.newline_indent None 1)
                (map (fun kv => Json.encode_str (fst kv) +:+ ":" +:+ snd kv)
                   (Json.sort_items (map enc (x1 :: l1))))
          +:+ Json.newline_indent None 0 +:+ "}").
  change (Json.encode None "," ":" true 0 (Json.Dict (x2 :: l2)))
    with ("{" +:+ Json.newline_indent None 1
          +:+ PyStr.join ("," +:+ Json.newline_indent None 1)
                (map (fun kv => Json.encode_str (fst kv) +:+ ":" +:+ snd kv)
                   (Json.sort_items (map enc (x2 :: l2))))
          +:+ Json.newline_indent None 0 +:+ "}").
  rewrite (sort_items_Permutation (map enc (x1 :: l1)) (map enc (x2 :: l2))).
  - reflexivity.
  - replace ((map enc (x1 :: l1)).*1) with ((x1 :: l1).*1); [exact Hnd|].
    change (map enc (x1 :: l1)) with (enc <$> (x1 :: l1)).
    rewrite <- list_fmap_compose. reflexivity.
  - apply Permutation_map, Hp.
Qed.

(** X22: the handler does not see the order of a payload's keys: for two
    JSON objects with the same items in any order (the keys distinct, as in
    every Python dict) the digest is the same, and so is everything the
    handler does. *)
Theorem key_order_is_irrelevant secret signature items1 items2 w :
  NoDup (items1.*1) ->
  items1 ≡ₚ items2 ->
  computed_signature secret (Json.Dict items1)
  = computed_signature secret (Json.Dict items2)
  /\ handle_webhook secret signature (Json.Dict items1) w
     = handle_webhook secret signature (Json.Dict items2) w.
Proof.
  intros Hnd Hp.
  assert (Hsig : computed_signature secret (Json.Dict items1)
                 = computed_signature secret (Json.Dict items2)).
  { unfold computed_signature.
    rewrite (dumps_canonical_Permutation items1 items2 Hnd Hp). reflexivity. }
  split; [exact Hsig|].
  unfold handle_webhook, verify_signature. rewrite Hsig.
  unfold dict_get.
  rewrite !(assoc_Permutation _ items1 items2 Hnd Hp). reflexivity.
Qed.

(** The payload of the design document with its keys the other way round. *)
Definition upload_event_swapped : Json.value :=
  Json.Dict [("public_id", Json.Str "abc"); ("event", Json.Str "upload")].

(** The theorem at the two. *)
Lemma key_order_is_irrelevant_witness :
  computed_signature default_secret upload_event
  = computed_signature default_secret upload_event_swapped
  /\ handle_webhook default_secret (Some upload_digest) upload_event
       (mkWorld ∅ ∅ true [] (fun _ => 0%N) 0)
     = handle_webhook default_secret (Some upload_digest) upload_event_swapped
         (mkWorld ∅ ∅ true [] (fun _ => 0%N) 0).
Proof.
  apply (key_order_is_irrelevant default_secret (Some upload_digest)
           [("event", Json.Str "upload"); ("public_id", Json.Str "abc")]
           [("public_id", Json.Str "abc"); ("event", Json.Str "upload")]
           (mkWorld ∅ ∅ true [] (fun _ => 0%N) 0)).
  - apply NoDup_cons. split; [|apply NoDup_singleton].
    intros H. apply list_elem_of_singleton in H. discriminate.
  - apply perm_swap.
Defined.

(** *** The shape of a digest *)

Lemma digest_length msg : length (SHA256.digest msg) = 32%nat.
Proof.
  unfold SHA256.digest.
  pose proof (compress_all_length
                (SHA256.blocks (length (SHA256.pad msg)) (SHA256.pad msg))
                SHA256.H0 eq_refl) as Hlen.
  destruct (fold_left SHA256.compress _ SHA256.H0) as [|x h]; [discriminate|].
  do 8 (destruct h as [|? h]; try discriminate). reflexivity.
Qed.

Lemma hex_length bytes :
  String.length (Hmac.hex bytes) = (2 * length bytes)%nat.
Proof.
  induction bytes as [|b rest IH]; [reflexivity|].
  cbn [Hmac.hex String.length length]. rewrite IH. lia.
Qed.

Lemma computed_signature_length secret data :
  String.length (computed_signature secret data) = 64%nat.
Proof.
  unfold computed_signature, Hmac.hexdigest, Hmac.hmac_sha256. cbv zeta.
  rewrite hex_length, digest_length. reflexivity.
Qed.

(** X23: a header the handler acknowledges is 64 characters of ASCII text:
    anything shorter or longer never gets status 200. *)
Theorem acknowledged_signature_has_64_characters secret signature data w
    response w' :
  handle_webhook secret signature data w = (Ok response, w') ->
  status response = 200 ->
  exists sig,
    signature = Some sig
    /\ String.length sig = 64%nat
    /\ PyStr.isascii sig = true.
Proof.
  intros H Hs.
  rewrite (acknowledged_only_if_signed _ _ _ _ _ _ H Hs).
  eexists. split; [reflexivity|]. split.
  - apply computed_signature_length.
  - apply computed_signature_isascii.
Qed.

(** The theorem at the payload of the design document with its digest. *)
Lemma acknowledged_signature_has_64_characters_witness :
  exists sig,
    Some upload_digest = Some sig
    /\ String.length sig = 64%nat
    /\ PyStr.isascii sig = true.
Proof.
  apply (acknowledged_signature_has_64_characters default_secret
           (Some upload_digest) upload_event
           (mkWorld ∅ ∅ true [] (fun _ => 0%N) 0) accepted
           (set_log [(INFO, "Received event: upload for resource: abc")]
              (mkWorld ∅ ∅ true [] (fun _ => 0%N) 0))).
  - apply signed_upload_event_accepted.
  - reflexivity.
Defined.

End WebhookFacts.

(** ** The media pipeline *)

Module MediaflowFacts.
Import JewelryMediaPipeline.

Lemma rbind_not_Blocked {A B} (r : Result A) (k : A -> Result B) :
  r <> Blocked -> (forall a, k a <> Blocked) -> rbind r k <> Blocked.
Proof. destruct r; cbn; auto; discriminate. Qed.

(** The names of the presets. *)
Definition preset_names : list string := ["thumbnail"; "detail"; "zoom"; "360"].

(** The steps of a preset the pipeline itself names. *)
Definition preset_of (name : string) : Json.value :=
  match Json.assoc name presets with
  | Some transformation => transformation
  | None => Json.Null
  end.

Section WithSdk.
Variable sdk : list Call -> Call -> exn + Json.value.
Variable cloudinary_url : Json.value -> Json.value -> exn + string.

Lemma get_url_not_Blocked public_id preset :
  get_url cloudinary_url public_id preset <> Blocked.
Proof.
  unfold get_url, _get_transformation.
  destruct (Json.assoc preset presets); cbn [rbind]; [|discriminate].
  apply ProcessorFacts.call_not_Blocked.
Qed.

(** X24: [get_url] knows four presets. For any other name it raises the
    [ValueError] of [_get_transformation] and the URL builder is not
    consulted; for each of the four it returns what the builder makes of the
    preset's steps. *)
Theorem get_url_knows_four_presets public_id preset :
  match Json.assoc preset presets with
  | Some transformation =>
      In preset preset_names
      /\ get_url cloudinary_url public_id preset
         = call (cloudinary_url public_id transformation)
  | None =>
      ~ In preset preset_names
      /\ get_url cloudinary_url public_id preset
         = Raise (ValueError ("Unknown preset: " +:+ preset))
  end.
Proof.
  unfold get_url, _get_transformation, presets, preset_names.
  cbn [Json.assoc].
  destruct (decide ("thumbnail" = preset)) as [<-|H1];
    [split; [cbn; tauto | reflexivity]|].
  destruct (decide ("detail" = preset)) as [<-|H2];
    [split; [cbn; tauto | reflexivity]|].
  destruct (decide ("zoom" = preset)) as [<-|H3];
    [split; [cbn; tauto | reflexivity]|].
  destruct (decide ("360" = preset)) as [<-|H4];
    [split; [cbn; tauto | reflexivity]|].
  split; [|reflexivity]. cbn. tauto.
Qed.

(** *** Uploading one image *)

(** The upload call [upload_jewelry_image] makes. *)
Definition image_call (image_path category style : string) : Call :=
  upload_call image_path category style (preset_of "thumbnail")
    (preset_of "detail") (preset_of "zoom").

(** What follows the upload: the dict that is returned, or what is
    raised. *)
Definition image_result (response : Json.value) : Result (option Json.value) :=
  public_id <-- Json.getitem response "public_id" ;;
  id1 <-- Json.getitem response "public_id" ;;
  thumbnail_url <-- get_url cloudinary_url id1 "thumbnail" ;;
  id2 <-- Json.getitem response "public_id" ;;
  detail_url <-- get_url cloudinary_url id2 "detail" ;;
  id3 <-- Json.getitem response "public_id" ;;
  zoom_url <-- get_url cloudinary_url id3 "zoom" ;;
  metadata <-- Json.getitem response "metadata" ;;
  Ok (Some (Json.Dict
              [("public_id", public_id);
               ("urls",
                Json.Dict [("thumbnail", Json.Str thumbnail_url);
                           ("detail", Json.Str detail_url);
                           ("zoom", Json.Str zoom_url)]);
               ("metadata", metadata)])).

Lemma image_result_not_Blocked response : image_result response <> Blocked.
Proof.
  unfold image_result.
  repeat (apply rbind_not_Blocked;
          [first [apply ProcessorFacts.getitem_not_Blocked
                 | apply get_url_not_Blocked] | intros ?]).
  discriminate.
Qed.

Lemma upload_jewelry_image_eq image_path category style s :
  upload_jewelry_image sdk cloudinary_url image_path category style s
  = let s1 := mkAccount (calls s ++ [image_call image_path category style])
                (stdout s) in
    match rbind (call (sdk (calls s) (image_call image_path category style)))
            image_result with
    | Ok r => (Ok r, s1)
    | Raise e =>
        (Ok None,
         mkAccount (calls s1)
           (stdout s1 ++ ["Error uploading image: " +:+ exn_str e]))
    | Blocked => (Blocked, s1)
    end.
Proof.
  unfold upload_jewelry_image, guarded, and_then, of_result, sdk_call.
  change (_get_transformation "thumbnail") with (Ok (preset_of "thumbnail")).
  change (_get_transformation "detail") with (Ok (preset_of "detail")).
  change (_get_transformation "zoom") with (Ok (preset_of "zoom")).
  cbv beta iota zeta.
  fold (image_call image_path category style).
  destruct (sdk (calls s) (image_call image_path category style))
    as [e|response]; cbn [call rbind]; [reflexivity|].
  fold (image_result response).
  destruct (image_result response); reflexivity.
Qed.

(** X25: [upload_jewelry_image] never raises and makes exactly one call to
    the SDK, the upload with the three eager presets, whatever becomes of
    it; a line is printed exactly when [None] is returned. *)
Theorem upload_jewelry_image_makes_one_call image_path category style s :
  exists r s',
    upload_jewelry_image sdk cloudinary_url image_path category style s
    = (Ok r, s')
    /\ calls s' = calls s ++ [image_call image_path category style]
    /\ match r with
       | Some _ => stdout s' = stdout s
       | None =>
           exists e,
             stdout s' = stdout s ++ ["Error uploading image: " +:+ exn_str e]
       end.
Proof.
  rewrite upload_jewelry_image_eq. cbv zeta.
  destruct (sdk (calls s) (image_call image_path category style))
    as [e|response]; cbn [call rbind].
  - do 2 eexists. split; [reflexivity|]. split; [reflexivity|].
    exists e. reflexivity.
  - pose proof (image_result_not_Blocked response) as Hb.
    assert (Hsome : forall r, image_result response = Ok r -> r <> None).
    { unfold image_result. intros r.
      repeat match goal with
             | |- rbind ?x _ = _ -> _ => destruct x; cbn [rbind];
                                         try discriminate
             end.
      intros [= <-]. discriminate. }
    destruct (image_result response) as [r|e|]; [| |contradiction].
    + do 2 eexists. split; [reflexivity|]. split; [reflexivity|].
      destruct r; [reflexivity|]. exfalso. eapply Hsome; reflexivity.
    + do 2 eexists. split; [reflexivity|]. split; [reflexivity|].
      exists e. reflexivity.
Qed.

(** X26: an upload that succeeds but whose response has no [metadata]
    entry is reported as a failure: the image is uploaded, its three URLs
    are built, and then the [KeyError] of the lookup ends in the handler,
    which prints it and returns [None]. *)
Theorem upload_without_metadata_returns_None image_path category style s
    items public_id :
  sdk (calls s) (image_call image_path category style)
  = inr (Json.Dict items) ->
  Json.assoc "public_id" items = Some public_id ->
  Json.assoc "metadata" items = None ->
  (forall transformation,
      exists url, cloudinary_url public_id transformation = inr url) ->
  upload_jewelry_image sdk cloudinary_url image_path category style s
  = (Ok None,
     mkAccount (calls s ++ [image_call image_path category style])
       (stdout s ++ ["Error uploading image: 'metadata'"])).
Proof.
  intros Hup Hid Hmd Hurl. rewrite upload_jewelry_image_eq. cbv zeta.
  rewrite Hup. cbn [call rbind]. unfold image_result.
  rewrite !ProcessorFacts.getitem_dict, Hid, Hmd. cbn [rbind].
  unfold get_url.
  change (_get_transformation "thumbnail") with (Ok (preset_of "thumbnail")).
  change (_get_transformation "detail") with (Ok (preset_of "detail")).
  change (_get_transformation "zoom") with (Ok (preset_of "zoom")).
  cbn [rbind].
  destruct (Hurl (preset_of "thumbnail")) as [u1 ->].
  destruct (Hurl (preset_of "detail")) as [u2 ->].
  destruct (Hurl (preset_of "zoom")) as [u3 ->].
  reflexivity.
Qed.

(** *** The 360-degree view *)



(** *** Optimizing a folder *)

(** The update loop: one update call for each listed resource, in order,
    until a resource has no [public_id] or an update raises. *)
Lemma update_resources_trace listed s :
  exists r s',
    for_each listed (update_resource sdk) s = (r, s')
    /\ stdout s' = stdout s
    /\ exists ids,
        calls s' = calls s ++ map update_call ids
        /\ match r with
           | Ok _ =>
               Forall2 (fun resource id =>
                          Json.getitem resource "public_id" = Ok id)
                 listed ids
           | Raise _ => (length ids <= length listed)%nat
           | Blocked => False
           end.
Proof.
  revert s. induction listed as [|resource rest IH]; intros s.
  - exists (Ok []), s. split; [reflexivity|]. split; [reflexivity|].
    exists []. cbn. rewrite app_nil_r. auto.
  - cbn [for_each]. unfold and_then at 1. unfold update_resource at 1.
    unfold and_then at 1. unfold of_result at 1.
    destruct (Json.getitem resource "public_id") as [public_id|e|] eqn:Hid.
    + unfold sdk_call at 1.
      set (s1 := mkAccount (calls s ++ [update_call public_id]) (stdout s)).
      destruct (sdk (calls s) (update_call public_id)) as [e|response];
        cbn [call].
      * exists (Raise e), s1. split; [reflexivity|]. split; [reflexivity|].
        exists [public_id]. split; [reflexivity|]. cbn. lia.
      * unfold and_then.
        destruct (IH s1) as (r & s' & -> & Hout & ids & Hcalls & Hr).
        destruct r as [done_|e|]; [| |contradiction].
        -- exists (Ok (response :: done_)), s'. split; [reflexivity|].
           split; [exact Hout|]. exists (public_id :: ids). split.
           ++ rewrite Hcalls. cbn. rewrite <- app_assoc. reflexivity.
           ++ constructor; assumption.
        -- exists (Raise e), s'. split; [reflexivity|].
           split; [exact Hout|]. exists (public_id :: ids). split.
           ++ rewrite Hcalls. cbn. rewrite <- app_assoc. reflexivity.
           ++ cbn. lia.
    + exists (Raise e), s. split; [reflexivity|]. split; [reflexivity|].
      exists []. cbn. rewrite app_nil_r. split; [reflexivity|lia].
    + exfalso. eapply ProcessorFacts.getitem_not_Blocked, Hid.
Qed.

Lemma iterate_not_Blocked v : iterate v <> Blocked.
Proof. destruct v; discriminate. Qed.

(** X28: [optimize_existing_images] never raises. It lists the folder
    once, with at most 500 results, and then only makes update calls. It
    returns [True] exactly when nothing raised, and then every listed
    resource was updated, in order, and nothing was printed; otherwise it
    prints one line and the updates made before the failure stay. *)
Theorem optimize_existing_images_outcome folder s :
  exists b s' ids,
    optimize_existing_images sdk folder s = (Ok b, s')
    /\ calls s' = calls s ++ resources_call folder :: map update_call ids
    /\ if b
       then stdout s' = stdout s
            /\ exists resources listed,
                sdk (calls s) (resources_call folder) = inr resources
                /\ (l <-- Json.getitem resources "resources" ;; iterate l)
                   = Ok listed
                /\ Forall2 (fun resource id =>
                              Json.getitem resource "public_id" = Ok id)
                     listed ids
       else exists e,
           stdout s' = stdout s ++ ["Error optimizing images: " +:+ exn_str e].
Proof.
  unfold optimize_existing_images, guarded. unfold and_then at 1.
  unfold sdk_call at 1.
  set (s1 := mkAccount (calls s ++ [resources_call folder]) (stdout s)).
  destruct (sdk (calls s) (resources_call folder)) as [e|resources] eqn:Hres;
    cbn [call].
  { exists false. eexists. exists []. split; [reflexivity|].
    split; [cbn; reflexivity|]. exists e. reflexivity. }
  unfold and_then at 1. unfold of_result at 1.
  destruct (l <-- Json.getitem resources "resources" ;; iterate l)
    as [listed|e|] eqn:Hl.
  - unfold and_then at 1.
    destruct (update_resources_trace listed s1)
      as (r & s2 & -> & Hout & ids & Hcalls & Hr).
    assert (Hc : calls s2
                 = calls s ++ resources_call folder :: map update_call ids).
    { rewrite Hcalls. cbn. rewrite <- app_assoc. reflexivity. }
    destruct r as [done_|e|]; [| |contradiction].
    + exists true, s2, ids. split; [reflexivity|]. split; [exact Hc|].
      split; [exact Hout|]. exists resources, listed. auto.
    + exists false. eexists. exists ids. split; [reflexivity|].
      split; [exact Hc|]. exists e. cbn. rewrite Hout. reflexivity.
  - exists false. eexists. exists []. split; [reflexivity|].
    split; [reflexivity|]. exists e. reflexivity.
  - exfalso. revert Hl. apply rbind_not_Blocked.
    + apply ProcessorFacts.getitem_not_Blocked.
    + apply iterate_not_Blocked.
Qed.

(** *** The watermark *)

(** X29: [create_watermark] never raises and makes exactly one call, the
    text upload with the given text; it returns the [public_id] of the
    response, and [None] with one printed line when the call raises or the
    response has none. *)
Theorem create_watermark_outcome text s :
  exists r s',
    create_watermark sdk text s = (Ok r, s')
    /\ calls s' = calls s ++ [text_call text]
    /\ match r with
       | Some public_id =>
           stdout s' = stdout s
           /\ exists response,
               sdk (calls s) (text_call text) = inr response
               /\ Json.getitem response "public_id" = Ok public_id
       | None =>
           exists e,
             stdout s' = stdout s
                         ++ ["Error creating watermark: " +:+ exn_str e]
       end.
Proof.
  unfold create_watermark, guarded, and_then, sdk_call, of_result.
  destruct (sdk (calls s) (text_call text)) as [e|response] eqn:Hcall;
    cbn [call].
  - do 2 eexists. split; [reflexivity|]. split; [reflexivity|].
    exists e. reflexivity.
  - destruct (Json.getitem response "public_id") as [public_id|e|] eqn:Hid.
    + do 2 eexists. split; [reflexivity|]. split; [reflexivity|].
      split; [reflexivity|]. exists response. auto.
    + do 2 eexists. split; [reflexivity|]. split; [reflexivity|].
      exists e. reflexivity.
    + exfalso. eapply ProcessorFacts.getitem_not_Blocked, Hid.
Qed.

End WithSdk.

(** *** An account that answers every upload *)

(** Every call returns a response with a [public_id] and nothing else. *)
Definition plain_sdk (history : list Call) (c : Call) : exn + Json.value :=
  inr (Json.Dict [("public_id", Json.Str "jewelry/rings/vintage/ring")]).

Definition plain_url (public_id transformation : Json.value) : exn + string :=
  inr ("https://res.example/" +:+ PyRepr.str public_id).

Definition new_account : Account := mkAccount [] [].

(** The theorem at the usage example of the module, with an SDK whose
    upload response has no [metadata]. *)
Lemma upload_without_metadata_returns_None_witness :
  upload_jewelry_image plain_sdk plain_url "ring.jpg" "rings" "vintage"
    new_account
  = (Ok None,
     mkAccount [image_call "ring.jpg" "rings" "vintage"]
       ["Error uploading image: 'metadata'"]).
Proof.
  apply (upload_without_metadata_returns_None plain_sdk plain_url "ring.jpg"
           "rings" "vintage" new_account
           [("public_id", Json.Str "jewelry/rings/vintage/ring")]
           (Json.Str "jewelry/rings/vintage/ring")).
  - reflexivity.
  - reflexivity.
  - reflexivity.
  - intros transformation. eexists. reflexivity.
Defined.

End MediaflowFacts.
